(** * Undo record sets (src/backend/access/undo/undorecordset.c)

    A shallow embedding of the undo-record-set layer: the opcode stream
    attached to WAL buffer data, the insertion engine, the allocator and
    chunk manager, the close/release protocol and the two recovery entry
    points.  C functions become functions in a small state-and-failure
    monad over an explicit [World]; calls into the buffer manager, the WAL
    machinery and the undo-log allocator are kept as entries of a call
    trace, or as small models of their effect where later code reads that
    effect back. *)

From Stdlib Require Import ZArith Lia String.
From stdpp Require Import base list.

Local Open Scope Z_scope.

(** ** Failures and the outcome of a C computation *)

(** How a call can end other than by returning. *)
Inductive failure : Type :=
  | ElogError (msg : string)      (* elog(ERROR, msg) *)
  | ElogPanic (msg : string)      (* elog(PANIC, msg) *)
  | AssertFailed (cond : string)  (* Assert(cond) in an assert-enabled build *)
  | Undefined (what : string)     (* undefined behaviour of the C program *)
  | Diverges.                     (* the loop did not finish within the fuel *)

Inductive outcome (A : Type) : Type :=
  | Done (a : A)
  | Fail (f : failure).
Arguments Done {A} a.
Arguments Fail {A} f.

Definition obind {A B} (m : outcome A) (k : A -> outcome B) : outcome B :=
  match m with
  | Done a => k a
  | Fail f => Fail f
  end.

Definition Assert (cond : bool) (text : string) : outcome unit :=
  if cond then Done tt else Fail (AssertFailed text).

Declare Scope undo_scope.
Delimit Scope undo_scope with undo.
Notation "'let?' x ':=' m 'in' k" := (obind m (fun x => k))
  (at level 10, x pattern, m at level 100, k at level 200) : undo_scope.
Local Open Scope undo_scope.

(** ** Fixed-width integers *)

Definition uint8 (z : Z) : Z := z mod 2 ^ 8.
Definition uint16 (z : Z) : Z := z mod 2 ^ 16.
Definition uint32 (z : Z) : Z := z mod 2 ^ 32.
Definition uint64 (z : Z) : Z := z mod 2 ^ 64.

(** [memcpy(dst, &v, n)] of a [uint64 v] on a little-endian machine reads
    the first [n] of these eight bytes. *)
Fixpoint le_bytes (n : nat) (v : Z) : list Z :=
  match n with
  | O => []
  | S n => v mod 256 :: le_bytes n (v / 256)
  end.

Fixpoint le_value (bs : list Z) : Z :=
  match bs with
  | [] => 0
  | b :: bs => b + 256 * le_value bs
  end.

(** ** Page memory *)

(** [memcpy(page + off, src, |src|)] into the byte image of a page.  A copy
    that does not fit inside the image is a buffer overrun. *)
Definition page_write (pg : list Z) (off : Z) (src : list Z) : outcome (list Z) :=
  if (0 <=? off) && (off + Z.of_nat (length src) <=? Z.of_nat (length pg))
  then Done (take (Z.to_nat off) pg ++ src
             ++ drop (Z.to_nat off + length src) pg)
  else Fail (Undefined "page_write: copy outside the page").

(** The [n] bytes at [page + off]. *)
Definition page_read (pg : list Z) (off : Z) (n : nat) : list Z :=
  take n (drop (Z.to_nat off) pg).

(** ** The world a backend runs in *)

(** An [UndoLogSlot] in shared memory: [logno], [meta.insert], [end], and
    what the allocator keeps about it. *)
Record UndoLogSlot : Type := mkSlot {
  logno : Z;
  meta_insert : Z;
  slot_end : Z;
  slot_persistence : Z;
  slot_full : bool
}.

(** A page: its [BLCKSZ] bytes, the page header first.  bufpage.h is
    missing; the header is PostgreSQL's [PageHeaderData], of
    [SizeOfPageHeaderData] bytes: [pd_lsn], a pair of 32-bit words with
    the high word first, is bytes 0..7; [pd_checksum] and [pd_flags]
    follow; [pd_lower], [pd_upper], [pd_special] and
    [pd_pagesize_version], of 16 bits each, are bytes 12..19.  The fields
    of the header are read from and stored to these bytes, so that a copy
    to the start of a page changes them. *)
Record Page : Type := mkPage {
  image : list Z
}.

Definition SizeOfPageHeaderData : Z := 24.

(** The image after a store of the bytes [src] at [page + off]. *)
Definition poke (pg : list Z) (off : Z) (src : list Z) : list Z :=
  take (Z.to_nat off) pg ++ src ++ drop (Z.to_nat off + length src) pg.

Definition pd_lsn (pg : Page) : Z :=
  le_value (page_read (image pg) 0 4) * 2 ^ 32 + le_value (page_read (image pg) 4 4).

Definition pd_lower (pg : Page) : Z :=
  le_value (page_read (image pg) 12 2).

(** [PageXLogRecPtrSet(page->pd_lsn, lsn)] and [page->pd_lower = v]. *)
Definition store_pd_lsn (lsn : Z) (pg : Page) : Page :=
  mkPage (poke (image pg) 0 (le_bytes 4 (lsn / 2 ^ 32) ++ le_bytes 4 lsn)).

Definition store_pd_lower (v : Z) (pg : Page) : Page :=
  mkPage (poke (image pg) 12 (le_bytes 2 v)).

Arguments pd_lsn : simpl never.
Arguments pd_lower : simpl never.
Arguments store_pd_lsn : simpl never.
Arguments store_pd_lower : simpl never.

(** A shared buffer: its tag and the page it holds.  The [Buffer] handle
    of the descriptor at position [i] of the pool is [i + 1]; 0 is
    [InvalidBuffer]. *)
Record BufferDesc : Type := mkBuf {
  tag_relNode : Z;
  tag_block : Z;
  buf_page : Page
}.

Record UndoRecordSetChunk : Type := mkChunk {
  chunk_slot : nat;                       (* UndoLogSlot *slot *)
  chunk_header_offset : Z;
  chunk_header_buffer_index : Z * Z;
  chunk_header_ops : list Z * list Z
}.

Record UndoRecordSetChunkHeader : Type := mkChunkHeader {
  ch_size : Z;
  ch_previous_chunk : Z;
  ch_type : Z
}.

(** [struct UndoRecordSet].  [chunks] holds the [nchunks] entries in use;
    [buffers] is the whole array of [max_buffers] cells, a cell being
    [None] until it is first written. *)
Record UndoRecordSet : Type := mkURS {
  urs_type : Z;
  persistence : Z;
  chunks : list UndoRecordSetChunk;
  max_chunks : Z;
  first_block_id : Z;
  buffers : list (option Z);
  nbuffers : Z;
  previous_chunk : Z;
  need_chunk_header : bool;
  need_type_header : bool;
  chunk_header : UndoRecordSetChunkHeader;
  type_header : list Z;
  type_header_size : Z;
  slot : option nat;                      (* UndoLogSlot *slot, or NULL *)
  closed : bool;
  recent_end : Z
}.

Definition nchunks (urs : UndoRecordSet) : Z := Z.of_nat (length (chunks urs)).
Definition max_buffers (urs : UndoRecordSet) : Z := Z.of_nat (length (buffers urs)).

(** Calls into the buffer manager, the WAL machinery, the lock manager and
    the undo-log allocator, in the order they are made. *)
Inductive Event : Type :=
  | EvReadBuffer (relNode block : Z) (zero : bool) (buffer : Z)
  | EvPageInit (buffer : Z)
  | EvMarkBufferDirty (buffer : Z)
  | EvLockBuffer (buffer : Z)             (* BUFFER_LOCK_EXCLUSIVE *)
  | EvUnlockBuffer (buffer : Z)           (* BUFFER_LOCK_UNLOCK *)
  | EvReleaseBuffer (buffer : Z)
  | EvXLogRegisterBuffer (block_id buffer flags : Z)
  | EvXLogRegisterBufData (block_id : Z) (data : list Z)
  | EvLWLockAcquire (slot : nat) (exclusive : bool)
  | EvLWLockRelease (slot : nat)
  | EvUndoLogAdjustPhysicalRange (logno new_discard new_end : Z)
  | EvUndoLogMarkFull (slot : nat)
  | EvUndoLogPut (slot : nat)
  | EvPfree (urs : nat).

(** Shared memory ([slots], [free_logs], [pool]), the backend's private
    memory ([heap]: the objects of [UndoRecordSetContext] by address, [None]
    once freed; [UndoRecordSetList]; whether the context and with it the
    exit callback exist), and the calls made so far, latest first. *)
Record World : Type := mkWorld {
  InRecovery : bool;
  slots : list UndoLogSlot;
  free_logs : list nat;
  pool : list BufferDesc;
  heap : list (option UndoRecordSet);
  UndoRecordSetList : list nat;
  UndoRecordSetContext : bool;
  trace : list Event
}.

Definition with_slots (f : list UndoLogSlot -> list UndoLogSlot) (w : World) :=
  mkWorld (InRecovery w) (f (slots w)) (free_logs w) (pool w) (heap w)
    (UndoRecordSetList w) (UndoRecordSetContext w) (trace w).
Definition with_free_logs (f : list nat -> list nat) (w : World) :=
  mkWorld (InRecovery w) (slots w) (f (free_logs w)) (pool w) (heap w)
    (UndoRecordSetList w) (UndoRecordSetContext w) (trace w).
Definition with_pool (f : list BufferDesc -> list BufferDesc) (w : World) :=
  mkWorld (InRecovery w) (slots w) (free_logs w) (f (pool w)) (heap w)
    (UndoRecordSetList w) (UndoRecordSetContext w) (trace w).
Definition with_heap
    (f : list (option UndoRecordSet) -> list (option UndoRecordSet)) (w : World) :=
  mkWorld (InRecovery w) (slots w) (free_logs w) (pool w) (f (heap w))
    (UndoRecordSetList w) (UndoRecordSetContext w) (trace w).
Definition with_list (f : list nat -> list nat) (w : World) :=
  mkWorld (InRecovery w) (slots w) (free_logs w) (pool w) (heap w)
    (f (UndoRecordSetList w)) (UndoRecordSetContext w) (trace w).
Definition with_context (b : bool) (w : World) :=
  mkWorld (InRecovery w) (slots w) (free_logs w) (pool w) (heap w)
    (UndoRecordSetList w) b (trace w).
Definition with_trace (f : list Event -> list Event) (w : World) :=
  mkWorld (InRecovery w) (slots w) (free_logs w) (pool w) (heap w)
    (UndoRecordSetList w) (UndoRecordSetContext w) (f (trace w)).

(** ** The monad of a backend: state and failure *)

Definition M (A : Type) : Type := World -> outcome (A * World).

Definition ret {A} (a : A) : M A := fun w => Done (a, w).
Definition bind {A B} (m : M A) (k : A -> M B) : M B :=
  fun w => match m w with
           | Done (a, w') => k a w'
           | Fail f => Fail f
           end.
Definition fail {A} (f : failure) : M A := fun _ => Fail f.
Definition lift {A} (o : outcome A) : M A :=
  fun w => match o with Done a => Done (a, w) | Fail f => Fail f end.
Definition gets {A} (f : World -> A) : M A := fun w => Done (f w, w).
Definition modify (f : World -> World) : M unit := fun w => Done (tt, f w).
Definition emit (e : Event) : M unit := modify (with_trace (cons e)).
Definition when (b : bool) (m : M unit) : M unit := if b then m else ret tt.

Notation "'let*' x ':=' m 'in' k" := (bind m (fun x => k))
  (at level 10, x pattern, m at level 100, k at level 200) : undo_scope.
Notation "m ';;' k" := (bind m (fun _ => k))
  (at level 100, k at level 200, right associativity) : undo_scope.

(** [for (int i = 0; i < n; ++i) body(i)] *)
Fixpoint for_each {A} (xs : list A) (body : A -> M unit) : M unit :=
  match xs with
  | [] => ret tt
  | x :: xs => body x ;; for_each xs body
  end.

(** ** Memory accesses *)

(** [a[i]] for reading: outside the array, or of a cell that was never
    written, it is undefined. *)
Definition array_read (a : list (option Z)) (i : Z) : M Z :=
  if i <? 0 then fail (Undefined "array read below the array") else
  match a !! Z.to_nat i with
  | Some (Some v) => ret v
  | Some None => fail (Undefined "array read of an uninitialised cell")
  | None => fail (Undefined "array read past the array")
  end.

(** [a[i] = v]: outside the array it overruns the allocation. *)
Definition array_write (a : list (option Z)) (i : Z) (v : Z) : M (list (option Z)) :=
  if (0 <=? i) && (i <? Z.of_nat (length a))
  then ret (<[Z.to_nat i := Some v]> a)
  else fail (Undefined "array write outside the array").

(** [*urs] *)
Definition deref (urs : nat) : M UndoRecordSet :=
  let* h := gets heap in
  match h !! urs with
  | Some (Some r) => ret r
  | _ => fail (Undefined "UndoRecordSet pointer is not live")
  end.

(** [*urs = r] *)
Definition store (urs : nat) (r : UndoRecordSet) : M unit :=
  modify (with_heap (fun h => <[urs := Some r]> h)).

(** [*slot] *)
Definition slot_deref (s : nat) : M UndoLogSlot :=
  let* ss := gets slots in
  match ss !! s with
  | Some v => ret v
  | None => fail (Undefined "UndoLogSlot pointer is not valid")
  end.

Definition slot_store (s : nat) (v : UndoLogSlot) : M unit :=
  modify (with_slots (fun ss => <[s := v]> ss)).

(** [BufferGetPage(buffer)] *)
Definition BufferGetPage (buffer : Z) : M Page :=
  let* p := gets pool in
  if buffer <=? 0 then fail (Undefined "BufferGetPage of an invalid buffer") else
  match p !! Z.to_nat (buffer - 1) with
  | Some d => ret (buf_page d)
  | None => fail (Undefined "BufferGetPage of an invalid buffer")
  end.

(** Writing through the pointer [BufferGetPage(buffer)] gave. *)
Definition set_page (buffer : Z) (pg : Page) : M unit :=
  modify (with_pool (fun p =>
    match p !! Z.to_nat (buffer - 1) with
    | Some d => <[Z.to_nat (buffer - 1) := mkBuf (tag_relNode d) (tag_block d) pg]> p
    | None => p
    end)).

(** [memcpy((char * ) BufferGetPage(buffer) + off, src, |src|)] *)
Definition page_memcpy (buffer : Z) (off : Z) (src : list Z) : M unit :=
  let* pg := BufferGetPage buffer in
  let* img := lift (page_write (image pg) off src) in
  set_page buffer (mkPage img).

(** ** Build-time layout

    [BLCKSZ], [UndoLogBlockHeaderSize] (the page header every undo block
    starts with), the width of the offset part of an [UndoRecPtr] and
    [UndoLogMaxSize] are macros of headers that are not part of the files
    at hand, and so are [UndoDbOid] (the database number that marks a block
    as undo storage) and the values of the enumeration [UndoRecordSetType];
    they are parameters of the development.  [BLCKSZ_max] is the first
    assertion of [write_update_ops_header]; the header of an undo block
    holds the page header. *)
Class Layout : Type := {
  BLCKSZ : Z;
  UndoLogBlockHeaderSize : Z;
  UndoLogOffsetBits : Z;
  UndoLogMaxSize : Z;
  UndoDbOid : Z;
  URST_TRANSACTION : Z;
  URST_FOO : Z;
  urst_distinct : URST_TRANSACTION <> URST_FOO;
  header_pos : 0 < UndoLogBlockHeaderSize;
  header_holds_page_header : SizeOfPageHeaderData <= UndoLogBlockHeaderSize;
  header_lt_block : UndoLogBlockHeaderSize < BLCKSZ;
  BLCKSZ_max : BLCKSZ <= 32768;
  offset_bits_pos : 0 < UndoLogOffsetBits
}.

(** The values of a default PostgreSQL build: 8kB blocks, a 24-byte page
    header, 40 offset bits, one terabyte per undo log; the record-set types
    are numbered by the characters T and F. *)
Program Definition pg_layout : Layout :=
  {| BLCKSZ := 8192;
     UndoLogBlockHeaderSize := 24;
     UndoLogOffsetBits := 40;
     UndoLogMaxSize := 2 ^ 40;
     UndoDbOid := 9;
     URST_TRANSACTION := 84;
     URST_FOO := 70 |}.
Solve All Obligations with (unfold SizeOfPageHeaderData; lia).

Section Model.
Context {L : Layout}.

(** ** Undo pointers

    Modelled from the spec: the macros of undolog.h are missing.  A logical
    pointer names a log and a byte offset in it; it decomposes into (block,
    in-page offset); advancing by [n] usable bytes skips the page header of
    every block it enters. *)
Definition MakeUndoRecPtr (logno offset : Z) : Z :=
  uint64 (Z.lor (Z.shiftl logno UndoLogOffsetBits) offset).
Definition UndoRecPtrGetLogNo (urp : Z) : Z := Z.shiftr urp UndoLogOffsetBits.
Definition UndoRecPtrGetOffset (urp : Z) : Z :=
  Z.land urp (2 ^ UndoLogOffsetBits - 1).
Definition UndoRecPtrGetBlockNum (urp : Z) : Z := UndoRecPtrGetOffset urp / BLCKSZ.
Definition UndoRecPtrGetPageOffset (urp : Z) : Z := UndoRecPtrGetOffset urp mod BLCKSZ.

Definition UndoLogUsableBytesPerPage : Z := BLCKSZ - UndoLogBlockHeaderSize.
Definition UndoLogOffsetToUsableByteNo (offset : Z) : Z :=
  (offset / BLCKSZ) * UndoLogUsableBytesPerPage
  + (offset mod BLCKSZ - UndoLogBlockHeaderSize).
Definition UndoLogOffsetFromUsableByteNo (i : Z) : Z :=
  (i / UndoLogUsableBytesPerPage) * BLCKSZ + UndoLogBlockHeaderSize
  + i mod UndoLogUsableBytesPerPage.
Definition UndoLogOffsetPlusUsableBytes (offset n : Z) : Z :=
  uint64 (UndoLogOffsetFromUsableByteNo
            (uint64 (UndoLogOffsetToUsableByteNo offset + n))).
Definition UndoRecPtrPlusUsableBytes (urp n : Z) : Z :=
  MakeUndoRecPtr (UndoRecPtrGetLogNo urp)
    (UndoLogOffsetPlusUsableBytes (UndoRecPtrGetOffset urp) n).

(** ** Opcode stream: the writer side *)

(** [write_update_ops_header]: the four bytes that open an update entry.
    The parameters are [uint16]; callers pass [int]s, converted here. *)
Definition write_update_ops_header (offset size : Z) : outcome (list Z) :=
  let offset := uint16 offset in
  let size := uint16 size in
  let? _ := Assert (BLCKSZ <=? 32768) "BLCKSZ <= 0x8000" in
  let? _ := Assert (offset <? BLCKSZ) "offset < BLCKSZ" in
  let? _ := Assert (offset + size <=? BLCKSZ) "(offset + size) <= BLCKSZ" in
  let? _ := Assert (UndoLogBlockHeaderSize <=? offset)
              "offset >= UndoLogBlockHeaderSize" in
  Done [ uint8 (Z.lor 128 (Z.shiftr offset 8));
         uint8 (Z.land offset 255);
         uint8 (Z.shiftr size 8);
         uint8 (Z.land size 255) ].

(** An update entry as [UndoMarkClosed] attaches it to a block: the header
    bytes and then the literal bytes. *)
Definition encode_update (offset : Z) (data : list Z) : outcome (list Z) :=
  let? hdr := write_update_ops_header offset (Z.of_nat (length data)) in
  Done (hdr ++ data).

(** An insert entry as [UndoInsert] attaches it: a [uint8] length with the
    high bit clear, and then the literal bytes. *)
Definition encode_insert (data : list Z) : list Z :=
  uint8 (Z.of_nat (length data)) :: data.

(** ** Opcode stream: the update scanner of [UndoUpdateInRecovery]

    [ops] is the part of the stream from the C pointer [ops] up to
    [ops_end], so [ops + k >= ops_end] reads [length ops <= k]. *)
Fixpoint apply_updates_loop (fuel : nat) (ops : list Z) (page : list Z)
  : outcome (list Z) :=
  match fuel with
  | O => Fail Diverges
  | S fuel =>
    match ops with
    | [] => Done page
    | b0 :: _ =>
      let? _ := Assert (negb (b0 =? 0)) "*ops != 0" in
      if Z.land b0 128 =? 0 then
        (* Skip insertions. *)
        apply_updates_loop fuel (drop (Z.to_nat (b0 + 1)) ops) page
      else if (Z.of_nat (length ops) <=? 4) then
        Fail (ElogError "corrupted undo update instruction")
      else
        match ops with
        | o0 :: o1 :: o2 :: o3 :: rest =>
          let offset := uint16 (Z.lor (Z.shiftl (Z.land o0 127) 8) o1) in
          let size := uint16 (Z.lor (Z.shiftl o2 8) o3) in
          if Z.of_nat (length rest) <? size then
            Fail (ElogError "corrupted undo update instruction")
          else
            let? page := page_write page offset (take (Z.to_nat size) rest) in
            apply_updates_loop fuel (drop (Z.to_nat size) rest) page
        | _ => Fail (Undefined "read past ops_end")
        end
    end
  end.

Definition apply_updates (ops : list Z) (page : list Z) : outcome (list Z) :=
  apply_updates_loop (S (length ops)) ops page.

(** ** The buffer manager and the WAL machinery, as this layer uses them *)

Definition zero_page : Page := mkPage (replicate (Z.to_nat BLCKSZ) 0).

(** Modelled from the spec: pin-or-read-page(log, block, zero-or-normal
    mode) of the buffer pool, whose code is missing.  A block already in
    the pool is found by its tag; any other block enters the pool as a page
    of zeroes (the content of an undo block nobody wrote yet). *)
Definition ReadBufferWithoutRelcache (relNode block : Z) (zero : bool) : M Z :=
  let* p := gets pool in
  let* buffer :=
    match list_find (fun d => tag_relNode d = relNode /\ tag_block d = block) p with
    | Some (i, _) => ret (Z.of_nat i + 1)
    | None =>
      modify (with_pool (fun p => p ++ [mkBuf relNode block zero_page])) ;;
      ret (Z.of_nat (length p) + 1)
    end in
  emit (EvReadBuffer relNode block zero buffer) ;;
  ret buffer.

(** [BufferGetTag(buffer, &rnode, &fork, &block)]: (rnode.relNode, block). *)
Definition BufferGetTag (buffer : Z) : M (Z * Z) :=
  let* p := gets pool in
  if buffer <=? 0 then fail (Undefined "BufferGetTag of an invalid buffer") else
  match p !! Z.to_nat (buffer - 1) with
  | Some d => ret (tag_relNode d, tag_block d)
  | None => fail (Undefined "BufferGetTag of an invalid buffer")
  end.

(** Modelled from the spec: PageInit of the shared page-header format,
    whose code is missing: the page becomes zeroes and its cursor steps
    over the page header.  The bytes are those of PostgreSQL's
    [PageInit(page, BLCKSZ, 0)]: [pd_lower] is [SizeOfPageHeaderData],
    [pd_upper] and [pd_special] are the page size, and
    [pd_pagesize_version] is the page size with the layout version 4. *)
Definition PageInit (buffer : Z) : M unit :=
  let* _ := BufferGetPage buffer in
  set_page buffer
    (mkPage (poke (image zero_page) 12
               (le_bytes 2 SizeOfPageHeaderData ++ le_bytes 2 BLCKSZ
                ++ le_bytes 2 BLCKSZ ++ le_bytes 2 (Z.lor BLCKSZ 4)))) ;;
  emit (EvPageInit buffer).

(** [PageSetLSN(BufferGetPage(buffer), lsn)] *)
Definition PageSetLSN (buffer : Z) (lsn : Z) : M unit :=
  let* pg := BufferGetPage buffer in
  set_page buffer (store_pd_lsn lsn pg).

(** [((PageHeader) BufferGetPage(buffer))->pd_lower = v] *)
Definition set_pd_lower (buffer : Z) (v : Z) : M unit :=
  let* pg := BufferGetPage buffer in
  set_page buffer (store_pd_lower (uint16 v) pg).

(** xloginsert.h and xlogrecord.h are missing; these are the values of
    PostgreSQL's flags. *)
Definition REGBUF_WILL_INIT : Z := 6.
Definition BKPBLOCK_WILL_INIT : Z := 64.

(** [XLogRegisterBuffer(block_id, buffer, flags)]; [block_id] is a [uint8]. *)
Definition XLogRegisterBuffer (block_id buffer flags : Z) : M unit :=
  emit (EvXLogRegisterBuffer (uint8 block_id) buffer flags).

(** [XLogRegisterBufData(block_id, data, len)].  The bytes are recorded as
    they are when the call is made. *)
Definition XLogRegisterBufData (block_id : Z) (data : list Z) : M unit :=
  emit (EvXLogRegisterBufData (uint8 block_id) data).

(** ** The insertion engine *)

Record UndoInsertState : Type := mkState {
  st_buffers : list (option Z);
  st_first_block_id : Z;
  last_buffer_index : Z;
  buffer_index : Z;
  st_insert : Z
}.

Definition begin_append (buffers : list (option Z)) (first_block_id : Z)
    (urp : Z) : UndoInsertState :=
  mkState buffers (uint8 first_block_id) (-1) 0 urp.

(** The loop of [append_bytes]; [size] is what is left to write.  The
    loop does not advance [data]: every pass copies from the start of
    [data], as the source does. *)
Fixpoint append_bytes_loop (fuel : nat) (state : UndoInsertState) (data : list Z)
    (size : Z) {struct fuel} : M UndoInsertState :=
  if size <=? 0 then ret state else
  match fuel with
  | O => fail Diverges
  | S fuel =>
    let* buffer := array_read (st_buffers state) (buffer_index state) in
    let* _ := BufferGetPage buffer in
    let offset := UndoRecPtrGetPageOffset (st_insert state) in
    let bytes_on_this_page := Z.min (BLCKSZ - offset) size in
    let* state :=
      if negb (last_buffer_index state =? buffer_index state) then
        let flags :=
          if offset =? UndoLogBlockHeaderSize then REGBUF_WILL_INIT else 0 in
        emit (EvMarkBufferDirty buffer) ;;
        let* in_recovery := gets InRecovery in
        when (negb in_recovery)
          (XLogRegisterBuffer (st_first_block_id state + buffer_index state)
             buffer flags) ;;
        ret (mkState (st_buffers state) (st_first_block_id state)
               (buffer_index state) (buffer_index state) (st_insert state))
      else ret state in
    (* We store the insertion point in pd_lower. *)
    set_pd_lower buffer offset ;;
    page_memcpy buffer offset (take (Z.to_nat bytes_on_this_page) data) ;;
    let size := size - bytes_on_this_page in
    let offset := offset + bytes_on_this_page in
    let insert := uint64 (st_insert state + bytes_on_this_page) in
    let state :=
      if offset =? BLCKSZ then
        mkState (st_buffers state) (st_first_block_id state)
          (last_buffer_index state) (buffer_index state + 1)
          (uint64 (insert + UndoLogBlockHeaderSize))
      else
        mkState (st_buffers state) (st_first_block_id state)
          (last_buffer_index state) (buffer_index state) insert in
    append_bytes_loop fuel state data size
  end.

(** [append_bytes(&state, data, size)]; [size] is the length of [data].
    Every pass of the loop writes at least one byte, so [size] passes are
    enough. *)
Definition append_bytes (state : UndoInsertState) (data : list Z)
    : M UndoInsertState :=
  append_bytes_loop (length data) state data (Z.of_nat (length data)).

(** ** The undo-log allocator, as this layer uses it *)

(** Modelled from the spec: acquire-a-log-for-persistence-class of the
    backing-log allocator, whose code is missing.  [free_logs] lists the
    logs the allocator can hand out, in order; the first one of the
    requested class that is not full is taken off the list. *)
Definition usable_log (ss : list UndoLogSlot) (persistence : Z) (s : nat) : bool :=
  match ss !! s with
  | Some v => (slot_persistence v =? persistence) && negb (slot_full v)
  | None => false
  end.

Definition UndoLogGetForPersistence (persistence : Z) : M nat :=
  let* ss := gets slots in
  let* fl := gets free_logs in
  match list_find (fun s => usable_log ss persistence s = true) fl with
  | Some (i, s) => modify (with_free_logs (fun fl => take i fl ++ drop (S i) fl)) ;; ret s
  | None => fail (ElogError "no undo log available")
  end.

(** Modelled from the spec: return-log-to-free-list. *)
Definition UndoLogPut (s : nat) : M unit :=
  emit (EvUndoLogPut s) ;;
  modify (with_free_logs (cons s)).

(** Modelled from the spec: mark-log-full. *)
Definition UndoLogMarkFull (s : nat) : M unit :=
  let* v := slot_deref s in
  emit (EvUndoLogMarkFull s) ;;
  slot_store s (mkSlot (logno v) (meta_insert v) (slot_end v) (slot_persistence v) true).

(** Modelled from the spec: extend-a-log's-physical-range; the end of the
    log with this number moves up to [new_end] unless it is already there. *)
Definition raise_end (log new_end : Z) (v : UndoLogSlot) : UndoLogSlot :=
  if logno v =? log
  then mkSlot (logno v) (meta_insert v) (Z.max (slot_end v) new_end)
         (slot_persistence v) (slot_full v)
  else v.

Definition UndoLogAdjustPhysicalRange (log new_discard new_end : Z) : M unit :=
  emit (EvUndoLogAdjustPhysicalRange log new_discard new_end) ;;
  modify (with_slots (map (raise_end log new_end))).

(** Modelled from the spec: the slot of the log with this number;
    [UndoLogGetSlot(logno, false)] fails when there is none. *)
Definition UndoLogGetSlot (log : Z) : M nat :=
  let* ss := gets slots in
  match list_find (fun v => logno v = log) ss with
  | Some (i, _) => ret i
  | None => fail (ElogError "unknown undo log")
  end.

(** ** Record sets *)

(** [sizeof(UndoRecordSetChunkHeader)]: two [uint64] and an enumeration,
    24 bytes with the padding of the usual 64-bit ABI. *)
Definition UndoRecordSetChunkHeaderSize : Z := 24.
Definition sizeof_UndoLogOffset : Z := 8.

(** The bytes of a chunk header in memory (little-endian). *)
Definition chunk_header_bytes (h : UndoRecordSetChunkHeader) : list Z :=
  le_bytes 8 (ch_size h) ++ le_bytes 8 (ch_previous_chunk h)
  ++ le_bytes 4 (ch_type h) ++ [0; 0; 0; 0].

Definition urst_header_size (type : Z) : outcome Z :=
  if type =? URST_TRANSACTION then Done 42
  else if type =? URST_FOO then Done 8
  else Fail (ElogError "unknown UndoRecordSetType").

(** [urst_header(urs, data)]: its switch has the default case only. *)
Definition urst_header (urs : UndoRecordSet) (data : list Z) : list Z := data.

Definition set_chunks (v : list UndoRecordSetChunk) (r : UndoRecordSet) :=
  mkURS (urs_type r) (persistence r) v (max_chunks r) (first_block_id r)
    (buffers r) (nbuffers r) (previous_chunk r) (need_chunk_header r)
    (need_type_header r) (chunk_header r) (type_header r) (type_header_size r)
    (slot r) (closed r) (recent_end r).
Definition set_max_chunks (v : Z) (r : UndoRecordSet) :=
  mkURS (urs_type r) (persistence r) (chunks r) v (first_block_id r)
    (buffers r) (nbuffers r) (previous_chunk r) (need_chunk_header r)
    (need_type_header r) (chunk_header r) (type_header r) (type_header_size r)
    (slot r) (closed r) (recent_end r).
Definition set_buffers (v : list (option Z)) (r : UndoRecordSet) :=
  mkURS (urs_type r) (persistence r) (chunks r) (max_chunks r) (first_block_id r)
    v (nbuffers r) (previous_chunk r) (need_chunk_header r)
    (need_type_header r) (chunk_header r) (type_header r) (type_header_size r)
    (slot r) (closed r) (recent_end r).
Definition set_nbuffers (v : Z) (r : UndoRecordSet) :=
  mkURS (urs_type r) (persistence r) (chunks r) (max_chunks r) (first_block_id r)
    (buffers r) v (previous_chunk r) (need_chunk_header r)
    (need_type_header r) (chunk_header r) (type_header r) (type_header_size r)
    (slot r) (closed r) (recent_end r).
Definition set_need_chunk_header (v : bool) (r : UndoRecordSet) :=
  mkURS (urs_type r) (persistence r) (chunks r) (max_chunks r) (first_block_id r)
    (buffers r) (nbuffers r) (previous_chunk r) v
    (need_type_header r) (chunk_header r) (type_header r) (type_header_size r)
    (slot r) (closed r) (recent_end r).
Definition set_need_type_header (v : bool) (r : UndoRecordSet) :=
  mkURS (urs_type r) (persistence r) (chunks r) (max_chunks r) (first_block_id r)
    (buffers r) (nbuffers r) (previous_chunk r) (need_chunk_header r)
    v (chunk_header r) (type_header r) (type_header_size r)
    (slot r) (closed r) (recent_end r).
Definition set_chunk_header (v : UndoRecordSetChunkHeader) (r : UndoRecordSet) :=
  mkURS (urs_type r) (persistence r) (chunks r) (max_chunks r) (first_block_id r)
    (buffers r) (nbuffers r) (previous_chunk r) (need_chunk_header r)
    (need_type_header r) v (type_header r) (type_header_size r)
    (slot r) (closed r) (recent_end r).
Definition set_type_header (v : list Z) (r : UndoRecordSet) :=
  mkURS (urs_type r) (persistence r) (chunks r) (max_chunks r) (first_block_id r)
    (buffers r) (nbuffers r) (previous_chunk r) (need_chunk_header r)
    (need_type_header r) (chunk_header r) v (type_header_size r)
    (slot r) (closed r) (recent_end r).
Definition set_slot (v : option nat) (r : UndoRecordSet) :=
  mkURS (urs_type r) (persistence r) (chunks r) (max_chunks r) (first_block_id r)
    (buffers r) (nbuffers r) (previous_chunk r) (need_chunk_header r)
    (need_type_header r) (chunk_header r) (type_header r) (type_header_size r)
    v (closed r) (recent_end r).
Definition set_closed (v : bool) (r : UndoRecordSet) :=
  mkURS (urs_type r) (persistence r) (chunks r) (max_chunks r) (first_block_id r)
    (buffers r) (nbuffers r) (previous_chunk r) (need_chunk_header r)
    (need_type_header r) (chunk_header r) (type_header r) (type_header_size r)
    (slot r) v (recent_end r).
Definition set_recent_end (v : Z) (r : UndoRecordSet) :=
  mkURS (urs_type r) (persistence r) (chunks r) (max_chunks r) (first_block_id r)
    (buffers r) (nbuffers r) (previous_chunk r) (need_chunk_header r)
    (need_type_header r) (chunk_header r) (type_header r) (type_header_size r)
    (slot r) (closed r) v.

(** [UndoCreate].  The context is created, and the exit callback
    registered with it, by the first call. *)
Definition UndoCreate (type persistence : Z) : M nat :=
  let* ctx := gets UndoRecordSetContext in
  when (negb ctx) (modify (with_context true)) ;;
  let* h := gets heap in
  let urs := length h in
  let* ths := lift (urst_header_size type) in
  let r := mkURS type persistence [] 1 0 [None] 0 0 false true
             (mkChunkHeader 0 0 0) (replicate 64 0) (uint8 ths) None false 0 in
  modify (with_heap (fun h => h ++ [Some r])) ;;
  lift (Assert (type_header_size r <=? 64)
          "urs->type_header_size <= sizeof(urs->type_header)") ;;
  modify (with_list (cons urs)) ;;
  ret urs.

(** [reserve_buffer_array]: the array grows to [capacity] cells and keeps
    what it holds. *)
Definition reserve_buffer_array (urs : nat) (capacity : Z) : M unit :=
  let* r := deref urs in
  when (max_buffers r <? capacity)
    (store urs (set_buffers
       (buffers r ++ replicate (Z.to_nat capacity - length (buffers r)) None) r)).

(** The search loop of [find_or_read_buffer], from index [i], [n] cells to go. *)
Fixpoint find_buffer_loop (bufs : list (option Z)) (log block : Z) (i : Z) (n : nat)
    : M (option Z) :=
  match n with
  | O => ret None
  | S n =>
    let* buffer := array_read bufs i in
    let* (rel, blk) := BufferGetTag buffer in
    if (rel =? log) && (blk =? block) then ret (Some i)
    else find_buffer_loop bufs log block (i + 1) n
  end.

Definition find_or_read_buffer (urs : nat) (log block : Z) : M Z :=
  let* r := deref urs in
  let* found := find_buffer_loop (buffers r) log block 0 (Z.to_nat (nbuffers r)) in
  match found with
  | Some i => ret i
  | None =>
    (* Pin it and lock it. *)
    reserve_buffer_array urs (nbuffers r + 1) ;;
    let* buffer := ReadBufferWithoutRelcache log block false in
    let* r := deref urs in
    let* bufs := array_write (buffers r) (nbuffers r) buffer in
    emit (EvLockBuffer buffer) ;;
    store urs (set_nbuffers (nbuffers r + 1) (set_buffers bufs r)) ;;
    ret (nbuffers r)
  end.

(** Positions of a list, for loops over an array in use. *)
Definition indices {A} (l : list A) : list nat := seq 0 (length l).

Definition set_chunk (urs : nat) (i : nat) (c : UndoRecordSetChunk) : M unit :=
  let* r := deref urs in
  store urs (set_chunks (<[i := c]> (chunks r)) r).

Definition get_chunk (urs : nat) (i : nat) : M UndoRecordSetChunk :=
  let* r := deref urs in
  match chunks r !! i with
  | Some c => ret c
  | None => fail (Undefined "chunk index outside chunks[]")
  end.

Definition UndoPrepareToMarkClosed (urs : nat) : M unit :=
  let* r := deref urs in
  for_each (indices (chunks r)) (fun i =>
    let* chunk := get_chunk urs i in
    let header := chunk_header_offset chunk in
    let header_block := header / BLCKSZ in
    let header_offset := header mod BLCKSZ in
    let* sl := slot_deref (chunk_slot chunk) in
    let* i0 := find_or_read_buffer urs (logno sl) header_block in
    let* i1 :=
      if header_offset <=? BLCKSZ - sizeof_UndoLogOffset then ret (-1)
      else find_or_read_buffer urs (logno sl) (header_block + 1) in
    set_chunk urs i
      (mkChunk (chunk_slot chunk) (chunk_header_offset chunk) (i0, i1)
         (chunk_header_ops chunk))).

(** The body of the loop of [UndoMarkClosed], for chunk [i]. *)
Definition mark_chunk_closed (urs : nat) (i : nat) : M unit :=
  let* r := deref urs in
  let* chunk := get_chunk urs i in
  let header := chunk_header_offset chunk in
  let* sl := slot_deref (chunk_slot chunk) in
  let insert := meta_insert sl in
  let size := uint64 (insert - header) in
  let header_offset := header mod BLCKSZ in
  let bytes_on_first_page := Z.min (BLCKSZ - header_offset) sizeof_UndoLogOffset in
  (* Put as many bytes as we can on the first page. *)
  let buffer_index := fst (chunk_header_buffer_index chunk) in
  let* buffer := array_read (buffers r) buffer_index in
  emit (EvMarkBufferDirty buffer) ;;
  page_memcpy buffer header_offset
    (take (Z.to_nat bytes_on_first_page) (le_bytes 8 size)) ;;
  (* Capture this edit as buffer data. *)
  XLogRegisterBuffer (first_block_id r + buffer_index) buffer 0 ;;
  let* ops0 := lift (write_update_ops_header header_offset bytes_on_first_page) in
  set_chunk urs i
    (mkChunk (chunk_slot chunk) (chunk_header_offset chunk)
       (chunk_header_buffer_index chunk) (ops0, snd (chunk_header_ops chunk))) ;;
  XLogRegisterBufData (first_block_id r + buffer_index) ops0 ;;
  let* pg := BufferGetPage buffer in
  XLogRegisterBufData (first_block_id r + buffer_index)
    (page_read (image pg) header_offset (Z.to_nat bytes_on_first_page)) ;;
  (* We might need to spill onto the next page. *)
  when (bytes_on_first_page <? sizeof_UndoLogOffset) (
    let buffer_index := snd (chunk_header_buffer_index chunk) in
    let* buffer := array_read (buffers r) buffer_index in
    emit (EvMarkBufferDirty buffer) ;;
    page_memcpy buffer 0
      (drop (Z.to_nat bytes_on_first_page) (le_bytes 8 size)) ;;
    (* Capture this edit as buffer data. *)
    XLogRegisterBuffer (first_block_id r + buffer) buffer 0 ;;
    let* ops1 := lift (write_update_ops_header header_offset bytes_on_first_page) in
    set_chunk urs i
      (mkChunk (chunk_slot chunk) (chunk_header_offset chunk)
         (chunk_header_buffer_index chunk) (ops0, ops1)) ;;
    XLogRegisterBufData (first_block_id r + buffer_index) ops1 ;;
    let* pg := BufferGetPage buffer in
    XLogRegisterBufData (first_block_id r + buffer_index)
      (page_read (image pg) header_offset (Z.to_nat bytes_on_first_page))).

Definition UndoMarkClosed (urs : nat) : M unit :=
  let* r := deref urs in
  for_each (indices (chunks r)) (mark_chunk_closed urs) ;;
  let* r := deref urs in
  store urs (set_closed true r).

(** The first half of the body of the [for (;;)] of
    [reserve_physical_undo], the block under [if (urs->slot)]: [Some p]
    when it returns [p], [None] when control leaves the block (or there
    is no active log). *)
Definition try_active_log (urs : nat) (data_size : Z) : M (option Z) :=
  let* r := deref urs in
  match slot r with
  | Some s =>
    (* Try to use the active undo log, if there is one. *)
    lift (Assert (1 <=? nchunks r) "urs->nchunks >= 1") ;;
    let chunk_header_size :=
      if need_chunk_header r then UndoRecordSetChunkHeaderSize else 0 in
    let* type_header_size :=
      if need_type_header r then lift (urst_header_size (urs_type r))
      else ret 0 in
    let total_size := uint64 (data_size + chunk_header_size + type_header_size) in
    let* sl := slot_deref s in
    let new_insert := UndoLogOffsetPlusUsableBytes (meta_insert sl) total_size in
    (* The fast case: we already know there is enough space. *)
    if new_insert <=? recent_end r then
      ret (Some (MakeUndoRecPtr (logno sl) (meta_insert sl)))
    else
      emit (EvLWLockAcquire s false) ;;
      store urs (set_recent_end (slot_end sl) r) ;;
      emit (EvLWLockRelease s) ;;
      if new_insert <=? slot_end sl then
        ret (Some (MakeUndoRecPtr (logno sl) (meta_insert sl)))
      else if new_insert <=? UndoLogMaxSize then
        UndoLogAdjustPhysicalRange (logno sl) 0 new_insert ;;
        ret (Some (MakeUndoRecPtr (logno sl) (meta_insert sl)))
      else
        (* Mark it full, so that we stop trying to allocate new space here. *)
        UndoLogMarkFull s ;;
        let* r := deref urs in
        store urs (set_slot None r) ;;
        ret None
  | None => ret None
  end.

(** The second half of the body: book-keeping for one more chunk, on a
    new undo log. *)
Definition start_new_chunk (urs : nat) : M unit :=
  let* r := deref urs in
  (* Make sure there is book-keeping space for one more chunk. *)
  let r := if nchunks r =? max_chunks r
           then set_max_chunks (max_chunks r * 2) r else r in
  (* Get our hands on a new undo log, and go around again. *)
  let r := set_recent_end 0 (set_need_chunk_header true r) in
  let* s := UndoLogGetForPersistence (persistence r) in
  let* sl := slot_deref s in
  store urs
    (set_chunks (chunks r ++ [mkChunk s (meta_insert sl) (-1, -1) ([], [])])
       (set_slot (Some s) r)).

(** One pass through the body of the [for (;;)]: [Some p] when the pass
    returns [p], [None] when it reaches the end of the body and the loop
    goes around again. *)
Definition reserve_pass (urs : nat) (data_size : Z) : M (option Z) :=
  let* returned := try_active_log urs data_size in
  match returned with
  | Some p => ret (Some p)
  | None => start_new_chunk urs ;; ret None
  end.

Fixpoint reserve_physical_undo (fuel : nat) (urs : nat) (data_size : Z) : M Z :=
  match fuel with
  | O => fail Diverges
  | S fuel =>
    let* p := reserve_pass urs data_size in
    match p with
    | Some p => ret p
    | None => reserve_physical_undo fuel urs data_size
    end
  end.

(** The pinning loop of [UndoAllocate].  [urp] is not advanced by the
    loop, as in the source. *)
Fixpoint pin_loop (fuel : nat) (urs : nat) (relNode urp total_size : Z) : M unit :=
  if total_size <=? 0 then ret tt else
  match fuel with
  | O => fail Diverges
  | S fuel =>
    let block := UndoRecPtrGetBlockNum urp in
    let offset := UndoRecPtrGetPageOffset urp in
    let zero := offset =? UndoLogBlockHeaderSize in
    (* Get a buffer. *)
    let* buffer := ReadBufferWithoutRelcache relNode block zero in
    let* r := deref urs in
    let* bufs := array_write (buffers r) (nbuffers r) buffer in
    store urs (set_nbuffers (nbuffers r + 1) (set_buffers bufs r)) ;;
    when zero (PageInit buffer) ;;
    (* How much to go? *)
    let bytes_on_this_page := Z.min (BLCKSZ - offset) total_size in
    pin_loop fuel urs relNode urp (total_size - bytes_on_this_page)
  end.

(** [UndoAllocate]; [fuel] bounds the passes of [reserve_physical_undo].
    Every pass of the pinning loop fills one more cell of the buffer
    array, so one pass more than the array has cells is enough for it. *)
Definition UndoAllocate (fuel : nat) (urs : nat) (data_size : Z) : M Z :=
  let* begin := reserve_physical_undo fuel urs data_size in
  (* Figure out the total range we need to pin. *)
  let* r := deref urs in
  let chunk_header_size :=
    if need_chunk_header r then UndoRecordSetChunkHeaderSize else 0 in
  let* type_header_size :=
    if need_type_header r then lift (urst_header_size (urs_type r)) else ret 0 in
  let total_size := uint64 (data_size + chunk_header_size + type_header_size) in
  (* Make sure our buffer array is large enough. *)
  reserve_buffer_array urs (total_size / BLCKSZ + 2) ;;
  (* We'd better not have any pinned already. *)
  let* r := deref urs in
  lift (Assert (nbuffers r =? 0) "urs->nbuffers == 0") ;;
  (* Figure out which undo log we're in. *)
  let urp := begin in
  let relNode := UndoRecPtrGetLogNo urp in
  (* Loop, pinning buffers. *)
  pin_loop (S (length (buffers r))) urs relNode urp total_size ;;
  (* Now loop to obtain the content locks. *)
  let* r := deref urs in
  for_each (seq 0 (Z.to_nat (nbuffers r))) (fun i =>
    let* buffer := array_read (buffers r) (Z.of_nat i) in
    emit (EvLockBuffer buffer)) ;;
  (* Return the URP for the first byte of the caller's data. *)
  ret (UndoRecPtrPlusUsableBytes begin
         (uint64 (chunk_header_size + type_header_size))).

(** [UndoInsert(urs, first_block_id, data, data_size)]; [data_size] is the
    length of [data]. *)
Definition UndoInsert (urs : nat) (first_block_id : Z) (data : list Z) : M unit :=
  let* in_recovery := gets InRecovery in
  lift (Assert (negb in_recovery) "!InRecovery") ;;
  let* r := deref urs in
  let* s := match slot r with
            | Some s => ret s
            | None => fail (Undefined "urs->slot is NULL")
            end in
  let* sl := slot_deref s in
  let state := begin_append (buffers r) first_block_id (meta_insert sl) in
  (* Do we need to write a chunk header? *)
  let* state :=
    if need_chunk_header r then
      let hdr := mkChunkHeader 0 (previous_chunk r) (urs_type r) in
      let* r' := deref urs in
      store urs (set_chunk_header hdr r') ;;
      (* Append it to the undo log. *)
      let* state := append_bytes state (chunk_header_bytes hdr) in
      (* Also attach it verbatim to the first buffer in the WAL record. *)
      XLogRegisterBufData first_block_id [uint8 UndoRecordSetChunkHeaderSize] ;;
      XLogRegisterBufData first_block_id (chunk_header_bytes hdr) ;;
      ret state
    else ret state in
  (* Do we need to write a type header? *)
  let* state :=
    if need_type_header r then
      let n := Z.to_nat (type_header_size r) in
      let th := urst_header r (replicate n 0 ++ drop n (type_header r)) in
      let* r' := deref urs in
      store urs (set_type_header th r') ;;
      let* state := append_bytes state (take n th) in
      XLogRegisterBufData first_block_id [type_header_size r] ;;
      XLogRegisterBufData first_block_id (take n th) ;;
      ret state
    else ret state in
  (* Finally, write the caller's data. *)
  let* state := append_bytes state data in
  (* Advance the insert pointer in shared memory. *)
  emit (EvLWLockAcquire s true) ;;
  let* sl := slot_deref s in
  slot_store s (mkSlot (logno sl) (st_insert state) (slot_end sl)
                  (slot_persistence sl) (slot_full sl)) ;;
  emit (EvLWLockRelease s) ;;
  (* We won't need headers for future allocations, until we eventually
     spill into another chunk and need a new chunk header. *)
  let* r' := deref urs in
  store urs (set_need_type_header false (set_need_chunk_header false r')).

Definition UndoRelease (urs : nat) : M unit :=
  let* r := deref urs in
  for_each (seq 0 (Z.to_nat (nbuffers r))) (fun i =>
    let* buffer := array_read (buffers r) (Z.of_nat i) in
    emit (EvUnlockBuffer buffer) ;;
    emit (EvReleaseBuffer buffer)) ;;
  store urs (set_nbuffers 0 r) ;;
  when (closed r) (
    (* Return undo logs to appropriate free lists. *)
    for_each (chunks r) (fun c => UndoLogPut (chunk_slot c)) ;;
    (* Remove from list of all known record sets. *)
    modify (with_list (filter (fun u => u <> urs))) ;;
    (* Free memory. *)
    modify (with_heap (fun h => <[urs := None]> h)) ;;
    emit (EvPfree urs)).

(** [UndoPageSetLSN(urs, lsn)] *)
Definition UndoPageSetLSN (urs : nat) (lsn : Z) : M unit :=
  let* r := deref urs in
  for_each (seq 0 (Z.to_nat (nbuffers r))) (fun i =>
    let* buffer := array_read (buffers r) (Z.of_nat i) in
    PageSetLSN buffer lsn).

Definition AtProcExit_UndoRecordSet : M unit :=
  let* l := gets UndoRecordSetList in
  match l with
  | [] => ret tt
  | _ :: _ => fail (ElogPanic "undo record set not closed before backend exit")
  end.

(** Process exit runs the callbacks registered with [on_shmem_exit];
    [UndoCreate] registers this one when it creates the context. *)
Definition shmem_exit : M unit :=
  let* ctx := gets UndoRecordSetContext in
  when ctx AtProcExit_UndoRecordSet.

(** ** Recovery *)

Inductive XLogRedoAction : Type :=
  | BLK_NEEDS_REDO
  | BLK_DONE
  | BLK_RESTORED
  | BLK_NOTFOUND.

(** A block reference of a decoded WAL record.  [bkp_data] is what
    [XLogRecGetBlockData] gives ([None] for [NULL]).  [redo_action] is
    what [XLogReadBufferForRedoExtended] will report for the block, which
    depends on storage and on the page's LSN; [bkp_image] is the full-page
    image it restores when it reports [BLK_RESTORED]. *)
Record DecodedBkpBlock : Type := mkBlock {
  in_use : bool;
  rnode_dbNode : Z;
  rnode_relNode : Z;
  blkno : Z;
  bkp_flags : Z;
  bkp_data : option (list Z);
  redo_action : XLogRedoAction;
  bkp_image : Page
}.

(** [blocks] holds [blocks[0 .. max_block_id]]. *)
Record XLogReaderState : Type := mkRecord {
  ReadRecPtr : Z;
  blocks : list DecodedBkpBlock
}.

(** Modelled from the spec: read-buffer-for-redo (with zero/normal mode)
    and report the decoded redo action (needs-redo / already-applied /
    block-not-found), of the WAL reader, whose code is missing.  A block
    that is not found gives no buffer; a restored block holds its image. *)
Definition XLogReadBufferForRedoExtended (block : DecodedBkpBlock) (zero : bool)
    : M (XLogRedoAction * Z) :=
  match redo_action block with
  | BLK_NOTFOUND => ret (BLK_NOTFOUND, 0)
  | BLK_RESTORED =>
    let* buffer := ReadBufferWithoutRelcache (rnode_relNode block) (blkno block) false in
    set_page buffer (bkp_image block) ;;
    emit (EvLockBuffer buffer) ;;
    ret (BLK_RESTORED, buffer)
  | action =>
    let* buffer := ReadBufferWithoutRelcache (rnode_relNode block) (blkno block) zero in
    emit (EvLockBuffer buffer) ;;
    ret (action, buffer)
  end.

Definition is_undo_block (block : DecodedBkpBlock) : bool :=
  in_use block && (rnode_dbNode block =? UndoDbOid).

Definition UndoUpdateInRecovery (xlog_record : XLogReaderState) : M unit :=
  (* Read and lock all referenced undo log buffers. *)
  for_each (blocks xlog_record) (fun block =>
    when (is_undo_block block) (
      let* (action, buffer) := XLogReadBufferForRedoExtended block false in
      when (match action with BLK_NEEDS_REDO => true | _ => false end) (
        let ops := default [] (bkp_data block) in
        (* Apply all updates to this page. *)
        let* pg := BufferGetPage buffer in
        let* img := lift (apply_updates ops (image pg)) in
        set_page buffer (mkPage img) ;;
        PageSetLSN buffer (ReadRecPtr xlog_record)) ;;
      emit (EvUnlockBuffer buffer) ;;
      emit (EvReleaseBuffer buffer))).

(** The locals of [UndoInsertInRecovery] that its first loop sets.  [ops]
    and [slot] are declared without an initialiser: [None] until they are
    assigned, and then [ops] is [Some None] for [NULL]. *)
Record InsertLocals : Type := mkLocals {
  loc_ops : option (option (list Z));
  loc_slot : option nat;
  loc_buffers : list (option Z);
  loc_nbuffers : Z;
  loc_skip : bool
}.

(** Reading the local [slot]. *)
Definition local_slot (l : InsertLocals) : M nat :=
  match loc_slot l with
  | Some s => ret s
  | None => fail (Undefined "slot is used uninitialised")
  end.

(** The body of the first loop of [UndoInsertInRecovery], for one block. *)
Definition read_block (block : DecodedBkpBlock) (l : InsertLocals) : M InsertLocals :=
  if negb (is_undo_block block) then ret l else
  (* Figure out which undo log is referenced. *)
  let* s :=
    if loc_nbuffers l =? 0 then UndoLogGetSlot (rnode_relNode block)
    else
      let* s := local_slot l in
      let* sl := slot_deref s in
      lift (Assert (logno sl =? rnode_relNode block)
              "slot->logno == block->rnode.relNode") ;;
      ret s in
  (* Check if we need to extend the physical range to cover this block. *)
  let past_this_block := uint32 ((blkno block + 1) * BLCKSZ) in
  let* sl := slot_deref s in
  when (slot_end sl <? past_this_block)
    (UndoLogAdjustPhysicalRange (logno sl) 0 past_this_block) ;;
  let zero := negb (Z.land (bkp_flags block) BKPBLOCK_WILL_INIT =? 0) in
  (* Read the buffer. *)
  let* (action, buffer) := XLogReadBufferForRedoExtended block zero in
  let* bufs := array_write (loc_buffers l) (loc_nbuffers l) buffer in
  let restored := match action with BLK_RESTORED => true | _ => false end in
  (if restored && (loc_nbuffers l =? 0) then
     (* Use the page header to resynchronize the insert location. *)
     let* pg := BufferGetPage buffer in
     (* Step over page header. *)
     when (pd_lower pg =? 0) (set_pd_lower buffer UndoLogBlockHeaderSize) ;;
     let* pg := BufferGetPage buffer in
     let* sl := slot_deref s in
     slot_store s (mkSlot (logno sl) (uint32 (BLCKSZ * blkno block + pd_lower pg))
                     (slot_end sl) (slot_persistence sl) (slot_full sl))
   else if loc_nbuffers l =? 0 then
     let* sl := slot_deref s in
     lift (Assert (UndoRecPtrGetBlockNum (meta_insert sl) =? blkno block)
             "UndoRecPtrGetBlockNum(slot->meta.insert) == block->blkno")
   else ret tt) ;;
  let skip :=
    match action with BLK_NOTFOUND => true | _ => loc_skip l end in
  when zero (PageInit buffer) ;;
  (* There may be a chunk header and a type header attached to the first
     block. *)
  let ops := if loc_nbuffers l =? 0 then Some (bkp_data block) else loc_ops l in
  ret (mkLocals ops (Some s) bufs (loc_nbuffers l + 1) skip).

Fixpoint read_blocks (bs : list DecodedBkpBlock) (l : InsertLocals) : M InsertLocals :=
  match bs with
  | [] => ret l
  | b :: bs => let* l := read_block b l in read_blocks bs l
  end.

(** [append_bytes(&state, data, size)] on the local [state] of
    [UndoInsertInRecovery], which is [None] as long as [begin_append] has
    not set it.  With [size] zero the call does not touch [state]. *)
Definition append_bytes_local (state : option UndoInsertState) (data : list Z)
    : M (option UndoInsertState) :=
  match data with
  | [] => ret state
  | _ :: _ =>
    match state with
    | Some st => let* st := append_bytes st data in ret (Some st)
    | None => fail (Undefined "state is used uninitialised")
    end
  end.

(** The insert scanner: the [while] loop over the block data of the first
    block.  [ops] is the stream from the C pointer [ops] to [ops_end]. *)
Fixpoint insert_ops_loop (fuel : nat) (ops : list Z)
    (state : option UndoInsertState) (header_size : Z)
    : M (option UndoInsertState * Z) :=
  match fuel with
  | O => fail Diverges
  | S fuel =>
    match ops with
    | [] => ret (state, header_size)
    | b0 :: rest =>
      if negb (b0 <? 128) then ret (state, header_size) else
      let length_ := b0 in
      if Z.of_nat (length rest) <? length_ then
        fail (ElogError "undo insert data corrupted")
      else
        let* state := append_bytes_local state (take (Z.to_nat length_) rest) in
        insert_ops_loop fuel (drop (Z.to_nat length_) rest) state
          (uint64 (header_size + length_))
    end
  end.

(** [UndoInsertInRecovery(xlog_record, data, data_size)]; [data_size] is
    the length of [data]. *)
Definition UndoInsertInRecovery (xlog_record : XLogReaderState) (data : list Z)
    : M Z :=
  let* in_recovery := gets InRecovery in
  lift (Assert in_recovery "InRecovery") ;;
  (* Make an array big enough to hold all registered blocks. *)
  let buffers := replicate (length (blocks xlog_record)) None in
  (* Read and lock all referenced undo log buffers. *)
  let* l := read_blocks (blocks xlog_record) (mkLocals None None buffers 0 false) in
  (* Append the data. *)
  let* state :=
    if negb (loc_skip l) then
      let* s := local_slot l in
      let* sl := slot_deref s in
      ret (Some (begin_append (loc_buffers l) (-1)
                   (MakeUndoRecPtr (logno sl) (meta_insert sl))))
    else ret None in
  (* Were any insertions recorded for this buffer? *)
  let* header_size :=
    match loc_ops l with
    | None => fail (Undefined "ops is used uninitialised")
    | Some None => ret 0
    | Some (Some ops) =>
      let* (state, header_size) := insert_ops_loop (S (length ops)) ops state 0 in
      (if negb (loc_skip l) then
         let* _ := append_bytes_local state data in ret tt
       else ret tt) ;;
      ret header_size
    end in
  (* Update the page LSNs and release. *)
  for_each (seq 0 (Z.to_nat (loc_nbuffers l))) (fun i =>
    let* buffer := array_read (loc_buffers l) (Z.of_nat i) in
    when (negb (buffer =? 0)) (
      PageSetLSN buffer (ReadRecPtr xlog_record) ;;
      emit (EvUnlockBuffer buffer) ;;
      emit (EvReleaseBuffer buffer))) ;;
  (* We return a pointer to the start of the passed-in data, after any
     headers that precede it. *)
  let* s := local_slot l in
  let* sl := slot_deref s in
  let result :=
    UndoRecPtrPlusUsableBytes (MakeUndoRecPtr (logno sl) (meta_insert sl))
      header_size in
  (* Advance insert pointer past this undo record. *)
  slot_store s
    (mkSlot (logno sl)
       (UndoLogOffsetPlusUsableBytes (meta_insert sl)
          (uint64 (header_size + Z.of_nat (length data))))
       (slot_end sl) (slot_persistence sl) (slot_full sl)) ;;
  ret result.

(** ** Reading a chunk header back *)

(** The page of block [block] of log [log], if the pool holds it. *)
Definition page_of (w : World) (log block : Z) : option Page :=
  match list_find (fun d => tag_relNode d = log /\ tag_block d = block) (pool w) with
  | Some (_, d) => Some (buf_page d)
  | None => None
  end.

(** The eight bytes of the size field of the chunk header at offset
    [header] of log [log], where [append_bytes] puts them: on the block of
    [header] up to its end, and on from the first usable byte of the next
    block. *)
Definition chunk_size_bytes (w : World) (log header : Z) : option (list Z) :=
  let block := header / BLCKSZ in
  let header_offset := header mod BLCKSZ in
  let n := Z.to_nat (Z.min (BLCKSZ - header_offset) sizeof_UndoLogOffset) in
  match page_of w log block with
  | None => None
  | Some p0 =>
    if (n <? 8)%nat then
      match page_of w log (block + 1) with
      | None => None
      | Some p1 =>
        Some (page_read (image p0) header_offset n
              ++ page_read (image p1) UndoLogBlockHeaderSize (8 - n))
      end
    else Some (page_read (image p0) header_offset 8)
  end.

(** ** A backend's calls, in sequence *)

(** A call of the interface.  Record sets are named by their address:
    [UndoCreate] gives the next free one. *)
Inductive Call : Type :=
  | CallCreate (type persistence : Z)
  | CallAllocate (urs : nat) (data_size : Z)
  | CallInsert (urs : nat) (first_block_id : Z) (data : list Z)
  | CallPrepareToMarkClosed (urs : nat)
  | CallMarkClosed (urs : nat)
  | CallRelease (urs : nat).

Definition run_call (fuel : nat) (c : Call) : M unit :=
  match c with
  | CallCreate type persistence => let* _ := UndoCreate type persistence in ret tt
  | CallAllocate urs data_size => let* _ := UndoAllocate fuel urs data_size in ret tt
  | CallInsert urs first_block_id data => UndoInsert urs first_block_id data
  | CallPrepareToMarkClosed urs => UndoPrepareToMarkClosed urs
  | CallMarkClosed urs => UndoMarkClosed urs
  | CallRelease urs => UndoRelease urs
  end.

Definition run (fuel : nat) (cs : list Call) : M unit :=
  for_each cs (run_call fuel).

(** The discipline of one insertion on record set [urs]: allocate, insert,
    release. *)
Definition cycle (urs : nat) (x : Z * Z * list Z) : list Call :=
  let '(data_size, first_block_id, data) := x in
  [CallAllocate urs data_size; CallInsert urs first_block_id data; CallRelease urs].

End Model.

(** * Vocabulary of the statements *)

(** [m] run in [w] returns, and its result and final world satisfy [Q]. *)
Definition tpost {A} (m : M A) (w : World) (Q : A -> World -> Prop) : Prop :=
  exists a w', m w = Done (a, w') /\ Q a w'.

(** The world after a write through the page pointer of buffer [b], whose
    descriptor is [d]. *)
Definition put_page (b : Z) (d : BufferDesc) (pg : Page) : World -> World :=
  with_pool (fun p => <[Z.to_nat (b - 1) := mkBuf (tag_relNode d) (tag_block d) pg]> p).

(** The calls that let go of one pinned buffer. *)
Definition unlock_and_release (b : Z) : list Event :=
  [EvUnlockBuffer b; EvReleaseBuffer b].

(** [m] run in [w] either returns with a result and a final world that
    satisfy [Q], or ends in a failure other than [bad] ([None]: any failure
    may end it). *)
Definition wp (bad : option failure) {A} (m : M A) (w : World)
    (Q : A -> World -> Prop) : Prop :=
  match m w with
  | Done (a, w') => Q a w'
  | Fail fl => Some fl <> bad
  end.

(** The memory of the backend that is private to this layer. *)
Definition private (w : World) : list (option UndoRecordSet) * list nat * bool :=
  (heap w, UndoRecordSetList w, UndoRecordSetContext w).

(** From [w0] to [w] the private memory changed at most in the record set
    [u], which is live in both or in neither, and whose [f] is the same. *)
Definition frame {B} (f : UndoRecordSet -> B) (u : nat) (w0 w : World) : Prop :=
  UndoRecordSetList w = UndoRecordSetList w0 /\
  UndoRecordSetContext w = UndoRecordSetContext w0 /\
  length (heap w) = length (heap w0) /\
  (forall v, v <> u -> heap w !! v = heap w0 !! v) /\
  match heap w0 !! u, heap w !! u with
  | Some (Some r0), Some (Some r) => f r = f r0
  | x, y => x = y
  end.

(** [m] leaves the private memory as it is. *)
Definition leaves_private (bad : option failure) {A} (m : M A) : Prop :=
  forall w, wp bad m w (fun _ w' => private w' = private w).

(** Within the frame of [w0] for [f] and [u], [m] stays within it and its
    result satisfies [P]. *)
Definition keeps (bad : option failure) {B} (f : UndoRecordSet -> B) (u : nat)
    (w0 : World) {A} (m : M A) (P : A -> Prop) : Prop :=
  forall w, frame f u w0 w -> wp bad m w (fun a w' => frame f u w0 w' /\ P a).

(** [r] agrees on [f] with the record set [u] of [w0]. *)
Definition known {B} (f : UndoRecordSet -> B) (u : nat) (w0 : World)
    (r : UndoRecordSet) : Prop :=
  exists r0, heap w0 !! u = Some (Some r0) /\ f r = f r0.

(** The fields of a record set that only [UndoMarkClosed], [UndoInsert] and
    the pinning of buffers change. *)
Definition stable_fields (r : UndoRecordSet) : bool * bool * Z * Z :=
  (closed r, need_type_header r, urs_type r, nbuffers r).

(** The same without the number of pinned buffers. *)
Definition lifecycle_fields (r : UndoRecordSet) : bool * bool * Z :=
  (closed r, need_type_header r, urs_type r).

Definition drop_nbuffers (x : bool * bool * Z * Z) : bool * bool * Z :=
  let '(c, t, ty, _) := x in (c, t, ty).

(** What [UndoInsert] leaves as it is, and what [UndoMarkClosed] does. *)
Definition insert_fields (r : UndoRecordSet) : bool * Z * Z :=
  (closed r, urs_type r, nbuffers r).

Definition close_fields (r : UndoRecordSet) : bool * Z * Z :=
  (need_type_header r, urs_type r, nbuffers r).

(** What a sequence of calls did to a record set it created: nothing yet,
    it closed it, or it released it after closing it. *)
Inductive Status : Type := Open | Closed | Freed.

Definition track (st : list Status) (c : Call) : list Status :=
  match c with
  | CallCreate _ _ => st ++ [Open]
  | CallMarkClosed u =>
    match st !! u with Some Open => <[u := Closed]> st | _ => st end
  | CallRelease u =>
    match st !! u with Some Closed => <[u := Freed]> st | _ => st end
  | _ => st
  end.

Definition statuses (cs : list Call) : list Status := fold_left track cs [].

(** Every record set the calls created was closed and then released. *)
Definition all_released (cs : list Call) : bool :=
  forallb (fun s => match s with Freed => true | _ => false end) (statuses cs).

(** The status of a cell of the heap. *)
Definition status_of (o : option UndoRecordSet) : Status :=
  match o with
  | None => Freed
  | Some r => if closed r then Closed else Open
  end.

(** The heap and the list of live record sets agree with the statuses
    [st]. *)
Definition tracked (st : list Status) (w : World) : Prop :=
  map status_of (heap w) = st /\
  (forall u, u ∈ UndoRecordSetList w <-> exists r, heap w !! u = Some (Some r)) /\
  (heap w <> [] -> UndoRecordSetContext w = true).

(** The worlds [reserve_physical_undo] leaves behind for record set [u],
    found as [r], on its active log [s], found as [sl]: after it re-read
    the end of the log under the lock; after it extended the log to
    [new_insert]; after it marked the log full and dropped it. *)
Definition refreshed (u : nat) (r : UndoRecordSet) (s : nat) (sl : UndoLogSlot)
    (w : World) : World :=
  with_trace (cons (EvLWLockRelease s))
    (with_heap (fun h => <[u := Some (set_recent_end (slot_end sl) r)]> h)
       (with_trace (cons (EvLWLockAcquire s false)) w)).

Definition extended (sl : UndoLogSlot) (new_insert : Z) (w : World) : World :=
  with_slots (map (raise_end (logno sl) new_insert))
    (with_trace (cons (EvUndoLogAdjustPhysicalRange (logno sl) 0 new_insert)) w).

Definition given_up (u : nat) (r : UndoRecordSet) (s : nat) (sl : UndoLogSlot)
    (w : World) : World :=
  with_heap (fun h => <[u := Some (set_slot None (set_recent_end (slot_end sl) r))]> h)
    (with_slots (fun ss => <[s := mkSlot (logno sl) (meta_insert sl) (slot_end sl)
                                    (slot_persistence sl) true]> ss)
       (with_trace (cons (EvUndoLogMarkFull s)) w)).

(** The record set after a new chunk was started on log [s], found as
    [sl]. *)
Definition with_new_chunk (s : nat) (sl : UndoLogSlot) (r : UndoRecordSet)
    : UndoRecordSet :=
  set_chunks (chunks r ++ [mkChunk s (meta_insert sl) (-1, -1) ([], [])])
    (set_slot (Some s)
       (set_recent_end 0
          (set_need_chunk_header true
             (if nchunks r =? max_chunks r
              then set_max_chunks (max_chunks r * 2) r else r)))).

(** The buffer [d] with the LSN of its page set to [lsn], and the pool
    after the pages of the buffers [bs] got that LSN. *)
Definition with_lsn (lsn : Z) (d : BufferDesc) : BufferDesc :=
  mkBuf (tag_relNode d) (tag_block d) (store_pd_lsn lsn (buf_page d)).

Definition stamped (bs : list Z) (lsn : Z) (p : list BufferDesc) : list BufferDesc :=
  imap (fun i d => if bool_decide (Z.of_nat i + 1 ∈ bs) then with_lsn lsn d else d) p.

(** The tag (log, block) of the buffer with handle [b], and what it means
    that the buffers [bs] are the pinned ones of a record set: they fill
    the first [nbuffers] cells of its array. *)
Definition buffer_tag (p : list BufferDesc) (b : Z) : option (Z * Z) :=
  (fun d => (tag_relNode d, tag_block d)) <$> p !! Z.to_nat (b - 1).

Definition pinned (r : UndoRecordSet) (bs : list Z) : Prop :=
  nbuffers r = Z.of_nat (length bs) /\
  take (length bs) (buffers r) = map Some bs.

Definition valid_buffers (p : list BufferDesc) (bs : list Z) : Prop :=
  Forall (fun b => 0 < b <= Z.of_nat (length p)) bs.

(** An entry of the opcode stream of a block: the bytes of an insertion,
    or the bytes of an update and the in-page offset they go to. *)
Inductive Entry : Type :=
  | InsertEntry (data : list Z)
  | UpdateEntry (offset : Z) (data : list Z).

Section Entries.
Context {L : Layout}.

Definition encode_entry (e : Entry) : outcome (list Z) :=
  match e with
  | InsertEntry data => Done (encode_insert data)
  | UpdateEntry offset data => encode_update offset data
  end.

Fixpoint encode_entries (es : list Entry) : outcome (list Z) :=
  match es with
  | [] => Done []
  | e :: es =>
    let? ops := encode_entry e in
    let? rest := encode_entries es in
    Done (ops ++ rest)
  end.

(** What the writers make: insertions of 1 to 127 bytes, updates inside
    the usable part of a page. *)
Definition valid_entry (e : Entry) : Prop :=
  match e with
  | InsertEntry data => 1 <= Z.of_nat (length data) <= 127
  | UpdateEntry offset data =>
    UndoLogBlockHeaderSize <= offset < BLCKSZ /\
    offset + Z.of_nat (length data) <= BLCKSZ
  end.

(** The page after the updates among the entries, in order. *)
Fixpoint updated (es : list Entry) (page : list Z) : list Z :=
  match es with
  | [] => page
  | InsertEntry _ :: es => updated es page
  | UpdateEntry offset data :: es =>
    updated es (take (Z.to_nat offset) page ++ data
                ++ drop (Z.to_nat offset + length data) page)
  end.

End Entries.

(** An update of no byte, and a stream whose last entry is one. *)
Definition empty_update (e : Entry) : bool :=
  match e with
  | UpdateEntry _ [] => true
  | _ => false
  end.

Definition ends_in_empty_update (es : list Entry) : bool :=
  match last es with
  | Some e => empty_update e
  | None => false
  end.

(** [append_bytes] on the local [state] of [UndoInsertInRecovery], for
    each of the byte strings [ds] in turn. *)
Fixpoint append_all {L : Layout} (state : option UndoInsertState) (ds : list (list Z))
    : M (option UndoInsertState) :=
  match ds with
  | [] => ret state
  | d :: ds => let* state := append_bytes_local state d in append_all state ds
  end.

(** One pass of the loop of [append_bytes]: the world after the buffer
    was marked dirty and registered, which happens when the cursor comes
    to the buffer; the cursor after [k] bytes went to the page; the page
    after [src] was copied to [offset]. *)
Section Passes.
Context {L : Layout}.

Definition registered (st : UndoInsertState) (b : Z) (w : World) : World :=
  if negb (last_buffer_index st =? buffer_index st) then
    let flags :=
      if UndoRecPtrGetPageOffset (st_insert st) =? UndoLogBlockHeaderSize
      then REGBUF_WILL_INIT else 0 in
    let w := with_trace (cons (EvMarkBufferDirty b)) w in
    if InRecovery w then w
    else with_trace
           (cons (EvXLogRegisterBuffer
                    (uint8 (st_first_block_id st + buffer_index st)) b flags)) w
  else w.

Definition after_pass (st : UndoInsertState) (k : Z) : UndoInsertState :=
  let insert := uint64 (st_insert st + k) in
  if UndoRecPtrGetPageOffset (st_insert st) + k =? BLCKSZ then
    mkState (st_buffers st) (st_first_block_id st) (buffer_index st)
      (buffer_index st + 1) (uint64 (insert + UndoLogBlockHeaderSize))
  else
    mkState (st_buffers st) (st_first_block_id st) (buffer_index st)
      (buffer_index st) insert.

Definition written (pg : Page) (offset : Z) (src : list Z) : Page :=
  mkPage (poke (image (store_pd_lower offset pg)) offset src).

End Passes.

(** The cached end of the active log of record set [u] is not beyond the
    end of that log, and no log ends before its start. *)
Definition ends_known (u : nat) (w : World) : Prop :=
  Forall (fun sl => 0 <= slot_end sl) (slots w) /\
  forall r s, heap w !! u = Some (Some r) -> slot r = Some s ->
    exists sl, slots w !! s = Some sl /\ recent_end r <= slot_end sl.

(** The calls a computation made: what [w'] has on its trace beyond [w],
    all of it satisfying [P]. *)
Definition adds (P : Event -> Prop) (w w' : World) : Prop :=
  exists new, trace w' = new ++ trace w /\ Forall P new.

(** Calls that read a block; a call that reads no block other than this
    one, in this mode; the number of blocks read by the calls [t]. *)
Definition is_read (e : Event) : bool :=
  match e with
  | EvReadBuffer _ _ _ _ => true
  | _ => false
  end.

Definition reads_nothing (e : Event) : Prop := is_read e = false.

Definition reads_only (relNode block : Z) (zero : bool) (e : Event) : Prop :=
  match e with
  | EvReadBuffer r b z _ => r = relNode /\ b = block /\ z = zero
  | _ => True
  end.

Definition count_reads (t : list Event) : Z :=
  Z.of_nat (length (filter (fun e => is_read e = true) t)).

(** Cell [i] of the pinned buffers [bs] holds a buffer of block [block] of
    log [log]; a chunk whose header buffers are noted: the first index
    names a buffer of the block the header starts in, and the second one
    is -1 when the size field ends on that block, and names a buffer of
    the next block otherwise. *)
Definition holds_block (p : list BufferDesc) (bs : list Z) (i log block : Z) : Prop :=
  0 <= i /\ exists b, bs !! Z.to_nat i = Some b /\ buffer_tag p b = Some (log, block).

Definition prepared {L : Layout} (p : list BufferDesc) (bs : list Z) (log : Z)
    (c : UndoRecordSetChunk) : Prop :=
  let header := chunk_header_offset c in
  holds_block p bs (fst (chunk_header_buffer_index c)) log (header / BLCKSZ) /\
  (if header mod BLCKSZ <=? BLCKSZ - sizeof_UndoLogOffset
   then snd (chunk_header_buffer_index c) = -1
   else holds_block p bs (snd (chunk_header_buffer_index c)) log (header / BLCKSZ + 1)).

(** The calls of the insertion engine: marking a buffer dirty and
    registering it.  What the engine leaves alone: everything but the
    pages and the calls made. *)
Definition page_call (e : Event) : Prop :=
  match e with
  | EvMarkBufferDirty _ | EvXLogRegisterBuffer _ _ _ => True
  | _ => False
  end.

Definition pages_only (w w' : World) : Prop :=
  heap w' = heap w /\ slots w' = slots w /\ InRecovery w' = InRecovery w /\
  free_logs w' = free_logs w /\ UndoRecordSetList w' = UndoRecordSetList w /\
  adds page_call w w'.

(** The data registered for block [id] by the calls [t] (latest first), in
    the order of the calls. *)
Definition buf_data (id : Z) (e : Event) : list Z :=
  match e with
  | EvXLogRegisterBufData i d => if i =? id then d else []
  | _ => []
  end.

Definition block_data (id : Z) (t : list Event) : list Z :=
  concat (map (buf_data id) (rev t)).

(** [r'] is [r] but for its pinned buffers. *)
Definition same_but_buffers (r r' : UndoRecordSet) : Prop :=
  r' = set_nbuffers (nbuffers r') (set_buffers (buffers r') r).

(** The log [sl] is the log of block [b] and ends after it, if [b] is an
    undo block.  The end of the block is computed in 32 bits, as
    [(block->blkno + 1) * BLCKSZ] is. *)
Definition covers {L : Layout} (sl : UndoLogSlot) (b : DecodedBkpBlock) : Prop :=
  is_undo_block b = true ->
  rnode_relNode b = logno sl /\ uint32 ((blkno b + 1) * BLCKSZ) <= slot_end sl.

(** The first loop of [UndoInsertInRecovery] after the blocks [done]: it
    counted the undo blocks among them, and if there is one, its local
    [slot] is a log that covers them all. *)
Definition blocks_read {L : Layout} (done : list DecodedBkpBlock) (l : InsertLocals)
    (w : World) : Prop :=
  loc_nbuffers l
  = Z.of_nat (length (filter (fun b => is_undo_block b = true) done)) /\
  (loc_nbuffers l = 0 \/
   exists s sl, loc_slot l = Some s /\ slots w !! s = Some sl /\
     Forall (covers sl) done).

(** * Scenarios on a default build *)

Module Scenario.
#[local] Existing Instance pg_layout.

(** A record set of type [URST_FOO] with one chunk on log 1 whose header
    starts at the last byte of block 0, so that one byte of its size field
    is on block 0 and seven are on block 1.  The log's insert position is
    300 bytes after the header. *)
Definition straddling_set : UndoRecordSet :=
  mkURS URST_FOO 112 [mkChunk 0 8191 (-1, -1) ([], [])] 1 0 [None] 0 0
    false false (mkChunkHeader 0 0 URST_FOO) (replicate 64 0) 8 (Some 0%nat)
    false 0.

Definition straddling_world : World :=
  mkWorld false [mkSlot 1 8491 16384 112 false] [] [] [Some straddling_set]
    [0%nat] true [].

Definition close_straddling : outcome (unit * World) :=
  (UndoPrepareToMarkClosed 0 ;; UndoMarkClosed 0) straddling_world.

(** The same header position written by the forward path: a cursor at
    offset 8191 of log 1 over the two blocks, and 24 header bytes. *)
Definition header_written : outcome (UndoInsertState * World) :=
  (let* b0 := ReadBufferWithoutRelcache 1 0 false in
   let* b1 := ReadBufferWithoutRelcache 1 1 false in
   append_bytes (begin_append [Some b0; Some b1] 0 8191)
     (map Z.of_nat (seq 1 24))) straddling_world.

(** A backend in recovery that knows log 1, with its insert position at
    byte 100 of block 0, and a WAL record with one undo block of that log. *)
Definition recovery_world : World :=
  mkWorld true [mkSlot 1 100 8192 112 false] [] [] [] [] false [].

Definition undo_block (action : XLogRedoAction) (data : option (list Z))
    : DecodedBkpBlock :=
  mkBlock true UndoDbOid 1 0 0 data action zero_page.

(** A backend that holds block 0 of log 1 in buffer 1, a cursor at byte
    100 of that block, ten bytes to append; and a backend in recovery whose
    insert position for log 1 is elsewhere. *)
Definition one_block_world : World :=
  mkWorld false [mkSlot 1 100 8192 112 false] [] [mkBuf 1 0 zero_page] [] []
    false [].

Definition cursor_at_100 : UndoInsertState := begin_append [Some 1] 0 100.

Definition ten_bytes : list Z := map Z.of_nat (seq 1 10).

Definition stale_recovery_world : World :=
  mkWorld true [mkSlot 1 4000 8192 112 false] [] [] [] [] false [].

Definition first_block_locals : InsertLocals := mkLocals None None [None] 0 false.

(** The same four gigabytes further into the log: a backend that holds
    block 2^19 of log 1, which begins at byte 2^32 of the log, in buffer
    1, and a cursor at byte 100 of that block. *)
Definition far_block_world : World :=
  mkWorld false [mkSlot 1 (2 ^ 32 + 100) (2 ^ 33) 112 false] []
    [mkBuf 1 (2 ^ 19) zero_page] [] [] false [].

Definition cursor_past_4GB : UndoInsertState :=
  begin_append [Some 1] 0 (2 ^ 32 + 100).

(** A closed record set with one chunk that still holds two buffers, and
    the same record set before it was closed. *)
Definition closed_set : UndoRecordSet :=
  mkURS URST_FOO 112 [mkChunk 0 8191 (0, 1) ([], [])] 1 0 [Some 1; Some 2] 2 0
    false false (mkChunkHeader 0 0 URST_FOO) (replicate 64 0) 8 (Some 0%nat)
    true 0.

Definition closed_world : World :=
  mkWorld false [mkSlot 1 8491 16384 112 false] []
    [mkBuf 1 0 zero_page; mkBuf 1 1 zero_page] [Some closed_set] [0%nat] true [].

Definition open_world : World :=
  with_heap (fun _ => [Some (set_closed false closed_set)]) closed_world.

(** A backend that has not used record sets yet, with log 1 free and
    empty; a complete life of one record set, and the same calls without
    the last release. *)
Definition fresh_world : World :=
  mkWorld false [mkSlot 1 24 8192 112 false] [0%nat] [] [] [] false [].

Definition clean_calls : list Call :=
  [ CallCreate URST_FOO 112; CallAllocate 0 10; CallInsert 0 0 ten_bytes;
    CallRelease 0; CallPrepareToMarkClosed 0; CallMarkClosed 0; CallRelease 0 ].

Definition leaky_calls : list Call := take 6 clean_calls.

(** Log 1 with a hundred bytes left below the largest size of a log, and
    log 2 free and empty; a record set that asks for two hundred bytes
    and inserts them. *)
Definition spill_world : World :=
  mkWorld false
    [mkSlot 1 (2 ^ 40 - 100) (2 ^ 40) 112 false; mkSlot 2 24 8192 112 false]
    [0%nat; 1%nat] [] [] [] false [].

Definition spill_calls : list Call :=
  [ CallCreate URST_FOO 112; CallAllocate 0 200;
    CallInsert 0 0 (replicate 200 7) ].

(** One insertion, released, and then two allocations of no bytes in a
    row. *)
Definition idle_calls : list Call :=
  take 4 clean_calls ++ [CallAllocate 0 0; CallAllocate 0 0].

(** The world of a record set just created, and the same after it
    allocated ten bytes. *)
Definition created_world : World :=
  match UndoCreate URST_FOO 112 fresh_world with
  | Done (_, w) => w
  | Fail _ => fresh_world
  end.

Definition allocated_world : World :=
  match UndoAllocate 5 0 10 created_world with
  | Done (_, w) => w
  | Fail _ => created_world
  end.

(** A record set with one chunk on log 1 whose header starts at byte 100
    of block 0; the block is pinned as the first buffer, as
    [UndoPrepareToMarkClosed] leaves it.  The insert position of the log
    is 300 bytes after the header. *)
Definition one_page_set : UndoRecordSet :=
  mkURS URST_FOO 112 [mkChunk 0 100 (0, -1) ([], [])] 1 0 [Some 1] 1 0
    false false (mkChunkHeader 0 0 URST_FOO) (replicate 64 0) 8 (Some 0%nat)
    false 8192.

Definition one_page_world : World :=
  mkWorld false [mkSlot 1 400 8192 112 false] [] [mkBuf 1 0 zero_page]
    [Some one_page_set] [0%nat] true [].

(** A cursor two bytes before the end of block 0 of log 1, over the two
    buffers of [closed_world]. *)
Definition cursor_at_8190 : UndoInsertState := begin_append [Some 1; Some 2] 0 8190.

(** The record set of [allocated_world] and its log. *)
Definition allocated_set : UndoRecordSet :=
  match heap allocated_world !! 0%nat with
  | Some (Some r) => r
  | _ => straddling_set
  end.

Definition allocated_slot : UndoLogSlot :=
  match slots allocated_world !! 0%nat with
  | Some sl => sl
  | None => mkSlot 0 0 0 0 false
  end.

(** A WAL record of an insertion on block 0 of log 1, with a header of
    three bytes attached to the block. *)
Definition replay_record : XLogReaderState :=
  mkRecord 7 [undo_block BLK_NEEDS_REDO (Some (encode_insert [1; 2; 3]))].

(** The undo blocks 0 and 1 of log 1, of which [recovery_world] has the
    first only. *)
Definition two_undo_blocks : list DecodedBkpBlock :=
  [ undo_block BLK_NEEDS_REDO None;
    mkBlock true UndoDbOid 1 1 BKPBLOCK_WILL_INIT None BLK_NEEDS_REDO zero_page ].

End Scenario.

(** * Properties of the model *)

Section Proofs.
Context {L : Layout}.

Lemma BLCKSZ_pos : 0 < BLCKSZ.
Proof. pose proof header_pos. pose proof header_lt_block. lia. Qed.

Lemma tpost_bind {A B} (m : M A) (k : A -> M B) w Q :
  tpost m w (fun a w' => tpost (k a) w' Q) -> tpost (bind m k) w Q.
Proof.
  intros (a & w1 & E & b & w2 & E2 & HQ). exists b, w2. split; [|exact HQ].
  unfold bind. rewrite E. exact E2.
Qed.

Lemma tpost_ret {A} (a : A) w (Q : A -> World -> Prop) : Q a w -> tpost (ret a) w Q.
Proof. intros H. exists a, w. split; [reflexivity | exact H]. Qed.

Lemma tpost_gets {A} (f : World -> A) w (Q : A -> World -> Prop) :
  Q (f w) w -> tpost (gets f) w Q.
Proof. intros H. exists (f w), w. split; [reflexivity | exact H]. Qed.

Lemma tpost_modify (f : World -> World) w (Q : unit -> World -> Prop) :
  Q tt (f w) -> tpost (modify f) w Q.
Proof. intros H. exists tt, (f w). split; [reflexivity | exact H]. Qed.

Lemma tpost_lift {A} (o : outcome A) a w (Q : A -> World -> Prop) :
  o = Done a -> Q a w -> tpost (lift o) w Q.
Proof. intros -> H. exists a, w. split; [reflexivity | exact H]. Qed.

Lemma tpost_array_read (a : list (option Z)) i v w (Q : Z -> World -> Prop) :
  0 <= i -> a !! Z.to_nat i = Some (Some v) -> Q v w -> tpost (array_read a i) w Q.
Proof.
  intros Hi Ha H. exists v, w. split; [|exact H]. unfold array_read.
  destruct (Z.ltb_spec i 0); [lia|]. rewrite Ha. reflexivity.
Qed.

Lemma tpost_BufferGetPage b d w (Q : Page -> World -> Prop) :
  0 < b -> pool w !! Z.to_nat (b - 1) = Some d -> Q (buf_page d) w ->
  tpost (BufferGetPage b) w Q.
Proof.
  intros Hb Hp H. exists (buf_page d), w. split; [|exact H].
  unfold BufferGetPage, bind, gets. destruct (Z.leb_spec b 0); [lia|].
  rewrite Hp. reflexivity.
Qed.

Lemma set_page_eq b d pg w :
  pool w !! Z.to_nat (b - 1) = Some d ->
  set_page b pg w = Done (tt, put_page b d pg w).
Proof.
  intros Hp. unfold set_page, modify, put_page, with_pool. rewrite Hp. reflexivity.
Qed.

Lemma tpost_set_page b d pg w (Q : unit -> World -> Prop) :
  pool w !! Z.to_nat (b - 1) = Some d -> Q tt (put_page b d pg w) ->
  tpost (set_page b pg) w Q.
Proof. intros Hp H. exists tt, (put_page b d pg w). split; [apply set_page_eq, Hp | exact H]. Qed.

Lemma pool_put_page b d pg w :
  pool w !! Z.to_nat (b - 1) = Some d ->
  pool (put_page b d pg w) !! Z.to_nat (b - 1)
  = Some (mkBuf (tag_relNode d) (tag_block d) pg).
Proof.
  intros Hp. unfold put_page, with_pool. cbn.
  apply list_lookup_insert_eq. eapply lookup_lt_Some; eauto.
Qed.

Lemma page_write_done (pg : list Z) (off : Z) (src : list Z) :
  0 <= off -> off + Z.of_nat (length src) <= Z.of_nat (length pg) ->
  page_write pg off src
  = Done (take (Z.to_nat off) pg ++ src ++ drop (Z.to_nat off + length src) pg).
Proof.
  intros H0 H1. unfold page_write.
  destruct (Z.leb_spec 0 off); [|lia].
  destruct (Z.leb_spec (off + Z.of_nat (length src)) (Z.of_nat (length pg))); [|lia].
  reflexivity.
Qed.

Lemma page_read_written (pg : list Z) (off : Z) (src : list Z) :
  0 <= off -> off + Z.of_nat (length src) <= Z.of_nat (length pg) ->
  page_read (take (Z.to_nat off) pg ++ src ++ drop (Z.to_nat off + length src) pg)
    off (length src) = src.
Proof.
  intros H0 H1. unfold page_read.
  rewrite drop_app_length'; [| rewrite length_take; lia].
  rewrite take_app_length. reflexivity.
Qed.

Lemma length_poke (pg : list Z) (off : Z) (src : list Z) :
  0 <= off -> off + Z.of_nat (length src) <= Z.of_nat (length pg) ->
  length (poke pg off src) = length pg.
Proof.
  intros H0 H1. unfold poke. rewrite !length_app, length_take, length_drop. lia.
Qed.

Lemma page_read_poke_before (pg : list Z) (off : Z) (src : list Z) (o : Z) (n : nat) :
  0 <= o -> o + Z.of_nat n <= off -> off <= Z.of_nat (length pg) ->
  page_read (poke pg off src) o n = page_read pg o n.
Proof.
  intros H0 H1 H2. unfold page_read, poke.
  rewrite drop_app_le by (rewrite length_take; lia).
  rewrite take_app_le by (rewrite length_drop, length_take; lia).
  rewrite !take_drop_commute, take_take.
  f_equal. f_equal. lia.
Qed.

Lemma le_value_le_bytes (n : nat) : forall v : Z,
  0 <= v < 256 ^ Z.of_nat n -> le_value (le_bytes n v) = v.
Proof.
  induction n as [|n IH]; intros v Hv; cbn [le_bytes le_value].
  - change (256 ^ Z.of_nat 0) with 1 in Hv. lia.
  - rewrite Nat2Z.inj_succ, Z.pow_succ_r in Hv by lia.
    rewrite IH.
    + pose proof (Z.div_mod v 256 ltac:(lia)). lia.
    + split; [apply Z.div_pos; lia | apply Z.div_lt_upper_bound; lia].
Qed.

Lemma pd_lower_store (v : Z) (pg : Page) :
  0 <= v < 2 ^ 16 -> 14 <= Z.of_nat (length (image pg)) ->
  pd_lower (store_pd_lower v pg) = v.
Proof.
  intros Hv Hlen. unfold pd_lower, store_pd_lower. cbn [image].
  change 2%nat with (length (le_bytes 2 v)) at 1.
  unfold poke. rewrite page_read_written by (cbn [le_bytes length]; lia).
  apply (le_value_le_bytes 2). exact Hv.
Qed.

Lemma le_value_le_bytes_mod (n : nat) : forall v : Z,
  le_value (le_bytes n v) = v mod 256 ^ Z.of_nat n.
Proof.
  induction n as [|n IH]; intros v; cbn [le_bytes le_value].
  - change (256 ^ Z.of_nat 0) with 1. rewrite Z.mod_1_r. reflexivity.
  - rewrite IH, Nat2Z.inj_succ, Z.pow_succ_r by lia.
    rewrite Z.rem_mul_r by lia. reflexivity.
Qed.

(** The LSN that is read from a page is the one that was stored in it. *)
Lemma pd_lsn_store (lsn : Z) (pg : Page) :
  0 <= lsn < 2 ^ 64 -> 8 <= Z.of_nat (length (image pg)) ->
  pd_lsn (store_pd_lsn lsn pg) = lsn.
Proof.
  intros Hv Hlen. unfold pd_lsn, store_pd_lsn, poke, page_read. cbn [image].
  change (Z.to_nat 0) with 0%nat. change (Z.to_nat 4) with 4%nat.
  rewrite take_0, drop_0. cbn [app].
  rewrite <- app_assoc.
  rewrite (take_app_length' (le_bytes 4 (lsn / 2 ^ 32))) by reflexivity.
  rewrite (drop_app_length' (le_bytes 4 (lsn / 2 ^ 32))) by reflexivity.
  rewrite (take_app_length' (le_bytes 4 lsn)) by reflexivity.
  rewrite !le_value_le_bytes_mod.
  change (256 ^ Z.of_nat 4) with (2 ^ 32).
  rewrite (Z.mod_small (lsn / 2 ^ 32)).
  - pose proof (Z.div_mod lsn (2 ^ 32) ltac:(lia)). lia.
  - split; [apply Z.div_pos; lia | apply Z.div_lt_upper_bound; lia].
Qed.

Lemma length_written (pg : Page) (offset : Z) (src : list Z) :
  14 <= offset -> offset + Z.of_nat (length src) <= Z.of_nat (length (image pg)) ->
  length (image (written pg offset src)) = length (image pg).
Proof.
  intros H0 H1. unfold written, store_pd_lower. cbn [image].
  assert (E : length (poke (image pg) 12 (le_bytes 2 offset)) = length (image pg))
    by (apply length_poke; cbn [le_bytes length]; lia).
  rewrite length_poke by (rewrite ?E; lia). exact E.
Qed.

Lemma pd_lower_written (pg : Page) (offset : Z) (src : list Z) :
  14 <= offset < 2 ^ 16 ->
  offset + Z.of_nat (length src) <= Z.of_nat (length (image pg)) ->
  pd_lower (written pg offset src) = offset.
Proof.
  intros H0 H1. unfold written.
  assert (E : length (image (store_pd_lower offset pg)) = length (image pg))
    by (unfold store_pd_lower; cbn [image]; apply length_poke;
        cbn [le_bytes length]; lia).
  unfold pd_lower at 1. cbn [image].
  rewrite page_read_poke_before by (rewrite ?E; lia).
  apply pd_lower_store; lia.
Qed.

Lemma page_read_after_write (pg : Page) (offset : Z) (src : list Z) :
  14 <= offset ->
  offset + Z.of_nat (length src) <= Z.of_nat (length (image pg)) ->
  page_read (image (written pg offset src)) offset (length src) = src.
Proof.
  intros H0 H1. unfold written. cbn [image]. unfold poke at 1.
  apply page_read_written; [lia|].
  unfold store_pd_lower. cbn [image].
  rewrite length_poke by (cbn [le_bytes length]; lia). exact H1.
Qed.

Lemma page_header_size : SizeOfPageHeaderData = 24.
Proof. reflexivity. Qed.

Lemma page_offset_bounds (urp : Z) :
  0 <= UndoRecPtrGetPageOffset urp < BLCKSZ.
Proof. unfold UndoRecPtrGetPageOffset. apply Z.mod_pos_bound, BLCKSZ_pos. Qed.

Lemma uint16_small (z : Z) : 0 <= z < BLCKSZ -> uint16 z = z.
Proof.
  intros H. unfold uint16. apply Z.mod_small. pose proof BLCKSZ_max. lia.
Qed.

Lemma tpost_mono {A} (m : M A) w (Q Q' : A -> World -> Prop) :
  tpost m w Q -> (forall a w', Q a w' -> Q' a w') -> tpost m w Q'.
Proof. intros (a & w' & E & H) HQ. exists a, w'. split; [exact E | apply HQ, H]. Qed.

Lemma tpost_when (b : bool) (m : M unit) w (Q : unit -> World -> Prop) :
  (b = true -> tpost m w Q) -> (b = false -> Q tt w) -> tpost (when b m) w Q.
Proof.
  destruct b; intros H1 H2; cbn [when]; [apply H1 | apply tpost_ret, H2]; reflexivity.
Qed.

Lemma tpost_slot_deref s sl w (Q : UndoLogSlot -> World -> Prop) :
  slots w !! s = Some sl -> Q sl w -> tpost (slot_deref s) w Q.
Proof.
  intros Hs H. exists sl, w. split; [|exact H].
  unfold slot_deref, bind, gets. rewrite Hs. reflexivity.
Qed.

(** What a read of the buffer pool gives: a valid handle on a buffer with
    the tag asked for; buffers already in the pool keep their place. *)
Lemma tpost_ReadBuffer rel blk zero w (Q : Z -> World -> Prop) :
  (forall b p',
      0 < b ->
      (exists d, p' !! Z.to_nat (b - 1) = Some d) ->
      (forall i d, pool w !! i = Some d -> p' !! i = Some d) ->
      Q b (with_trace (cons (EvReadBuffer rel blk zero b)) (with_pool (fun _ => p') w))) ->
  tpost (ReadBufferWithoutRelcache rel blk zero) w Q.
Proof.
  intros H. unfold ReadBufferWithoutRelcache.
  apply tpost_bind, tpost_gets. apply tpost_bind.
  destruct (list_find _ (pool w)) as [[i d]|] eqn:E.
  - apply tpost_ret. apply tpost_bind, tpost_modify, tpost_ret.
    apply list_find_Some in E as (Hi & _).
    replace w with (with_pool (fun _ => pool w) w) at 1 by (destruct w; reflexivity).
    apply H; [lia | | auto].
    exists d. rewrite <- Hi. f_equal. lia.
  - apply tpost_bind, tpost_modify, tpost_ret.
    apply tpost_bind, tpost_modify, tpost_ret.
    match goal with |- Q _ ?W =>
      replace W with (with_trace (cons (EvReadBuffer rel blk zero (Z.of_nat (length (pool w)) + 1)))
                        (with_pool (fun _ => pool w ++ [mkBuf rel blk zero_page]) w))
        by (destruct w; reflexivity) end.
    apply H; [lia | | ].
    + eexists. replace (Z.to_nat (Z.of_nat (length (pool w)) + 1 - 1)) with (length (pool w)) by lia.
      apply list_lookup_middle. reflexivity.
    + intros i d Hi. apply lookup_app_l_Some, Hi.
Qed.

Lemma tpost_array_write (a : list (option Z)) i v w (Q : list (option Z) -> World -> Prop) :
  0 <= i < Z.of_nat (length a) -> Q (<[Z.to_nat i := Some v]> a) w ->
  tpost (array_write a i v) w Q.
Proof.
  intros Hi H. unfold array_write.
  destruct (Z.leb_spec 0 i); [|lia]. destruct (Z.ltb_spec i (Z.of_nat (length a))); [|lia].
  apply tpost_ret, H.
Qed.

Lemma slots_adjust (ss : list UndoLogSlot) (log new_end : Z) s sl :
  ss !! s = Some sl ->
  exists sl', map (raise_end log new_end) ss !! s = Some sl'
    /\ logno sl' = logno sl /\ meta_insert sl' = meta_insert sl.
Proof.
  intros Hs. rewrite list_lookup_fmap, Hs. cbn. unfold raise_end.
  destruct (logno sl =? log); eexists; split; try reflexivity; split; reflexivity.
Qed.

(** Insert replay of a first block that was restored from a full-page
    image: the insert position of the log becomes the start of the block
    plus the cursor of the image. *)
Lemma read_block_restored (w : World) (l : InsertLocals) (block : DecodedBkpBlock)
    (s : nat) (sl : UndoLogSlot) :
  is_undo_block block = true ->
  redo_action block = BLK_RESTORED ->
  loc_nbuffers l = 0 ->
  loc_buffers l <> [] ->
  list_find (fun v => logno v = rnode_relNode block) (slots w) = Some (s, sl) ->
  14 <= Z.of_nat (length (image (bkp_image block))) ->
  tpost (read_block block l) w (fun l' w' =>
    meta_insert <$> slots w' !! s
    = Some (uint32 (BLCKSZ * blkno block
                    + (if pd_lower (bkp_image block) =? 0
                       then uint16 UndoLogBlockHeaderSize
                       else pd_lower (bkp_image block))))).
Proof.
  intros Hundo Hact Hn Hbufs Hfind Himg.
  unfold read_block. rewrite Hundo. cbn [negb]. rewrite Hn. cbn [Z.eqb].
  apply tpost_bind. unfold UndoLogGetSlot.
  apply tpost_bind, tpost_gets. rewrite Hfind. apply tpost_ret.
  apply list_find_Some in Hfind as (Hs & _ & _).
  apply tpost_bind. eapply tpost_slot_deref; [exact Hs|].
  apply tpost_bind.
  set (past := uint32 ((blkno block + 1) * BLCKSZ)).
  apply tpost_mono with (Q := fun _ w1 =>
    pool w1 = pool w /\
    exists sl1, slots w1 !! s = Some sl1 /\ logno sl1 = logno sl).
  { apply tpost_when; intros _.
    - unfold UndoLogAdjustPhysicalRange. apply tpost_bind, tpost_modify, tpost_modify.
      split; [reflexivity|]. cbn.
      destruct (slots_adjust (slots w) (logno sl) past s sl Hs) as (sl1 & H1 & H2 & _).
      eauto.
    - split; [reflexivity|]. eauto. }
  intros _ w1 (Hp1 & sl1 & Hs1 & Hl1).
  apply tpost_bind. unfold XLogReadBufferForRedoExtended. rewrite Hact.
  apply tpost_bind. apply tpost_ReadBuffer. intros b p' Hb (d & Hd) _.
  apply tpost_bind. eapply tpost_set_page; [exact Hd|].
  apply tpost_bind, tpost_modify, tpost_ret.
  apply tpost_bind. apply tpost_array_write.
  { destruct (loc_buffers l); [congruence | cbn; lia]. }
  cbn [andb].
  match goal with |- tpost _ ?W _ => set (w2 := W) end.
  assert (Hd2 : pool w2 !! Z.to_nat (b - 1)
                = Some (mkBuf (tag_relNode d) (tag_block d) (bkp_image block))).
  { subst w2. cbn. apply list_lookup_insert_eq. eapply lookup_lt_Some; eauto. }
  assert (Hs2 : slots w2 !! s = Some sl1) by exact Hs1.
  clearbody w2.
  apply tpost_bind.
  apply tpost_mono with (Q := fun _ w4 =>
      (exists d4, pool w4 !! Z.to_nat (b - 1) = Some d4) /\
      meta_insert <$> slots w4 !! s
      = Some (uint32 (BLCKSZ * blkno block
                      + (if pd_lower (bkp_image block) =? 0
                         then uint16 UndoLogBlockHeaderSize
                         else pd_lower (bkp_image block))))).
  { apply tpost_bind. eapply tpost_BufferGetPage; [lia | exact Hd2 |].
    cbn [buf_page].
    apply tpost_bind.
    apply tpost_mono with (Q := fun _ w3 =>
      slots w3 = slots w2 /\
      exists d3, pool w3 !! Z.to_nat (b - 1) = Some d3 /\
        pd_lower (buf_page d3)
        = if pd_lower (bkp_image block) =? 0 then uint16 UndoLogBlockHeaderSize
          else pd_lower (bkp_image block)).
    { apply tpost_when; intros Hz.
      - unfold set_pd_lower. apply tpost_bind.
        eapply tpost_BufferGetPage; [lia | exact Hd2 |].
        eapply tpost_set_page; [exact Hd2|].
        split; [reflexivity|]. eexists. split; [apply pool_put_page, Hd2|].
        cbn [buf_page]. rewrite Hz. apply pd_lower_store; [|exact Himg].
        unfold uint16. apply Z.mod_pos_bound. lia.
      - split; [reflexivity|]. eexists. split; [exact Hd2|].
        cbn [buf_page]. rewrite Hz. reflexivity. }
    intros _ w3 (Hs3 & d3 & Hd3 & Hpd).
    apply tpost_bind. eapply tpost_BufferGetPage; [lia | exact Hd3 |].
    apply tpost_bind. eapply tpost_slot_deref; [rewrite Hs3; exact Hs2|].
    unfold slot_store. apply tpost_modify.
    cbn. split; [eauto|]. rewrite Hs3.
    rewrite list_lookup_insert_eq by (eapply lookup_lt_Some; eauto).
    cbn. rewrite Hpd. reflexivity. }
  intros _ w4 ((d4 & Hd4) & Hm).
  apply tpost_bind.
  apply tpost_mono with (Q := fun _ w5 => slots w5 = slots w4).
  { apply tpost_when; intros _; [|reflexivity].
    unfold PageInit. apply tpost_bind. eapply tpost_BufferGetPage; [lia | exact Hd4 |].
    apply tpost_bind. eapply tpost_set_page; [exact Hd4|].
    apply tpost_modify. reflexivity. }
  intros _ w5 Hs5. apply tpost_ret. rewrite Hs5. exact Hm.
Qed.

Lemma pointer_offset_split (urp : Z) :
  BLCKSZ * UndoRecPtrGetBlockNum urp + UndoRecPtrGetPageOffset urp
  = UndoRecPtrGetOffset urp.
Proof.
  unfold UndoRecPtrGetBlockNum, UndoRecPtrGetPageOffset.
  symmetry. apply Z.div_mod. pose proof BLCKSZ_pos. lia.
Qed.

Lemma pointer_offset_nonneg (urp : Z) : 0 <= UndoRecPtrGetOffset urp.
Proof.
  unfold UndoRecPtrGetOffset. apply Z.land_nonneg. right.
  pose proof offset_bits_pos.
  assert (0 < 2 ^ UndoLogOffsetBits) by (apply Z.pow_pos_nonneg; lia). lia.
Qed.

(** ** Releasing a record set *)

Lemma release_loop (a : list (option Z)) (bs : list Z) (k : nat) (w : World) :
  (forall i b, bs !! i = Some b -> a !! (k + i)%nat = Some (Some b)) ->
  for_each (seq k (length bs)) (fun i =>
    let* buffer := array_read a (Z.of_nat i) in
    emit (EvUnlockBuffer buffer) ;;
    emit (EvReleaseBuffer buffer)) w
  = Done (tt, with_trace (fun t => rev (flat_map unlock_and_release bs) ++ t) w).
Proof.
  revert k w. induction bs as [|b bs IH]; intros k w Ha.
  - destruct w; reflexivity.
  - cbn [length seq for_each].
    unfold bind at 1. unfold bind at 1. unfold array_read.
    destruct (Z.ltb_spec (Z.of_nat k) 0); [lia|].
    rewrite Nat2Z.id.
    specialize (Ha 0%nat b eq_refl) as Hk. rewrite Nat.add_0_r in Hk. rewrite Hk.
    cbn [ret emit modify bind].
    rewrite IH.
    + destruct w; unfold with_trace; cbn. rewrite <- !app_assoc. reflexivity.
    + intros i b' Hi. specialize (Ha (S i) b' Hi).
      rewrite <- Ha. f_equal. lia.
Qed.

Lemma put_loop (cs : list UndoRecordSetChunk) (w : World) :
  for_each cs (fun c => UndoLogPut (chunk_slot c)) w
  = Done (tt, with_free_logs (fun fl => rev (map chunk_slot cs) ++ fl)
                (with_trace (fun t =>
                   rev (map (fun c => EvUndoLogPut (chunk_slot c)) cs) ++ t) w)).
Proof.
  revert w. induction cs as [|c cs IH]; intros w.
  - destruct w; reflexivity.
  - cbn [for_each]. unfold bind at 1. unfold UndoLogPut at 1.
    cbn [bind emit modify]. rewrite IH.
    destruct w; unfold with_trace, with_free_logs; cbn.
    rewrite <- !app_assoc. reflexivity.
Qed.

(** The fields of a world that was built from another one, without
    unfolding that one. *)
Ltac project_fields :=
  lazy beta iota zeta delta
    [InRecovery slots free_logs pool heap UndoRecordSetList UndoRecordSetContext
     trace with_slots with_free_logs with_pool with_heap with_list with_context
     with_trace].

(** C6: [UndoRelease] unlocks and releases each of the [nbuffers] pinned
    buffers, in order, whatever [closed] is.  If [closed] is set it then
    returns the log of every chunk to the free list, takes the record set
    off [UndoRecordSetList] and frees it; if [closed] is not set it returns
    no log and leaves the record set allocated, with [nbuffers] zero, and
    the list as it was. *)
Theorem UndoRelease_spec (w : World) (urs : nat) (r : UndoRecordSet) (bs : list Z) :
  heap w !! urs = Some (Some r) ->
  nbuffers r = Z.of_nat (length bs) ->
  take (length bs) (buffers r) = map Some bs ->
  tpost (UndoRelease urs) w (fun _ w' =>
    rev (trace w')
      = rev (trace w) ++ flat_map unlock_and_release bs
        ++ (if closed r
            then map (fun c => EvUndoLogPut (chunk_slot c)) (chunks r) ++ [EvPfree urs]
            else []) /\
    pool w' = pool w /\ slots w' = slots w /\
    if closed r then
      heap w' = <[urs := None]> (heap w) /\
      UndoRecordSetList w' = filter (fun u => u <> urs) (UndoRecordSetList w) /\
      free_logs w' = rev (map chunk_slot (chunks r)) ++ free_logs w
    else
      heap w' = <[urs := Some (set_nbuffers 0 r)]> (heap w) /\
      UndoRecordSetList w' = UndoRecordSetList w /\
      free_logs w' = free_logs w).
Proof.
  intros Hr Hn Hbs.
  assert (Ha : forall i b, bs !! i = Some b -> buffers r !! (0 + i)%nat = Some (Some b)).
  { intros i b Hi. cbn.
    assert (Hlt : (i < length bs)%nat) by (eapply lookup_lt_Some; eauto).
    rewrite <- (lookup_take_lt (buffers r) (length bs) i) by exact Hlt.
    rewrite Hbs, list_lookup_fmap, Hi. reflexivity. }
  unfold UndoRelease, tpost.
  unfold bind at 1. unfold deref at 1. unfold bind at 1, gets at 1. rewrite Hr.
  cbn [ret]. rewrite Hn, Nat2Z.id.
  unfold bind at 1. rewrite (release_loop _ _ _ _ Ha).
  unfold bind at 1. unfold store at 1. cbn [modify].
  destruct (closed r); cbn [when].
  - unfold bind at 1. rewrite put_loop.
    cbn [bind modify emit].
    eexists _, _. split; [reflexivity|].
    split; [|split; [|split; [|split; [|split]]]]; project_fields.
    + cbn [rev]. rewrite !rev_app_distr. rewrite !rev_involutive.
      rewrite <- !app_assoc. reflexivity.
    + reflexivity.
    + reflexivity.
    + apply list_insert_insert_eq.
    + reflexivity.
    + reflexivity.
  - eexists _, _. split; [reflexivity|].
    split; [|split; [|split; [|split; [|split]]]]; project_fields.
    + rewrite rev_app_distr, rev_involutive, app_nil_r. reflexivity.
    + reflexivity.
    + reflexivity.
    + reflexivity.
    + reflexivity.
    + reflexivity.
Qed.

(** ** Rules for [wp] *)

Section Frames.
Variable bad : option failure.

Lemma wp_bind {A B} (m : M A) (k : A -> M B) w Q :
  wp bad m w (fun a w' => wp bad (k a) w' Q) -> wp bad (bind m k) w Q.
Proof.
  unfold wp, bind. destruct (m w) as [[a w']|fl]; auto.
Qed.

Lemma wp_ret {A} (a : A) w (Q : A -> World -> Prop) : Q a w -> wp bad (ret a) w Q.
Proof. auto. Qed.

Lemma wp_gets {A} (g : World -> A) w (Q : A -> World -> Prop) :
  Q (g w) w -> wp bad (gets g) w Q.
Proof. auto. Qed.

Lemma wp_modify (g : World -> World) w (Q : unit -> World -> Prop) :
  Q tt (g w) -> wp bad (modify g) w Q.
Proof. auto. Qed.

Lemma wp_fail {A} (fl : failure) w (Q : A -> World -> Prop) :
  Some fl <> bad -> wp bad (fail fl) w Q.
Proof. auto. Qed.

Lemma wp_lift {A} (o : outcome A) w (Q : A -> World -> Prop) :
  match o with Done a => Q a w | Fail fl => Some fl <> bad end ->
  wp bad (lift o) w Q.
Proof. unfold wp, lift. destruct o; auto. Qed.

Lemma wp_mono {A} (m : M A) w (Q Q' : A -> World -> Prop) :
  wp bad m w Q -> (forall a w', Q a w' -> Q' a w') -> wp bad m w Q'.
Proof. unfold wp. destruct (m w) as [[a w']|fl]; auto. Qed.

Lemma wp_done {A} (m : M A) w (Q : A -> World -> Prop) a w' :
  wp bad m w Q -> m w = Done (a, w') -> Q a w'.
Proof. unfold wp. intros H E. rewrite E in H. exact H. Qed.

Lemma wp_not_bad {A} (m : M A) w (Q : A -> World -> Prop) fl :
  wp bad m w Q -> m w = Fail fl -> Some fl <> bad.
Proof. unfold wp. intros H E. rewrite E in H. exact H. Qed.

(** [bad] is no failure at all, or the assertion of [UndoAllocate]. *)
Hypothesis bad_cases :
  bad = None \/ bad = Some (AssertFailed "urs->nbuffers == 0").

Lemma not_bad_undefined s : Some (Undefined s) <> bad.
Proof. destruct bad_cases as [-> | ->]; discriminate. Qed.

Lemma not_bad_error s : Some (ElogError s) <> bad.
Proof. destruct bad_cases as [-> | ->]; discriminate. Qed.

Lemma not_bad_diverges : Some Diverges <> bad.
Proof. destruct bad_cases as [-> | ->]; discriminate. Qed.

Lemma not_bad_assert s :
  s <> "urs->nbuffers == 0"%string -> Some (AssertFailed s) <> bad.
Proof. intros Hs. destruct bad_cases as [-> | ->]; congruence. Qed.

Ltac not_bad :=
  first [ apply not_bad_undefined | apply not_bad_error | apply not_bad_diverges
        | apply not_bad_assert; discriminate ].

Ltac wp_step :=
  lazymatch goal with
  | |- wp _ (bind _ _) _ _ => apply wp_bind
  | |- wp _ (ret _) _ _ => apply wp_ret
  | |- wp _ (gets _) _ _ => apply wp_gets
  | |- wp _ (modify _) _ _ => apply wp_modify
  | |- wp _ (emit _) _ _ => apply wp_modify
  | |- wp _ (fail _) _ _ => apply wp_fail; not_bad
  | |- wp _ (lift (Assert ?c _)) _ _ =>
      apply wp_lift; destruct c eqn:?; cbn [Assert]; [ | not_bad ]
  | |- wp _ (when ?b _) _ _ => destruct b eqn:?; cbn [when]
  | |- wp _ (if ?b then _ else _) _ _ => destruct b eqn:?
  | |- wp _ (match ?x with _ => _ end) _ _ => destruct x eqn:?
  end.

Ltac private_leaf :=
  unfold private, with_trace, with_pool, with_slots, with_free_logs in *;
  cbn in *; congruence.

(** *** Calls that leave the private memory alone *)

Local Abbreviation ext := (leaves_private bad).

Lemma ext_array_read a i : ext (array_read a i).
Proof. intros w. unfold array_read. repeat wp_step. reflexivity. Qed.

Lemma ext_array_write a i v : ext (array_write a i v).
Proof. intros w. unfold array_write. repeat wp_step. reflexivity. Qed.

Lemma ext_BufferGetPage b : ext (BufferGetPage b).
Proof. intros w. unfold BufferGetPage. repeat wp_step. reflexivity. Qed.

Lemma ext_BufferGetTag b : ext (BufferGetTag b).
Proof. intros w. unfold BufferGetTag. repeat wp_step. reflexivity. Qed.

Lemma ext_set_page b pg : ext (set_page b pg).
Proof. intros w. unfold set_page. repeat wp_step. reflexivity. Qed.

(** Sequencing two such calls. *)
Lemma ext_bind {A B} (m : M A) (k : A -> M B) :
  ext m -> (forall a, ext (k a)) -> ext (bind m k).
Proof.
  intros Hm Hk w. apply wp_bind. eapply wp_mono; [apply Hm|].
  intros a w1 H1. eapply wp_mono; [apply Hk|].
  intros b w2 H2. cbv beta in *. congruence.
Qed.

Lemma ext_ret {A} (a : A) : ext (ret a).
Proof. intros w. reflexivity. Qed.

Lemma ext_emit e : ext (emit e).
Proof. intros w. reflexivity. Qed.

Lemma ext_when b m : ext m -> ext (when b m).
Proof. intros H. destruct b; [exact H | apply ext_ret]. Qed.

Lemma ext_lift {A} (o : outcome A) :
  (forall fl, o = Fail fl -> Some fl <> bad) -> ext (lift o).
Proof.
  intros H w. apply wp_lift. destruct o; [reflexivity | apply H; reflexivity].
Qed.

Lemma ext_fail {A} fl : Some fl <> bad -> ext (@fail A fl).
Proof. intros H w. exact H. Qed.

Lemma ext_page_memcpy b off src : ext (page_memcpy b off src).
Proof.
  unfold page_memcpy. apply ext_bind; [apply ext_BufferGetPage | intros pg].
  apply ext_bind; [| intros; apply ext_set_page].
  apply ext_lift. unfold page_write. intros fl.
  destruct (_ && _); [discriminate|]. intros [= <-]. not_bad.
Qed.

Lemma ext_set_pd_lower b v : ext (set_pd_lower b v).
Proof.
  unfold set_pd_lower. apply ext_bind; [apply ext_BufferGetPage | intros; apply ext_set_page].
Qed.

Lemma ext_PageInit b : ext (PageInit b).
Proof.
  unfold PageInit. apply ext_bind; [apply ext_BufferGetPage | intros].
  apply ext_bind; [apply ext_set_page | intros; apply ext_emit].
Qed.

Lemma ext_PageSetLSN b v : ext (PageSetLSN b v).
Proof.
  unfold PageSetLSN. apply ext_bind; [apply ext_BufferGetPage | intros; apply ext_set_page].
Qed.

Lemma ext_gets {A} (g : World -> A) : ext (gets g).
Proof. intros w. reflexivity. Qed.

Lemma ext_modify g : (forall w, private (g w) = private w) -> ext (modify g).
Proof. intros H w. apply H. Qed.

Lemma ext_ReadBuffer rel blk zero : ext (ReadBufferWithoutRelcache rel blk zero).
Proof.
  unfold ReadBufferWithoutRelcache.
  apply ext_bind; [apply ext_gets | intros p].
  apply ext_bind; [| intros; apply ext_bind; [apply ext_emit | intros; apply ext_ret]].
  destruct (list_find _ p) as [[i d]|]; [apply ext_ret|].
  apply ext_bind; [apply ext_modify; reflexivity | intros; apply ext_ret].
Qed.

Lemma ext_XLogRegisterBuffer a b c : ext (XLogRegisterBuffer a b c).
Proof. apply ext_emit. Qed.

Lemma ext_XLogRegisterBufData a d : ext (XLogRegisterBufData a d).
Proof. apply ext_emit. Qed.

Lemma ext_slot_deref s : ext (slot_deref s).
Proof. intros w. unfold slot_deref. repeat wp_step. reflexivity. Qed.

Lemma ext_slot_store s v : ext (slot_store s v).
Proof. apply ext_modify. reflexivity. Qed.

Lemma ext_UndoLogGetForPersistence p : ext (UndoLogGetForPersistence p).
Proof.
  intros w. unfold UndoLogGetForPersistence. repeat wp_step; reflexivity.
Qed.

Lemma ext_UndoLogPut s : ext (UndoLogPut s).
Proof.
  unfold UndoLogPut. apply ext_bind; [apply ext_emit | intros; apply ext_modify; reflexivity].
Qed.

Lemma ext_UndoLogMarkFull s : ext (UndoLogMarkFull s).
Proof.
  unfold UndoLogMarkFull. apply ext_bind; [apply ext_slot_deref | intros].
  apply ext_bind; [apply ext_emit | intros; apply ext_slot_store].
Qed.

Lemma ext_UndoLogAdjustPhysicalRange a b c : ext (UndoLogAdjustPhysicalRange a b c).
Proof.
  unfold UndoLogAdjustPhysicalRange.
  apply ext_bind; [apply ext_emit | intros; apply ext_modify; reflexivity].
Qed.

Lemma ext_UndoLogGetSlot a : ext (UndoLogGetSlot a).
Proof. intros w. unfold UndoLogGetSlot. repeat wp_step; reflexivity. Qed.

Lemma ext_for_each {A} (xs : list A) (body : A -> M unit) :
  (forall x, ext (body x)) -> ext (for_each xs body).
Proof.
  intros H. induction xs as [|x xs IH]; cbn [for_each]; [apply ext_ret|].
  apply ext_bind; [apply H | intros; apply IH].
Qed.

Lemma ext_append_bytes_loop fuel st data size :
  ext (append_bytes_loop fuel st data size).
Proof.
  revert st size. induction fuel as [|fuel IH]; intros st size;
    cbn [append_bytes_loop]; (destruct (size <=? 0); [apply ext_ret|]).
  - apply ext_fail; not_bad.
  - apply ext_bind; [apply ext_array_read | intros buffer].
    apply ext_bind; [apply ext_BufferGetPage | intros _].
    apply ext_bind.
    { destruct (negb _); [|apply ext_ret].
      apply ext_bind; [apply ext_emit | intros].
      apply ext_bind; [apply ext_gets | intros].
      apply ext_bind; [apply ext_when, ext_XLogRegisterBuffer | intros; apply ext_ret]. }
    intros st1.
    apply ext_bind; [apply ext_set_pd_lower | intros].
    apply ext_bind; [apply ext_page_memcpy | intros]. apply IH.
Qed.

Lemma ext_append_bytes st data : ext (append_bytes st data).
Proof. apply ext_append_bytes_loop. Qed.

Lemma ext_find_buffer_loop bufs log block i n : ext (find_buffer_loop bufs log block i n).
Proof.
  revert i. induction n as [|n IH]; intros i; cbn [find_buffer_loop]; [apply ext_ret|].
  apply ext_bind; [apply ext_array_read | intros buffer].
  apply ext_bind; [apply ext_BufferGetTag | intros [rel blk]].
  destruct (_ && _); [apply ext_ret | apply IH].
Qed.

(** *** Calls on a record set that stay within a frame *)

Section Keeps.
Context {B : Type} (f : UndoRecordSet -> B) (u : nat) (w0 : World).

Local Abbreviation keeps' := (keeps bad f u w0).
Local Abbreviation known' := (known f u w0).

Lemma frame_private w w' : private w' = private w -> frame f u w0 w -> frame f u w0 w'.
Proof.
  unfold private, frame. intros [= Hh Hl Hc]. rewrite Hh, Hl, Hc. auto.
Qed.

Lemma keeps_ext {A} (m : M A) : ext m -> keeps' m (fun _ => True).
Proof.
  intros Hm w Hw. eapply wp_mono; [apply Hm|].
  intros a w' Hp. split; [exact (frame_private w w' Hp Hw) | exact I].
Qed.

Lemma keeps_bind {A C} (m : M A) (k : A -> M C) P Q :
  keeps' m P -> (forall a, P a -> keeps' (k a) Q) -> keeps' (bind m k) Q.
Proof.
  intros Hm Hk w Hw. apply wp_bind. eapply wp_mono; [apply Hm, Hw|].
  intros a w1 [H1 Ha]. apply Hk; assumption.
Qed.

Lemma keeps_ret {A} (a : A) (P : A -> Prop) : P a -> keeps' (ret a) P.
Proof. intros Ha w Hw. split; assumption. Qed.

Lemma keeps_weaken {A} (m : M A) (P Q : A -> Prop) :
  keeps' m P -> (forall a, P a -> Q a) -> keeps' m Q.
Proof.
  intros Hm HPQ w Hw. eapply wp_mono; [apply Hm, Hw|].
  intros a w' [H1 H2]. auto.
Qed.

Lemma keeps_fail {A} fl (P : A -> Prop) : Some fl <> bad -> keeps' (fail fl) P.
Proof. intros H w Hw. exact H. Qed.

Lemma keeps_lift {A} (o : outcome A) (P : A -> Prop) :
  match o with Done a => P a | Fail fl => Some fl <> bad end -> keeps' (lift o) P.
Proof.
  intros H w Hw. apply wp_lift. destruct o; [split; assumption | exact H].
Qed.

Lemma keeps_when b m : keeps' m (fun _ => True) -> keeps' (when b m) (fun _ => True).
Proof. intros H. destruct b; [exact H | apply keeps_ret; exact I]. Qed.

Lemma keeps_for_each {A} (xs : list A) (body : A -> M unit) :
  (forall x, keeps' (body x) (fun _ => True)) ->
  keeps' (for_each xs body) (fun _ => True).
Proof.
  intros H. induction xs as [|x xs IH]; cbn [for_each]; [apply keeps_ret; exact I|].
  eapply keeps_bind; [apply H | intros; apply IH].
Qed.

Lemma keeps_deref : keeps' (deref u) known'.
Proof.
  intros w Hw. unfold deref. apply wp_bind, wp_gets.
  destruct (heap w !! u) as [[r|]|] eqn:E; [| apply wp_fail; not_bad ..].
  apply wp_ret. split; [exact Hw|].
  destruct Hw as (_ & _ & _ & _ & Hu). rewrite E in Hu.
  destruct (heap w0 !! u) as [[r0|]|] eqn:E0; [| discriminate ..].
  exists r0. auto.
Qed.

Lemma keeps_store r : known' r -> keeps' (store u r) (fun _ => True).
Proof.
  intros (r0 & H0 & Hf) w (Hl & Hc & Hlen & Hv & Hu).
  unfold store. apply wp_modify. split; [|exact I].
  unfold frame, with_heap; cbn.
  assert (Hlt : (u < length (heap w))%nat)
    by (rewrite Hlen; eapply lookup_lt_Some; eauto).
  repeat split; auto.
  - rewrite length_insert. exact Hlen.
  - intros v Hne. rewrite list_lookup_insert_ne by auto. apply Hv, Hne.
  - rewrite H0, list_lookup_insert_eq by exact Hlt. exact Hf.
Qed.

Lemma frame_refl w : frame f u w w.
Proof.
  unfold frame. repeat split; auto.
  destruct (heap w !! u) as [[r|]|]; reflexivity.
Qed.

End Keeps.

Lemma keeps_run {B A} (f : UndoRecordSet -> B) u (m : M A) P w :
  keeps bad f u w m P -> wp bad m w (fun a w' => frame f u w w' /\ P a).
Proof. intros H. apply H, frame_refl. Qed.

(** *** The calls of this layer, within their frames *)

Create HintDb ext.
#[local] Hint Resolve ext_array_read ext_array_write ext_BufferGetPage
  ext_BufferGetTag ext_set_page ext_ret ext_emit ext_page_memcpy
  ext_set_pd_lower ext_PageInit ext_PageSetLSN ext_gets ext_ReadBuffer
  ext_XLogRegisterBuffer ext_XLogRegisterBufData ext_slot_deref
  ext_slot_store ext_UndoLogGetForPersistence ext_UndoLogPut
  ext_UndoLogMarkFull ext_UndoLogAdjustPhysicalRange ext_UndoLogGetSlot
  ext_append_bytes ext_find_buffer_loop : ext.

Ltac known_set :=
  lazymatch goal with
  | H : known _ _ _ _ |- known _ _ _ _ =>
      let r0 := fresh "r0" in let H0 := fresh "H0" in let E := fresh "E" in
      destruct H as (r0 & H0 & E); exists r0; split; [exact H0 | exact E]
  end.

(** One step of a sequence: the first call is a dereference, a store, a
    call that leaves the private memory alone, or a pure computation. *)
Ltac keeps_step :=
  lazymatch goal with
  | |- keeps _ _ _ _ (bind (deref _) _) _ =>
      eapply keeps_bind; [apply keeps_deref | intros ? ?]
  | |- keeps _ _ _ _ (bind (store _ _) _) _ =>
      eapply keeps_bind; [apply keeps_store; known_set | intros _ _]
  | |- keeps _ _ _ _ (bind (lift (Assert ?c _)) _) _ =>
      eapply keeps_bind;
      [apply keeps_lift with (P := fun _ => True); destruct c; cbn [Assert];
       [exact I | not_bad]
      | intros _ _]
  | |- keeps _ _ _ _ (bind _ _) _ =>
      eapply keeps_bind; [apply keeps_ext; solve [auto with ext] | intros ? _]
  | |- keeps _ _ _ _ (store _ _) _ => apply keeps_store; known_set
  | |- keeps _ _ _ _ (ret _) _ => apply keeps_ret; exact I
  | |- keeps _ _ _ _ (fail _) _ => apply keeps_fail; not_bad
  | |- keeps _ _ _ _ (when _ _) _ => apply keeps_when
  | |- keeps _ _ _ _ (if ?b then _ else _) _ => destruct b eqn:?
  | |- keeps _ _ _ _ (match ?x with _ => _ end) _ => destruct x eqn:?
  | |- keeps _ _ _ _ _ _ => apply keeps_ext; solve [auto with ext]
  end.

Section Calls.
Context {C : Type} (g : bool * bool * Z * Z -> C) (u : nat) (w0 : World).

Local Abbreviation stable := (fun r => g (stable_fields r)).

Lemma keeps_reserve_buffer_array capacity :
  keeps bad stable u w0 (reserve_buffer_array u capacity) (fun _ => True).
Proof. unfold reserve_buffer_array. repeat keeps_step. Qed.

Lemma keeps_set_chunk i c :
  keeps bad stable u w0 (set_chunk u i c) (fun _ => True).
Proof. unfold set_chunk. repeat keeps_step. Qed.

Lemma keeps_get_chunk i :
  keeps bad stable u w0 (get_chunk u i) (fun _ => True).
Proof. unfold get_chunk. repeat keeps_step. Qed.

Lemma keeps_mark_chunk_closed i :
  keeps bad stable u w0 (mark_chunk_closed u i) (fun _ => True).
Proof.
  unfold mark_chunk_closed.
  keeps_step. eapply keeps_bind; [apply keeps_get_chunk | intros chunk _].
  do 5 keeps_step.
  eapply keeps_bind.
  { apply keeps_lift with (P := fun _ => True).
    unfold write_update_ops_header, Assert, obind.
    repeat (match goal with |- context [if ?b then _ else _] => destruct b end;
            try exact I; try not_bad). }
  intros ops0 _.
  eapply keeps_bind; [apply keeps_set_chunk | intros _ _].
  do 3 keeps_step.
  apply keeps_when.
  do 4 keeps_step.
  eapply keeps_bind.
  { apply keeps_lift with (P := fun _ => True).
    unfold write_update_ops_header, Assert, obind.
    repeat (match goal with |- context [if ?b then _ else _] => destruct b end;
            try exact I; try not_bad). }
  intros ops1 _.
  eapply keeps_bind; [apply keeps_set_chunk | intros _ _].
  repeat keeps_step.
Qed.

Lemma keeps_urst_header_size ty :
  keeps bad stable u w0 (lift (urst_header_size ty)) (fun _ => True).
Proof.
  apply keeps_lift. unfold urst_header_size.
  repeat (match goal with |- context [if ?b then _ else _] => destruct b end;
          try exact I; try not_bad).
Qed.

Lemma keeps_try_active_log data_size :
  keeps bad stable u w0 (try_active_log u data_size) (fun _ => True).
Proof.
  unfold try_active_log. keeps_step.
  destruct (slot a) as [s|]; [| keeps_step].
  keeps_step.
  eapply keeps_bind with (P := fun _ => True).
  { destruct (need_type_header a); [apply keeps_urst_header_size | keeps_step]. }
  intros ths _. keeps_step.
  destruct (_ <=? recent_end a); [keeps_step|].
  do 3 keeps_step.
  destruct (_ <=? slot_end a0); [keeps_step|].
  destruct (_ <=? UndoLogMaxSize); repeat keeps_step.
Qed.

Lemma keeps_start_new_chunk :
  keeps bad stable u w0 (start_new_chunk u) (fun _ => True).
Proof.
  unfold start_new_chunk. keeps_step. keeps_step. keeps_step.
  apply keeps_store.
  destruct (nchunks a =? max_chunks a); known_set.
Qed.

Lemma keeps_reserve_pass data_size :
  keeps bad stable u w0 (reserve_pass u data_size) (fun _ => True).
Proof.
  unfold reserve_pass.
  eapply keeps_bind; [apply keeps_try_active_log | intros [p|] _]; [keeps_step|].
  eapply keeps_bind; [apply keeps_start_new_chunk | intros _ _; keeps_step].
Qed.

Lemma keeps_reserve_physical_undo fuel data_size :
  keeps bad stable u w0 (reserve_physical_undo fuel u data_size) (fun _ => True).
Proof.
  induction fuel as [|fuel IH]; cbn [reserve_physical_undo]; [keeps_step|].
  eapply keeps_bind; [apply keeps_reserve_pass | intros [p|] _]; [keeps_step | exact IH].
Qed.

End Calls.

Section PinningCalls.
Context {C : Type} (g : bool * bool * Z -> C) (u : nat) (w0 : World).

Local Abbreviation lifecycle := (fun r => g (lifecycle_fields r)).

Lemma keeps_find_or_read_buffer log block :
  keeps bad lifecycle u w0 (find_or_read_buffer u log block) (fun _ => True).
Proof.
  unfold find_or_read_buffer. keeps_step. keeps_step.
  destruct a0 as [i|]; [keeps_step|].
  eapply keeps_bind;
    [exact (keeps_reserve_buffer_array (fun x => g (drop_nbuffers x)) u w0 _)
    | intros _ _].
  repeat keeps_step.
Qed.

Lemma keeps_UndoPrepareToMarkClosed :
  keeps bad lifecycle u w0 (UndoPrepareToMarkClosed u) (fun _ => True).
Proof.
  unfold UndoPrepareToMarkClosed. keeps_step.
  apply keeps_for_each. intros i.
  eapply keeps_bind;
    [exact (keeps_get_chunk (fun x => g (drop_nbuffers x)) u w0 _)
    | intros chunk _].
  keeps_step.
  eapply keeps_bind; [apply keeps_find_or_read_buffer | intros i0 _].
  eapply keeps_bind with (P := fun _ => True).
  { destruct (_ <=? _); [keeps_step | apply keeps_find_or_read_buffer]. }
  intros i1 _.
  exact (keeps_set_chunk (fun x => g (drop_nbuffers x)) u w0 _ _).
Qed.

Lemma keeps_pin_loop fuel relNode urp total_size :
  keeps bad lifecycle u w0 (pin_loop fuel u relNode urp total_size) (fun _ => True).
Proof.
  revert total_size. induction fuel as [|fuel IH]; intros total_size;
    cbn [pin_loop]; (destruct (total_size <=? 0); [keeps_step|]).
  - keeps_step.
  - do 4 keeps_step.
    eapply keeps_bind; [apply keeps_when; keeps_step | intros _ _]. apply IH.
Qed.

End PinningCalls.

(** *** What each call of the interface does to the private memory *)

Lemma wp_keeps_bind {B A C} (f : UndoRecordSet -> B) u w0 (m : M A) (k : A -> M C)
    (P : A -> Prop) w Q :
  frame f u w0 w ->
  keeps bad f u w0 m P ->
  (forall a w1, frame f u w0 w1 -> P a -> wp bad (k a) w1 Q) ->
  wp bad (bind m k) w Q.
Proof.
  intros Hw Hm Hk. apply wp_bind. eapply wp_mono; [apply Hm, Hw|].
  intros a w1 [H1 Ha]. apply Hk; assumption.
Qed.

Lemma frame_coarser {B C} (f : UndoRecordSet -> B) (g : UndoRecordSet -> C) u w0 w :
  (forall r r', f r = f r' -> g r = g r') ->
  frame f u w0 w -> frame g u w0 w.
Proof.
  intros Hfg (Hl & Hc & Hlen & Hv & Hu). unfold frame. repeat split; auto.
  destruct (heap w0 !! u) as [[r0|]|]; auto.
  destruct (heap w !! u) as [[r|]|]; auto.
Qed.

Lemma frame_lookup {B} (f : UndoRecordSet -> B) u w0 w r :
  frame f u w0 w -> heap w !! u = Some (Some r) -> known f u w0 r.
Proof.
  intros (_ & _ & _ & _ & Hu) E. rewrite E in Hu.
  destruct (heap w0 !! u) as [[r0|]|] eqn:E0; [| discriminate ..].
  exists r0. auto.
Qed.

Lemma wp_store_last {B} (f : UndoRecordSet -> B) u w0 w r :
  frame f u w0 w -> known f u w0 r ->
  wp bad (store u r) w (fun _ w' =>
    frame f u w0 w' /\ heap w' !! u = Some (Some r)).
Proof.
  intros Hw Hr. unfold store. apply wp_modify. split.
  - pose proof (keeps_store f u w0 r Hr w Hw) as H.
    unfold store, wp, modify in H. exact (proj1 H).
  - unfold with_heap; cbn. apply list_lookup_insert_eq.
    destruct Hw as (_ & _ & Hlen & _). destruct Hr as (r0 & H0 & _).
    rewrite Hlen. eapply lookup_lt_Some; eauto.
Qed.

Lemma UndoAllocate_frame fuel u data_size w :
  (bad = None \/ forall r, heap w !! u = Some (Some r) -> nbuffers r = 0) ->
  wp bad (UndoAllocate fuel u data_size) w (fun _ w' =>
    frame lifecycle_fields u w w').
Proof.
  intros Hpre. unfold UndoAllocate.
  eapply wp_keeps_bind with (f := fun r => id (stable_fields r));
    [apply frame_refl | apply keeps_reserve_physical_undo | intros begin w1 F1 _].
  eapply wp_keeps_bind; [exact F1 | apply keeps_deref | intros r w2 F2 K2].
  eapply wp_keeps_bind with (P := fun _ => True); [exact F2 | | intros ths w3 F3 _].
  { destruct (need_type_header r); [apply keeps_urst_header_size | keeps_step]. }
  eapply wp_keeps_bind;
    [exact F3 | apply keeps_reserve_buffer_array | intros _ w4 F4 _].
  eapply wp_keeps_bind; [exact F4 | apply keeps_deref | intros r4 w5 F5 K5].
  apply wp_bind, wp_lift.
  destruct (nbuffers r4 =? 0) eqn:En; cbn [Assert].
  2:{ destruct Hpre as [-> | Hpre]; [discriminate|].
      destruct K5 as (r0 & H0 & E). apply Hpre in H0.
      unfold id, stable_fields in E. injection E as _ _ _ E. lia. }
  assert (F : frame (fun r => id (lifecycle_fields r)) u w w5).
  { eapply frame_coarser; [|exact F5]. unfold id, stable_fields, lifecycle_fields.
    intros ? ? [= -> -> -> _]. reflexivity. }
  eapply wp_keeps_bind; [exact F | apply keeps_pin_loop | intros _ w6 F6 _].
  eapply wp_keeps_bind; [exact F6 | apply keeps_deref | intros r6 w7 F7 _].
  eapply wp_keeps_bind with (P := fun _ => True); [exact F7 | | intros _ w8 F8 _].
  { apply keeps_for_each. intros i. repeat keeps_step. }
  apply wp_ret. exact F8.
Qed.

Lemma UndoPrepareToMarkClosed_frame u w :
  wp bad (UndoPrepareToMarkClosed u) w (fun _ w' => frame lifecycle_fields u w w').
Proof.
  eapply wp_mono.
  - apply (keeps_UndoPrepareToMarkClosed id u w), frame_refl.
  - intros _ w' [H _]. exact H.
Qed.

Lemma UndoInsert_frame u first_block_id data w :
  wp bad (UndoInsert u first_block_id data) w (fun _ w' =>
    frame insert_fields u w w' /\
    (exists r, heap w !! u = Some (Some r)) /\
    forall r', heap w' !! u = Some (Some r') -> need_type_header r' = false).
Proof.
  unfold UndoInsert.
  apply wp_bind, wp_gets. apply wp_bind, wp_lift.
  destruct (negb (InRecovery w)); cbn [Assert]; [| not_bad].
  eapply wp_keeps_bind with (f := insert_fields);
    [apply frame_refl | apply keeps_deref | intros r w1 F1 K1].
  eapply wp_keeps_bind with (P := fun _ => True); [exact F1 | | intros s w2 F2 _].
  { destruct (slot r); keeps_step. }
  eapply wp_keeps_bind with (P := fun _ => True);
    [exact F2 | keeps_step | intros sl w3 F3 _].
  eapply wp_keeps_bind with (P := fun _ => True); [exact F3 | | intros st1 w4 F4 _].
  { destruct (need_chunk_header r); repeat keeps_step. }
  eapply wp_keeps_bind with (P := fun _ => True); [exact F4 | | intros st2 w5 F5 _].
  { destruct (need_type_header r); repeat keeps_step. }
  eapply wp_keeps_bind with (P := fun _ => True);
    [exact F5 | keeps_step | intros st3 w6 F6 _].
  eapply wp_keeps_bind with (P := fun _ => True);
    [exact F6 | keeps_step | intros _ w7 F7 _].
  eapply wp_keeps_bind with (P := fun _ => True);
    [exact F7 | keeps_step | intros sl' w8 F8 _].
  eapply wp_keeps_bind with (P := fun _ => True);
    [exact F8 | keeps_step | intros _ w9 F9 _].
  eapply wp_keeps_bind with (P := fun _ => True);
    [exact F9 | keeps_step | intros _ w10 F10 _].
  eapply wp_keeps_bind; [exact F10 | apply keeps_deref | intros r' w11 F11 K11].
  eapply wp_mono.
  { apply wp_store_last with (f := insert_fields) (w0 := w); [exact F11|].
    known_set. }
  cbv beta. intros _ w' [F E]. split; [exact F|].
  split; [destruct K1 as (r0 & H0 & _); eauto|].
  intros r'' E'. rewrite E in E'. injection E' as <-. reflexivity.
Qed.

Lemma UndoMarkClosed_frame u w :
  wp bad (UndoMarkClosed u) w (fun _ w' =>
    frame close_fields u w w' /\
    forall r', heap w' !! u = Some (Some r') -> closed r' = true).
Proof.
  unfold UndoMarkClosed.
  pose (g := fun x : bool * bool * Z * Z => let '(_, t, ty, n) := x in (t, ty, n)).
  eapply wp_keeps_bind with (f := fun r => g (stable_fields r));
    [apply frame_refl | apply keeps_deref | intros r w1 F1 K1].
  eapply wp_keeps_bind with (P := fun _ => True); [exact F1 | | intros _ w2 F2 _].
  { apply keeps_for_each. intros i. apply keeps_mark_chunk_closed. }
  eapply wp_keeps_bind; [exact F2 | apply keeps_deref | intros r' w3 F3 K3].
  eapply wp_mono.
  { apply wp_store_last with (f := fun r => g (stable_fields r)) (w0 := w);
      [exact F3|].
    known_set. }
  cbv beta. intros _ w' [F E]. split; [exact F|].
  intros r'' E'. rewrite E in E'. injection E' as <-. reflexivity.
Qed.

Lemma wp_ext_bind {A C} (m : M A) (k : A -> M C) w Q :
  leaves_private bad m ->
  (forall a w1, private w1 = private w -> wp bad (k a) w1 Q) ->
  wp bad (bind m k) w Q.
Proof.
  intros Hm Hk. apply wp_bind. eapply wp_mono; [apply Hm|].
  intros a w1 H1. apply Hk, H1.
Qed.

Lemma UndoRelease_effect u w :
  wp bad (UndoRelease u) w (fun _ w' =>
    UndoRecordSetContext w' = UndoRecordSetContext w /\
    exists r, heap w !! u = Some (Some r) /\
      if closed r then
        heap w' = <[u := None]> (heap w) /\
        UndoRecordSetList w' = filter (fun v => v <> u) (UndoRecordSetList w)
      else
        heap w' = <[u := Some (set_nbuffers 0 r)]> (heap w) /\
        UndoRecordSetList w' = UndoRecordSetList w).
Proof.
  unfold UndoRelease. unfold deref at 1.
  apply wp_bind, wp_bind, wp_gets.
  destruct (heap w !! u) as [[r|]|] eqn:E; [| apply wp_fail; not_bad ..].
  apply wp_ret.
  eapply wp_ext_bind.
  { apply ext_for_each. intros i.
    apply ext_bind; [apply ext_array_read | intros].
    apply ext_bind; [apply ext_emit | intros; apply ext_emit]. }
  intros _ w1 [= Hh Hl Hc].
  apply wp_bind, wp_modify.
  destruct (closed r) eqn:Ecl; cbn [when].
  - eapply wp_ext_bind; [apply ext_for_each; intros; apply ext_UndoLogPut|].
    intros _ w2 [= Hh2 Hl2 Hc2].
    apply wp_bind, wp_modify. apply wp_bind, wp_modify. apply wp_modify.
    unfold with_heap, with_list, with_trace in *; cbn in *.
    split; [congruence|]. exists r. split; [reflexivity|]. rewrite Ecl.
    rewrite Hh2, Hl2, Hh, Hl. split; [apply list_insert_insert_eq | reflexivity].
  - apply wp_ret. unfold with_heap; cbn.
    split; [exact Hc|]. exists r. split; [reflexivity|]. rewrite Ecl.
    rewrite Hh, Hl. split; reflexivity.
Qed.

Lemma UndoCreate_effect type persistence w :
  wp bad (UndoCreate type persistence) w (fun u w' =>
    u = length (heap w) /\
    UndoRecordSetContext w' = true /\
    UndoRecordSetList w' = u :: UndoRecordSetList w /\
    exists r, heap w' = heap w ++ [Some r] /\
      closed r = false /\ need_type_header r = true /\ nbuffers r = 0).
Proof.
  unfold UndoCreate.
  apply wp_bind, wp_gets. apply wp_bind.
  eapply wp_mono with (Q := fun _ w1 =>
    UndoRecordSetContext w1 = true /\ heap w1 = heap w /\
    UndoRecordSetList w1 = UndoRecordSetList w).
  { destruct (UndoRecordSetContext w) eqn:Ec; cbn [negb when].
    - apply wp_ret. auto.
    - apply wp_modify. unfold with_context; cbn. auto. }
  intros _ w1 (Hc & Hh & Hl).
  apply wp_bind, wp_gets. apply wp_bind, wp_lift.
  destruct (urst_header_size type) as [ths|fl] eqn:Eths.
  2:{ revert Eths. unfold urst_header_size.
      repeat (match goal with |- context [if ?b then _ else _] => destruct b end;
              try discriminate). intros [= <-]. not_bad. }
  apply wp_bind, wp_modify. apply wp_bind, wp_lift.
  match goal with |- match Assert ?c _ with _ => _ end => destruct c end;
    cbn [Assert]; [| not_bad].
  apply wp_bind, wp_modify, wp_ret.
  unfold with_heap, with_list; cbn. rewrite Hh, Hl.
  repeat split; auto. eexists. split; [reflexivity|]. auto.
Qed.
End Frames.

(** ** The life of record sets over a sequence of calls *)

Lemma frame_status {B} (f : UndoRecordSet -> B) u w w' :
  (forall r r', f r = f r' -> closed r = closed r') ->
  frame f u w w' ->
  map status_of (heap w') = map status_of (heap w) /\
  (forall v, (exists r, heap w' !! v = Some (Some r))
             <-> (exists r, heap w !! v = Some (Some r))).
Proof.
  intros Hf (_ & _ & Hlen & Hv & Hu).
  assert (Hs : forall v, status_of <$> heap w' !! v = status_of <$> heap w !! v).
  { intros v. destruct (decide (v = u)) as [->|Hne]; [| rewrite Hv; auto].
    destruct (heap w !! u) as [[r0|]|]; destruct (heap w' !! u) as [[r|]|];
      try discriminate; try reflexivity.
    cbn. rewrite (Hf _ _ Hu). reflexivity. }
  split.
  - apply list_eq. intros v. rewrite !list_lookup_fmap. apply Hs.
  - intros v. destruct (decide (v = u)) as [->|Hne]; [| rewrite Hv; tauto].
    destruct (heap w !! u) as [[r0|]|]; destruct (heap w' !! u) as [[r|]|];
      try discriminate; split; intros [x Hx]; try discriminate; eauto.
Qed.

Lemma tracked_frame {B} (f : UndoRecordSet -> B) u st w w' :
  (forall r r', f r = f r' -> closed r = closed r') ->
  frame f u w w' -> tracked st w -> tracked st w'.
Proof.
  intros Hf Hfr (Hst & Hl & Hc).
  destruct (frame_status f u w w' Hf Hfr) as (Hs & Hlive).
  destruct Hfr as (El & Ec & Elen & _).
  split; [congruence|]. split.
  - intros v. rewrite El, Hlive. apply Hl.
  - intros Hne. rewrite Ec. apply Hc. intros E. apply Hne.
    apply length_zero_iff_nil. rewrite Elen, E. reflexivity.
Qed.

Lemma no_bad : (None : option failure) = None \/
               None = Some (AssertFailed "urs->nbuffers == 0").
Proof. left. reflexivity. Qed.

Lemma status_insert (h : list (option UndoRecordSet)) u o :
  map status_of (<[u := o]> h) = <[u := status_of o]> (map status_of h).
Proof. apply list_fmap_insert. Qed.

Lemma tracked_step fuel c st w w' :
  tracked st w -> run_call fuel c w = Done (tt, w') -> tracked (track st c) w'.
Proof.
  intros Ht Hrun. destruct c as [ty p | u n | u b d | u | u | u]; cbn [run_call track] in *.
  - (* UndoCreate *)
    unfold bind in Hrun.
    destruct (UndoCreate ty p w) as [[u w1]|] eqn:E; [|discriminate].
    injection Hrun as ->.
    pose proof (wp_done None _ _ _ _ _ (UndoCreate_effect None no_bad ty p w) E)
      as (-> & Hc & Hl & r & Hh & Hcl & _).
    destruct Ht as (Hst & Hlive & _).
    split; [| split].
    + rewrite Hh, map_app, Hst. cbn. rewrite Hcl. reflexivity.
    + intros v. rewrite Hl, Hh, elem_of_cons, Hlive. split.
      * intros [-> | [x Hx]].
        -- exists r. apply list_lookup_middle. reflexivity.
        -- exists x. apply lookup_app_l_Some, Hx.
      * intros [x Hx]. apply lookup_app_Some in Hx as [Hx | [Hge Hx]]; [eauto|].
        left. apply list_lookup_singleton_Some in Hx as [Hx _]. lia.
    + intros _. exact Hc.
  - (* UndoAllocate *)
    unfold bind in Hrun.
    destruct (UndoAllocate fuel u n w) as [[q w1]|] eqn:E; [|discriminate].
    injection Hrun as ->.
    pose proof (wp_done None _ _ _ _ _
                  (UndoAllocate_frame None no_bad fuel u n w (or_introl eq_refl)) E) as F.
    eapply tracked_frame; [| exact F | exact Ht].
    intros ? ? [= -> _ _]. reflexivity.
  - (* UndoInsert *)
    pose proof (wp_done None _ _ _ _ _ (UndoInsert_frame None no_bad u b d w) Hrun)
      as (F & _ & _).
    eapply tracked_frame; [| exact F | exact Ht].
    intros ? ? [= -> _ _]. reflexivity.
  - (* UndoPrepareToMarkClosed *)
    pose proof (wp_done None _ _ _ _ _
                  (UndoPrepareToMarkClosed_frame None no_bad u w) Hrun) as F.
    eapply tracked_frame; [| exact F | exact Ht].
    intros ? ? [= -> _ _]. reflexivity.
  - (* UndoMarkClosed *)
    pose proof (wp_done None _ _ _ _ _ (UndoMarkClosed_frame None no_bad u w) Hrun)
      as [(El & Ec & Elen & Hv & Hu) Hcl].
    destruct Ht as (Hst & Hlive & Hc).
    assert (Hs : map status_of (heap w')
                 = match st !! u with Some Open => <[u := Closed]> st | _ => st end).
    { apply list_eq. intros v. rewrite list_lookup_fmap.
      destruct (decide (v = u)) as [->|Hne].
      - rewrite <- Hst, list_lookup_fmap.
        destruct (heap w !! u) as [[r0|]|] eqn:E0;
          destruct (heap w' !! u) as [[r|]|] eqn:E1; try discriminate; cbn.
        + rewrite (Hcl r eq_refl).
          destruct (closed r0) eqn:Ecl.
          * rewrite list_lookup_fmap, E0. cbn. rewrite Ecl. reflexivity.
          * rewrite list_lookup_insert_eq; [reflexivity|].
            rewrite length_map. eapply lookup_lt_Some; eauto.
        + rewrite list_lookup_fmap, E0. reflexivity.
        + rewrite list_lookup_fmap, E0. reflexivity.
      - rewrite Hv by auto.
        destruct (st !! u) as [[| |]|];
          rewrite ?list_lookup_insert_ne by auto;
          rewrite <- Hst, list_lookup_fmap; reflexivity. }
    split; [exact Hs|]. split.
    + intros v. rewrite El, Hlive.
      destruct (decide (v = u)) as [->|Hne]; [| rewrite Hv; tauto].
      destruct (heap w !! u) as [[r0|]|]; destruct (heap w' !! u) as [[r|]|];
        try discriminate; split; intros [x Hx]; try discriminate; eauto.
    + intros Hne. rewrite Ec. apply Hc. intros E. apply Hne.
      apply length_zero_iff_nil. rewrite Elen, E. reflexivity.
  - (* UndoRelease *)
    pose proof (wp_done None _ _ _ _ _ (UndoRelease_effect None no_bad u w) Hrun)
      as (Ec & r & Hr & Heff).
    destruct Ht as (Hst & Hlive & Hc).
    assert (Hst_u : st !! u = Some (if closed r then Closed else Open)).
    { rewrite <- Hst, list_lookup_fmap, Hr. reflexivity. }
    assert (Hlt : (u < length (heap w))%nat) by (eapply lookup_lt_Some; eauto).
    rewrite Hst_u.
    destruct (closed r) eqn:Ecl; destruct Heff as [Hh Hl].
    + split; [| split].
      * rewrite Hh, status_insert, Hst. reflexivity.
      * intros v. rewrite Hl, Hh, list_elem_of_filter, Hlive.
        destruct (decide (v = u)) as [->|Hne].
        -- rewrite list_lookup_insert_eq by exact Hlt.
           split; [tauto | intros [x Hx]; discriminate].
        -- rewrite list_lookup_insert_ne by auto. tauto.
      * intros Hne. rewrite Ec. apply Hc. intros E. rewrite E in Hlt. cbn in Hlt. lia.
    + split; [| split].
      * rewrite Hh, status_insert, Hst. cbn. rewrite Ecl.
        apply list_insert_id. exact Hst_u.
      * intros v. rewrite Hl, Hh, Hlive.
        destruct (decide (v = u)) as [->|Hne].
        -- rewrite list_lookup_insert_eq by exact Hlt. split; eauto.
        -- rewrite list_lookup_insert_ne by auto. tauto.
      * intros Hne. rewrite Ec. apply Hc. intros E. rewrite E in Hlt. cbn in Hlt. lia.
Qed.

Lemma tracked_run fuel cs st w w' :
  tracked st w -> run fuel cs w = Done (tt, w') ->
  tracked (fold_left track cs st) w'.
Proof.
  revert st w. induction cs as [|c cs IH]; intros st w Ht Hrun.
  - injection Hrun as <-. exact Ht.
  - unfold run in Hrun. cbn [for_each] in Hrun. unfold bind in Hrun.
    destruct (run_call fuel c w) as [[[] w1]|] eqn:E; [|discriminate].
    cbn [fold_left]. eapply IH; [| exact Hrun].
    eapply tracked_step; eauto.
Qed.

Lemma tracked_released st w :
  tracked st w ->
  (UndoRecordSetList w = [] <->
   forallb (fun s => match s with Freed => true | _ => false end) st = true).
Proof.
  intros (Hst & Hlive & _). rewrite forallb_forall. split.
  - intros Hnil s Hin. rewrite <- Hst in Hin. apply in_map_iff in Hin as (o & <- & Ho).
    destruct o as [r|]; [|reflexivity]. exfalso.
    apply list_elem_of_In, list_elem_of_lookup in Ho as [u Hu].
    assert (Hin : u ∈ UndoRecordSetList w) by (apply Hlive; eauto).
    rewrite Hnil in Hin. inversion Hin.
  - intros Hall. destruct (UndoRecordSetList w) as [|u l] eqn:El; [reflexivity|].
    exfalso. destruct (proj1 (Hlive u)) as [r Hr]; [rewrite ?El; left|].
    assert (Hs : In (status_of (Some r)) st).
    { rewrite <- Hst. apply in_map. apply list_elem_of_In.
      eapply list_elem_of_lookup_2; eauto. }
    apply Hall in Hs. cbn in Hs. destruct (closed r); discriminate.
Qed.

(** C9: the exit callback raises the fatal error exactly when the list of
    live record sets is not empty; and for a backend that made the calls
    [cs] since it started, the list is empty exactly when every record set
    created by [UndoCreate] was closed and then released, so that process
    exit is clean in that case and is the fatal error in every other. *)
Theorem exit_is_fatal_iff_a_record_set_is_left
    (fuel : nat) (cs : list Call) (w0 w : World) :
  heap w0 = [] ->
  UndoRecordSetList w0 = [] ->
  UndoRecordSetContext w0 = false ->
  run fuel cs w0 = Done (tt, w) ->
  (forall w',
     AtProcExit_UndoRecordSet w'
       = Fail (ElogPanic "undo record set not closed before backend exit")
     <-> UndoRecordSetList w' <> []) /\
  (UndoRecordSetList w = [] <-> all_released cs = true) /\
  shmem_exit w
    = if all_released cs then Done (tt, w)
      else Fail (ElogPanic "undo record set not closed before backend exit").
Proof.
  intros Hh Hl Hc Hrun.
  assert (Ht0 : tracked [] w0).
  { split; [rewrite Hh; reflexivity|]. split.
    - intros u. rewrite Hl, Hh. split; [intros Hin; inversion Hin|].
      intros [r Hr]. discriminate.
    - intros Hne. congruence. }
  pose proof (tracked_run fuel cs [] w0 w Ht0 Hrun) as Ht.
  pose proof (tracked_released _ _ Ht) as Hrel.
  fold (statuses cs) in Ht, Hrel. fold (all_released cs) in Hrel.
  split; [| split; [exact Hrel|]].
  - intros w'. unfold AtProcExit_UndoRecordSet, bind, gets.
    destruct (UndoRecordSetList w'); split; try discriminate; try congruence.
    reflexivity.
  - unfold shmem_exit, bind, gets.
    destruct (UndoRecordSetContext w) eqn:Ec; cbn [when].
    + unfold AtProcExit_UndoRecordSet, bind, gets.
      destruct (UndoRecordSetList w) as [|u l] eqn:El.
      * rewrite (proj1 Hrel eq_refl). reflexivity.
      * destruct (all_released cs); [|reflexivity].
        destruct Hrel as [_ Hrel]. specialize (Hrel eq_refl). discriminate.
    + destruct Ht as (Hst & _ & Hctx).
      destruct (heap w) as [|o h] eqn:Ehw.
      * unfold all_released. fold (statuses cs). rewrite <- Hst. reflexivity.
      * assert (true = false) by (rewrite <- Hctx; [exact Ec | discriminate]).
        discriminate.
Qed.

(** ** One pass of [reserve_physical_undo] *)

Lemma try_active_log_spec (w : World) (u : nat) (r : UndoRecordSet) (s : nat)
    (sl : UndoLogSlot) (ths data_size : Z) :
  heap w !! u = Some (Some r) ->
  slot r = Some s ->
  slots w !! s = Some sl ->
  1 <= nchunks r ->
  (if need_type_header r then urst_header_size (urs_type r) else Done 0) = Done ths ->
  let total_size :=
    uint64 (data_size
            + (if need_chunk_header r then UndoRecordSetChunkHeaderSize else 0)
            + ths) in
  let new_insert := UndoLogOffsetPlusUsableBytes (meta_insert sl) total_size in
  let here := MakeUndoRecPtr (logno sl) (meta_insert sl) in
  try_active_log u data_size w
  = Done (if new_insert <=? recent_end r then (Some here, w)
          else if new_insert <=? slot_end sl then (Some here, refreshed u r s sl w)
          else if new_insert <=? UndoLogMaxSize
               then (Some here, extended sl new_insert (refreshed u r s sl w))
          else (None, given_up u r s sl (refreshed u r s sl w))).
Proof.
  intros Hr Hslot Hsl Hn Hths. cbv zeta.
  unfold try_active_log. unfold bind at 1. unfold deref.
  unfold bind at 1, gets at 1. rewrite Hr. cbn [ret]. rewrite Hslot.
  unfold bind at 1. destruct (Z.leb_spec 1 (nchunks r)); [|lia]. cbn [Assert lift].
  unfold bind at 1.
  assert (E : (if need_type_header r then lift (urst_header_size (urs_type r))
               else ret 0) w = Done (ths, w)).
  { destruct (need_type_header r); [rewrite Hths; reflexivity|].
    injection Hths as <-. reflexivity. }
  rewrite E. clear E.
  unfold bind at 1. unfold slot_deref. unfold bind at 1, gets at 1. rewrite Hsl.
  cbn [ret].
  destruct (_ <=? recent_end r); [reflexivity|].
  unfold bind at 1. cbn [emit modify]. unfold bind at 1. cbn [store modify].
  unfold bind at 1. cbn [emit modify]. fold (refreshed u r s sl w).
  destruct (_ <=? slot_end sl); [reflexivity|].
  destruct (_ <=? UndoLogMaxSize); [reflexivity|].
  unfold bind at 1. unfold UndoLogMarkFull. unfold bind at 1. unfold slot_deref.
  unfold bind at 1, gets at 1.
  assert (Hsl' : slots (refreshed u r s sl w) !! s = Some sl) by exact Hsl.
  rewrite Hsl'. cbn [ret]. unfold bind at 1. cbn [emit modify].
  cbn [slot_store modify]. unfold bind at 1. unfold bind at 1, gets at 1.
  match goal with |- context [heap ?W !! u] =>
    assert (Hr' : heap W !! u = Some (Some (set_recent_end (slot_end sl) r))) end.
  { cbn. apply list_lookup_insert_eq. eapply lookup_lt_Some; eauto. }
  rewrite Hr'. cbn [ret]. unfold bind at 1. cbn [store modify ret].
  reflexivity.
Qed.

Lemma try_active_log_idle (w : World) (u : nat) (r : UndoRecordSet) (data_size : Z) :
  heap w !! u = Some (Some r) ->
  slot r = None ->
  try_active_log u data_size w = Done (None, w).
Proof.
  intros Hr Hslot. unfold try_active_log. unfold bind at 1. unfold deref.
  unfold bind at 1, gets at 1. rewrite Hr. cbn [ret]. rewrite Hslot. reflexivity.
Qed.

Lemma start_new_chunk_spec (w : World) (u : nat) (r : UndoRecordSet) (i s : nat)
    (sl : UndoLogSlot) :
  heap w !! u = Some (Some r) ->
  list_find (fun s => usable_log (slots w) (persistence r) s = true) (free_logs w)
    = Some (i, s) ->
  slots w !! s = Some sl ->
  start_new_chunk u w
  = Done (tt, with_heap (fun h => <[u := Some (with_new_chunk s sl r)]> h)
                (with_free_logs (fun fl => take i fl ++ drop (S i) fl) w)).
Proof.
  intros Hr Hfind Hsl. unfold start_new_chunk.
  unfold bind at 1. unfold deref. unfold bind at 1, gets at 1. rewrite Hr.
  cbn [ret]. unfold bind at 1. unfold UndoLogGetForPersistence.
  unfold bind at 1, gets at 1. unfold bind at 1, gets at 1.
  assert (Hp : persistence
            (set_recent_end 0
               (set_need_chunk_header true
                  (if nchunks r =? max_chunks r
                   then set_max_chunks (max_chunks r * 2) r else r)))
          = persistence r) by (destruct (nchunks r =? max_chunks r); reflexivity).
  rewrite Hp, Hfind. unfold bind at 1. cbn [modify ret].
  unfold bind at 1. unfold slot_deref. unfold bind at 1, gets at 1.
  assert (Hsl' : slots (with_free_logs (fun fl => take i fl ++ drop (S i) fl) w) !! s
                 = Some sl) by exact Hsl.
  rewrite Hsl'. cbn [ret]. unfold store, modify, with_new_chunk.
  destruct (nchunks r =? max_chunks r); reflexivity.
Qed.

Lemma reserve_pass_unfold (w : World) (u : nat) (data_size : Z) :
  reserve_pass u data_size w
  = match try_active_log u data_size w with
    | Done (Some p, w1) => Done (Some p, w1)
    | Done (None, w1) =>
      match start_new_chunk u w1 with
      | Done (_, w2) => Done (None, w2)
      | Fail fl => Fail fl
      end
    | Fail fl => Fail fl
    end.
Proof.
  unfold reserve_pass, bind.
  destruct (try_active_log u data_size w) as [[[p|] w1]|]; reflexivity.
Qed.

Lemma reserve_physical_undo_unfold (fuel : nat) (w : World) (u : nat) (data_size : Z) :
  reserve_physical_undo (S fuel) u data_size w
  = match reserve_pass u data_size w with
    | Done (Some p, w1) => Done (p, w1)
    | Done (None, w1) => reserve_physical_undo fuel u data_size w1
    | Fail fl => Fail fl
    end.
Proof.
  cbn [reserve_physical_undo]. unfold bind.
  destruct (reserve_pass u data_size w) as [[[p|] w1]|]; reflexivity.
Qed.

(** X20: a pass of [reserve_physical_undo] with an active log computes
    the total of the requested bytes and the pending headers and returns
    the current insert position, without any change, if the new insert
    position fits under the cached end; otherwise it re-reads the end
    under the lock and returns if that fits; otherwise it extends the log
    and returns if the maximum size allows; otherwise it marks the log
    full and drops it.  A pass without an active log, or after dropping
    it, takes a new log, appends a chunk whose header offset is that log's
    insert position with both buffer indices -1, sets the pending chunk
    header and leaves the pending type header as it is, and the loop goes
    around again. *)
Theorem reserve_physical_undo_spec
    (w : World) (u : nat) (r : UndoRecordSet) (data_size : Z) :
  heap w !! u = Some (Some r) ->
  (forall s sl ths,
     slot r = Some s -> slots w !! s = Some sl -> 1 <= nchunks r ->
     (if need_type_header r then urst_header_size (urs_type r) else Done 0)
       = Done ths ->
     let total_size :=
       uint64 (data_size
               + (if need_chunk_header r then UndoRecordSetChunkHeaderSize else 0)
               + ths) in
     let new_insert := UndoLogOffsetPlusUsableBytes (meta_insert sl) total_size in
     let here := MakeUndoRecPtr (logno sl) (meta_insert sl) in
     try_active_log u data_size w
     = Done (if new_insert <=? recent_end r then (Some here, w)
             else if new_insert <=? slot_end sl
                  then (Some here, refreshed u r s sl w)
             else if new_insert <=? UndoLogMaxSize
                  then (Some here, extended sl new_insert (refreshed u r s sl w))
             else (None, given_up u r s sl (refreshed u r s sl w)))) /\
  (slot r = None -> try_active_log u data_size w = Done (None, w)) /\
  (forall i s sl,
     list_find (fun s => usable_log (slots w) (persistence r) s = true)
       (free_logs w) = Some (i, s) ->
     slots w !! s = Some sl ->
     start_new_chunk u w
     = Done (tt, with_heap (fun h => <[u := Some (with_new_chunk s sl r)]> h)
                   (with_free_logs (fun fl => take i fl ++ drop (S i) fl) w)) /\
     chunks (with_new_chunk s sl r)
       = chunks r ++ [mkChunk s (meta_insert sl) (-1, -1) ([], [])] /\
     slot (with_new_chunk s sl r) = Some s /\
     need_chunk_header (with_new_chunk s sl r) = true /\
     need_type_header (with_new_chunk s sl r) = need_type_header r) /\
  reserve_pass u data_size w
    = match try_active_log u data_size w with
      | Done (Some p, w1) => Done (Some p, w1)
      | Done (None, w1) =>
        match start_new_chunk u w1 with
        | Done (_, w2) => Done (None, w2)
        | Fail fl => Fail fl
        end
      | Fail fl => Fail fl
      end /\
  (forall fuel,
     reserve_physical_undo (S fuel) u data_size w
     = match reserve_pass u data_size w with
       | Done (Some p, w1) => Done (p, w1)
       | Done (None, w1) => reserve_physical_undo fuel u data_size w1
       | Fail fl => Fail fl
       end).
Proof.
  intros Hr. split; [| split; [| split; [| split]]].
  - intros s sl ths Hs Hsl Hn Hths. apply try_active_log_spec; assumption.
  - intros Hs. eapply try_active_log_idle; eauto.
  - intros i s sl Hfind Hsl. split; [apply start_new_chunk_spec; assumption|].
    unfold with_new_chunk. destruct (nchunks r =? max_chunks r); repeat split.
  - apply reserve_pass_unfold.
  - intros fuel. apply reserve_physical_undo_unfold.
Qed.

(** ** The assertion of [UndoAllocate] *)

Lemma wp_deref bad u w (Q : UndoRecordSet -> World -> Prop) :
  (bad = None \/ bad = Some (AssertFailed "urs->nbuffers == 0")) ->
  (forall r, heap w !! u = Some (Some r) -> Q r w) ->
  wp bad (deref u) w Q.
Proof.
  intros Hb H. unfold deref. apply wp_bind, wp_gets.
  destruct (heap w !! u) as [[r|]|] eqn:E;
    [apply wp_ret, H; reflexivity | apply wp_fail, not_bad_undefined, Hb ..].
Qed.

(** The pinning loop fills one more cell of the buffer array in every
    pass: it leaves at least one buffer pinned if there is anything to
    pin. *)
Lemma pin_loop_pins fuel u relNode urp total_size w r :
  heap w !! u = Some (Some r) ->
  wp None (pin_loop fuel u relNode urp total_size) w (fun _ w' =>
    exists r', heap w' !! u = Some (Some r') /\
      nbuffers r + (if 0 <? total_size then 1 else 0) <= nbuffers r' /\
      lifecycle_fields r' = lifecycle_fields r /\
      need_chunk_header r' = need_chunk_header r).
Proof.
  revert total_size w r. induction fuel as [|fuel IH]; intros total_size w r Hr;
    cbn [pin_loop]; destruct (Z.leb_spec total_size 0) as [Hle|Hgt].
  - apply wp_ret. exists r. destruct (Z.ltb_spec 0 total_size); [lia|].
    repeat split; [exact Hr | lia].
  - apply wp_fail. discriminate.
  - apply wp_ret. exists r. destruct (Z.ltb_spec 0 total_size); [lia|].
    repeat split; [exact Hr | lia].
  - eapply wp_ext_bind; [apply ext_ReadBuffer |].
    intros buffer w1 [= Hh _ _].
    apply wp_bind, wp_deref; [apply no_bad|]. intros r1 Hr1.
    rewrite Hh, Hr in Hr1. injection Hr1 as <-.
    eapply wp_ext_bind; [apply ext_array_write, no_bad |].
    intros bufs w2 [= Hh2 _ _].
    apply wp_bind, wp_modify.
    match goal with |- wp _ _ ?W _ => set (w3 := W) end.
    assert (Hr3 : heap w3 !! u = Some (Some (set_nbuffers (nbuffers r + 1)
                                               (set_buffers bufs r)))).
    { subst w3. unfold with_heap; cbn. apply list_lookup_insert_eq.
      rewrite Hh2, Hh. eapply lookup_lt_Some; eauto. }
    clearbody w3.
    eapply wp_ext_bind; [apply ext_when, ext_PageInit, no_bad |].
    intros _ w4 [= Hh4 _ _].
    rewrite <- Hh4 in Hr3.
    eapply wp_mono; [exact (IH _ w4 _ Hr3)|].
    cbv beta. intros _ w' (r' & Hr' & Hn & Hl & Hc).
    exists r'. split; [exact Hr'|]. cbn in Hn, Hl, Hc.
    split; [|split; [exact Hl | exact Hc]].
    destruct (0 <? total_size); destruct (0 <? _) in Hn; lia.
Qed.

Lemma wp_top {A} (m : M A) w : wp None m w (fun _ _ => True).
Proof. unfold wp. destruct (m w) as [[a w']|fl]; [exact I | discriminate]. Qed.

Lemma wp_of_done bad {A} (m : M A) w a w' (Q : A -> World -> Prop) :
  m w = Done (a, w') -> Q a w' -> wp bad m w Q.
Proof. intros E H. unfold wp. rewrite E. exact H. Qed.

Lemma deref_live u w r : heap w !! u = Some (Some r) -> deref u w = Done (r, w).
Proof. intros H. unfold deref, bind, gets. rewrite H. reflexivity. Qed.

(** [reserve_buffer_array] returns on a live record set, and it touches
    only the buffer array and its capacity. *)
Lemma reserve_buffer_array_spec u capacity w r :
  heap w !! u = Some (Some r) ->
  exists w' r', reserve_buffer_array u capacity w = Done (tt, w') /\
    heap w' !! u = Some (Some r') /\ stable_fields r' = stable_fields r.
Proof.
  intros Hr. unfold reserve_buffer_array, bind. rewrite (deref_live _ _ _ Hr).
  destruct (max_buffers r <? capacity); cbn.
  - eexists _, _. split; [reflexivity|]. split.
    + unfold with_heap; cbn. apply list_lookup_insert_eq.
      eapply lookup_lt_Some; eauto.
    + reflexivity.
  - exists w, r. auto.
Qed.

Lemma reserve_buffer_array_grows (u : nat) (capacity : Z) (w : World)
    (r : UndoRecordSet) :
  heap w !! u = Some (Some r) ->
  exists r2,
    reserve_buffer_array u capacity w
      = Done (tt, with_heap (fun h => <[u := Some r2]> h) w) /\
    (exists extra, buffers r2 = buffers r ++ extra) /\
    capacity <= Z.of_nat (length (buffers r2)) /\
    r2 = set_buffers (buffers r2) r.
Proof.
  intros Hr. unfold reserve_buffer_array, bind. rewrite (deref_live _ _ _ Hr).
  unfold max_buffers. destruct (Z.ltb_spec (Z.of_nat (length (buffers r))) capacity).
  - eexists. split; [reflexivity|]. cbn. split; [eexists; reflexivity|].
    split; [|reflexivity]. rewrite length_app, length_replicate. lia.
  - exists r. split.
    + cbn. f_equal. f_equal. unfold with_heap.
      rewrite list_insert_id by exact Hr. destruct w; reflexivity.
    + split; [exists []; rewrite app_nil_r; reflexivity|].
      split; [lia | destruct r; reflexivity].
Qed.

Lemma wp_run {A} (m : M A) (w : World) :
  wp None m w (fun a w' => m w = Done (a, w')).
Proof. unfold wp. destruct (m w) as [[a w']|fl]; [reflexivity | discriminate]. Qed.

Lemma wp_conj (bad : option failure) {A} (m : M A) (w : World)
    (P Q : A -> World -> Prop) :
  wp bad m w P -> wp bad m w Q -> wp bad m w (fun a w' => P a w' /\ Q a w').
Proof. unfold wp. destruct (m w) as [[a w']|fl]; auto. Qed.

(** A record set that is live after [reserve_physical_undo] was live
    before, with the same stable fields. *)
Lemma reserve_physical_undo_stable fuel u n w :
  wp None (reserve_physical_undo fuel u n) w (fun _ w' =>
    forall r', heap w' !! u = Some (Some r') ->
      exists r, heap w !! u = Some (Some r) /\ stable_fields r' = stable_fields r).
Proof.
  eapply wp_mono;
    [apply (keeps_run None _ _ _ _ _
              (keeps_reserve_physical_undo None no_bad (fun x => x) u w fuel n))|].
  cbv beta. intros _ w' [(_ & _ & _ & _ & F) _] r' Hr'. rewrite Hr' in F.
  destruct (heap w !! u) as [[r|]|]; try discriminate.
  exists r. auto.
Qed.

Lemma reserve_physical_undo_live fuel u n w b w' r :
  reserve_physical_undo fuel u n w = Done (b, w') ->
  heap w !! u = Some (Some r) ->
  exists r', heap w' !! u = Some (Some r') /\ stable_fields r' = stable_fields r.
Proof.
  intros Hrun Hr.
  pose proof (keeps_run None _ _ _ _ _
    (keeps_reserve_physical_undo None no_bad (fun x => x) u w fuel n)) as H.
  apply (fun H => wp_done None _ _ _ _ _ H Hrun) in H.
  destruct H as [(_ & _ & _ & _ & F) _]. rewrite Hr in F. cbv zeta in F.
  destruct (heap w' !! u) as [[r'|]|]; try discriminate.
  exists r'. auto.
Qed.

Lemma urst_header_size_bounds ty t :
  urst_header_size ty = Done t -> 0 <= t <= 42.
Proof.
  unfold urst_header_size. repeat destruct (_ =? _); intros [= <-]; lia.
Qed.

(** A call to [UndoAllocate] that returns found no buffer pinned, leaves
    the pending headers pending, and leaves at least one buffer pinned
    if its request and the pending headers make more than no bytes. *)
Lemma UndoAllocate_pins fuel u n w p w1 :
  UndoAllocate fuel u n w = Done (p, w1) ->
  exists r r1 ths,
    heap w !! u = Some (Some r) /\ nbuffers r = 0 /\
    heap w1 !! u = Some (Some r1) /\
    lifecycle_fields r1 = lifecycle_fields r /\
    (if need_type_header r1 then urst_header_size (urs_type r1) else Done 0)
      = Done ths /\
    0 <= nbuffers r1 /\
    (uint64 (n + (if need_chunk_header r1 then UndoRecordSetChunkHeaderSize else 0)
             + ths) <> 0 ->
     1 <= nbuffers r1).
Proof.
  intros Hrun.
  refine (wp_done None _ _ (fun _ w1 => exists r r1 ths, _) _ _ _ Hrun).
  unfold UndoAllocate.
  apply wp_bind. eapply wp_mono; [apply reserve_physical_undo_stable|].
  cbv beta. intros b w2 Hlive.
  apply wp_bind, wp_deref; [apply no_bad|]. intros r2 Hr2.
  destruct (Hlive r2 Hr2) as (r & Hr & Hst).
  apply wp_bind.
  apply wp_mono with (Q := fun t w' => w' = w2 /\
    (if need_type_header r2 then urst_header_size (urs_type r2) else Done 0) = Done t).
  { destruct (need_type_header r2).
    - apply wp_lift. destruct (urst_header_size (urs_type r2)) as [t|fl] eqn:E;
        [|discriminate].
      split; reflexivity.
    - apply wp_ret. split; reflexivity. }
  intros t w' (-> & Hths).
  match goal with |- context [reserve_buffer_array u ?c] =>
    destruct (reserve_buffer_array_grows u c w2 r2 Hr2) as (r3 & E3 & _ & _ & Hr3)
  end.
  apply wp_bind. eapply wp_of_done; [exact E3|].
  set (w3 := with_heap _ w2).
  assert (Hlt : (u < length (heap w2))%nat) by (eapply lookup_lt_Some; eauto).
  assert (Hw3 : heap w3 !! u = Some (Some r3))
    by (subst w3; cbn; apply list_lookup_insert_eq, Hlt).
  apply wp_bind, wp_deref; [apply no_bad|]. intros r4 Hr4.
  rewrite Hw3 in Hr4. injection Hr4 as <-.
  apply wp_bind, wp_lift. destruct (Z.eqb_spec (nbuffers r3) 0) as [Hz|Hz];
    cbn [Assert]; [|discriminate].
  apply wp_bind. eapply wp_mono; [apply pin_loop_pins, Hw3|].
  cbv beta. intros _ w6 (r6 & Hr6 & Hpin & Hl & Hc).
  apply wp_bind, wp_deref; [apply no_bad|]. intros r7 Hr7.
  rewrite Hr6 in Hr7. injection Hr7 as <-.
  eapply wp_ext_bind.
  { apply ext_for_each. intros i. apply ext_bind;
      [apply ext_array_read, no_bad | intros; apply ext_emit]. }
  intros _ w8 [= Hh8 _ _]. apply wp_ret. exists r, r6, t.
  rewrite Hh8.
  assert (H3 : stable_fields r3 = stable_fields r2 /\
               need_chunk_header r3 = need_chunk_header r2)
    by (rewrite Hr3; split; reflexivity).
  destruct H3 as [Hs3 Hc3].
  unfold lifecycle_fields in Hl. unfold stable_fields in Hs3, Hst.
  injection Hl as Hcl6 Ht6 Hty6. injection Hs3 as Hcl3 Ht3 Hty3 Hn3.
  injection Hst as Hcl2 Ht2 Hty2 Hn2.
  split; [exact Hr|]. split; [congruence|]. split; [exact Hr6|].
  split; [unfold lifecycle_fields; congruence|].
  split; [rewrite Ht6, Ht3, Hty6, Hty3; exact Hths|].
  split; [destruct (0 <? _) in Hpin; lia|].
  rewrite Hc, Hc3. intros Hne.
  match type of Hne with ?x <> 0 =>
    assert (Hu : 0 < x)
      by (assert (0 <= x) by (unfold uint64; apply Z.mod_pos_bound; lia); lia)
  end.
  apply Z.ltb_lt in Hu. rewrite Hu in Hpin. lia.
Qed.

(** A second [UndoAllocate] on a record set that still has a buffer
    pinned: once it has its space, it stops at the assertion. *)
Lemma UndoAllocate_pinned fuel u n w r b w2 :
  heap w !! u = Some (Some r) ->
  1 <= nbuffers r ->
  (need_type_header r = true -> exists t, urst_header_size (urs_type r) = Done t) ->
  reserve_physical_undo fuel u n w = Done (b, w2) ->
  UndoAllocate fuel u n w = Fail (AssertFailed "urs->nbuffers == 0").
Proof.
  intros Hr Hn Hths Hres.
  destruct (reserve_physical_undo_live _ _ _ _ _ _ _ Hres Hr) as (r2 & Hr2 & Hs).
  unfold stable_fields in Hs. injection Hs as _ Ht Hty Hnb.
  unfold UndoAllocate. unfold bind at 1. rewrite Hres.
  unfold bind at 1. rewrite (deref_live _ _ _ Hr2).
  assert (Hsize : exists t, (if need_type_header r2
                             then lift (urst_header_size (urs_type r2))
                             else ret 0) w2 = Done (t, w2)).
  { destruct (need_type_header r2).
    - destruct Hths as (t & E); [congruence|]. exists t.
      rewrite Hty, E. reflexivity.
    - exists 0. reflexivity. }
  destruct Hsize as (t & Et). unfold bind at 1. rewrite Et.
  match goal with |- context [reserve_buffer_array u ?c] =>
    destruct (reserve_buffer_array_spec u c w2 r2 Hr2) as (w3 & r3 & E3 & Hr3 & Hs3)
  end.
  unfold bind at 1. rewrite E3.
  unfold bind at 1. rewrite (deref_live _ _ _ Hr3).
  unfold stable_fields in Hs3. injection Hs3 as _ _ _ Hnb3.
  unfold bind at 1, lift, Assert.
  destruct (Z.eqb_spec (nbuffers r3) 0) as [Hz|Hz]; [lia | reflexivity].
Qed.

(** The discipline of the callers keeps the record set without pinned
    buffers at every [UndoAllocate]. *)
Lemma cycles_keep_assertion fuel u cycles w :
  (forall r, heap w !! u = Some (Some r) -> nbuffers r = 0) ->
  wp (Some (AssertFailed "urs->nbuffers == 0"))
     (run fuel (flat_map (cycle u) cycles)) w (fun _ _ => True).
Proof.
  set (bad := Some (AssertFailed "urs->nbuffers == 0")).
  assert (bc : bad = None \/ bad = Some (AssertFailed "urs->nbuffers == 0"))
    by (right; reflexivity).
  clearbody bad.
  revert w. induction cycles as [|[[n b] d] cycles IH]; intros w HJ.
  - apply wp_ret. exact I.
  - cbn [flat_map cycle app]. unfold run. cbn [for_each run_call].
    apply wp_bind, wp_bind.
    eapply wp_mono; [apply UndoAllocate_frame; [exact bc | right; exact HJ]|].
    intros _ w1 _. apply wp_ret.
    apply wp_bind. eapply wp_mono; [apply UndoInsert_frame, bc|].
    intros _ w2 _.
    apply wp_bind. eapply wp_mono; [apply UndoRelease_effect, bc|].
    cbv beta. intros _ w3 (_ & r & Hr & Hc).
    apply IH. intros r3 Hr3.
    assert (Hlt : (u < length (heap w2))%nat) by (eapply lookup_lt_Some; eauto).
    destruct (closed r); destruct Hc as (Hh & _); rewrite Hh in Hr3;
      rewrite list_lookup_insert_eq in Hr3 by exact Hlt;
      [discriminate | injection Hr3 as <-; reflexivity].
Qed.

(** ** The pinned buffers over a sequence of calls *)

Lemma frame_forward {B} (f : UndoRecordSet -> B) v w w' u r :
  frame f v w w' ->
  heap w !! u = Some (Some r) ->
  exists r', heap w' !! u = Some (Some r') /\
    (u <> v -> r' = r) /\ (u = v -> f r' = f r).
Proof.
  intros (_ & _ & _ & Hv & Hu) Hr.
  destruct (decide (u = v)) as [->|Hne].
  - rewrite Hr in Hu. destruct (heap w' !! v) as [[r'|]|]; try discriminate.
    exists r'. split; [reflexivity|]. split; [congruence | auto].
  - rewrite <- (Hv u Hne) in Hr. exists r. split; [exact Hr|].
    split; [reflexivity | congruence].
Qed.

(** [find_or_read_buffer] and [UndoPrepareToMarkClosed] pin buffers and
    give none back. *)
Lemma find_or_read_buffer_pins_more u log block w r :
  heap w !! u = Some (Some r) ->
  wp None (find_or_read_buffer u log block) w (fun _ w' =>
    exists r', heap w' !! u = Some (Some r') /\ nbuffers r <= nbuffers r').
Proof.
  intros Hr. unfold find_or_read_buffer.
  apply wp_bind, wp_deref; [apply no_bad|]. intros r0 Hr0.
  rewrite Hr in Hr0. injection Hr0 as <-.
  eapply wp_ext_bind; [apply ext_find_buffer_loop, no_bad|].
  intros found w1 [= Hh _ _].
  destruct found as [i|].
  - apply wp_ret. exists r. rewrite Hh. split; [exact Hr | lia].
  - assert (Hr1 : heap w1 !! u = Some (Some r)) by (rewrite Hh; exact Hr).
    destruct (reserve_buffer_array_spec u (nbuffers r + 1) w1 r Hr1)
      as (w2 & r2 & E2 & Hr2 & Hs2).
    apply wp_bind. eapply wp_of_done; [exact E2|].
    eapply wp_ext_bind; [apply ext_ReadBuffer|].
    intros buffer w3 [= Hh3 _ _].
    apply wp_bind, wp_deref; [apply no_bad|]. intros r3 Hr3.
    rewrite Hh3, Hr2 in Hr3. injection Hr3 as <-.
    eapply wp_ext_bind; [apply ext_array_write, no_bad|].
    intros bufs w4 [= Hh4 _ _].
    apply wp_bind, wp_modify. apply wp_bind, wp_modify. apply wp_ret.
    eexists. split.
    + cbn. apply list_lookup_insert_eq. rewrite Hh4, Hh3.
      eapply lookup_lt_Some; eauto.
    + unfold stable_fields in Hs2. injection Hs2 as _ _ _ Hn. cbn. lia.
Qed.

Lemma prepare_loop_pins_more u n0 (xs : list nat) : forall w r,
  heap w !! u = Some (Some r) ->
  n0 <= nbuffers r ->
  wp None
    (for_each xs (fun i =>
       let* chunk := get_chunk u i in
       let header := chunk_header_offset chunk in
       let header_block := header / BLCKSZ in
       let header_offset := header mod BLCKSZ in
       let* sl := slot_deref (chunk_slot chunk) in
       let* i0 := find_or_read_buffer u (logno sl) header_block in
       let* i1 :=
         if header_offset <=? BLCKSZ - sizeof_UndoLogOffset then ret (-1)
         else find_or_read_buffer u (logno sl) (header_block + 1) in
       set_chunk u i
         (mkChunk (chunk_slot chunk) (chunk_header_offset chunk) (i0, i1)
            (chunk_header_ops chunk)))) w
    (fun _ w' => exists r', heap w' !! u = Some (Some r') /\ n0 <= nbuffers r').
Proof.
  induction xs as [|x xs IH]; intros w r1 Hr1 Hn1; cbn [for_each].
  - apply wp_ret. eauto.
  - apply wp_bind. unfold get_chunk at 1.
    apply wp_bind, wp_bind, wp_deref; [apply no_bad|]. intros r2 Hr2.
    rewrite Hr1 in Hr2. injection Hr2 as <-.
    destruct (chunks r1 !! x) as [c|]; [|apply wp_fail; discriminate].
    apply wp_ret. cbv zeta.
    eapply wp_ext_bind; [apply ext_slot_deref, no_bad|].
    intros sl w1 [= Hh1 _ _].
    assert (Hr1' : heap w1 !! u = Some (Some r1)) by (rewrite Hh1; exact Hr1).
    apply wp_bind.
    eapply wp_mono; [apply (find_or_read_buffer_pins_more u _ _ w1 r1 Hr1')|].
    cbv beta. intros i0 w2 (r2 & Hr2 & Hn2).
    apply wp_bind.
    apply wp_mono with (Q := fun _ w3 =>
      exists r3, heap w3 !! u = Some (Some r3) /\ nbuffers r2 <= nbuffers r3).
    { destruct (_ <=? _).
      - apply wp_ret. exists r2. split; [exact Hr2 | lia].
      - apply find_or_read_buffer_pins_more, Hr2. }
    intros i1 w3 (r3 & Hr3 & Hn3).
    unfold set_chunk. apply wp_bind, wp_deref; [apply no_bad|]. intros r4 Hr4.
    rewrite Hr3 in Hr4. injection Hr4 as <-.
    apply wp_modify.
    eapply IH.
    + cbn. apply list_lookup_insert_eq. eapply lookup_lt_Some; eauto.
    + cbn. lia.
Qed.

Lemma UndoPrepareToMarkClosed_pins_more u w r :
  heap w !! u = Some (Some r) ->
  wp None (UndoPrepareToMarkClosed u) w (fun _ w' =>
    exists r', heap w' !! u = Some (Some r') /\ nbuffers r <= nbuffers r').
Proof.
  intros Hr. unfold UndoPrepareToMarkClosed.
  apply wp_bind, wp_deref; [apply no_bad|]. intros r0 _.
  apply (prepare_loop_pins_more u (nbuffers r) _ w r Hr). lia.
Qed.

(** What a call that returns, other than the release of the record set
    [u], does to the buffers [u] has pinned: it may pin more of them; the
    type of the record set stays, and a type header that is not pending
    does not become so. *)
Lemma pinned_step fuel c w w' u r :
  run_call fuel c w = Done (tt, w') ->
  c <> CallRelease u ->
  heap w !! u = Some (Some r) ->
  exists r', heap w' !! u = Some (Some r') /\ nbuffers r <= nbuffers r' /\
    urs_type r' = urs_type r /\
    (need_type_header r' = true -> need_type_header r = true).
Proof.
  intros Hrun Hc Hr.
  destruct c as [ty p | v n | v b d | v | v | v]; cbn [run_call] in Hrun.
  - unfold bind in Hrun.
    destruct (UndoCreate ty p w) as [[x w1]|] eqn:E; [|discriminate].
    injection Hrun as ->.
    pose proof (wp_done None _ _ _ _ _ (UndoCreate_effect None no_bad ty p w) E)
      as (_ & _ & _ & r0 & Hh & _).
    exists r. rewrite Hh, lookup_app_l by (eapply lookup_lt_Some; eauto).
    split; [exact Hr|]. split; [lia|]. split; [reflexivity | exact id].
  - unfold bind in Hrun.
    destruct (UndoAllocate fuel v n w) as [[q w1]|] eqn:E; [|discriminate].
    injection Hrun as ->.
    destruct (decide (v = u)) as [->|Hne].
    + destruct (UndoAllocate_pins _ _ _ _ _ _ E)
        as (r0 & r1 & ths & Hr0 & Hz & Hr1 & Hl & _ & Hpos & _).
      rewrite Hr in Hr0. injection Hr0 as <-.
      unfold lifecycle_fields in Hl. injection Hl as _ Ht Hty.
      exists r1. split; [exact Hr1|]. split; [lia|]. split; [exact Hty|].
      rewrite Ht. exact id.
    + pose proof (wp_done None _ _ _ _ _
                    (UndoAllocate_frame None no_bad fuel v n w (or_introl eq_refl)) E) as F.
      destruct (frame_forward _ _ _ _ _ _ F Hr) as (r' & Hr' & Hsame & _).
      rewrite (Hsame ltac:(congruence)) in Hr'.
      exists r. split; [exact Hr'|]. split; [lia|]. split; [reflexivity | exact id].
  - pose proof (wp_done None _ _ _ _ _ (UndoInsert_frame None no_bad v b d w) Hrun)
      as (F & _ & Hcl).
    destruct (frame_forward _ _ _ _ _ _ F Hr) as (r' & Hr' & Hsame & Hf).
    exists r'. split; [exact Hr'|].
    destruct (decide (u = v)) as [->|Hne].
    + specialize (Hf eq_refl). unfold insert_fields in Hf. injection Hf as _ Hty Hn.
      split; [lia|]. split; [exact Hty|].
      rewrite (Hcl r' Hr'). discriminate.
    + rewrite (Hsame Hne). split; [lia|]. split; [reflexivity | exact id].
  - destruct (decide (v = u)) as [->|Hne].
    + pose proof (wp_done None _ _ _ _ _ (UndoPrepareToMarkClosed_pins_more u w r Hr)
                    Hrun) as (r' & Hr' & Hn).
      pose proof (wp_done None _ _ _ _ _
                    (UndoPrepareToMarkClosed_frame None no_bad u w) Hrun) as F.
      destruct (frame_forward _ _ _ _ _ _ F Hr) as (r2 & Hr2 & _ & Hf).
      rewrite Hr' in Hr2. injection Hr2 as <-.
      specialize (Hf eq_refl). unfold lifecycle_fields in Hf. injection Hf as _ Ht Hty.
      exists r'. split; [exact Hr'|]. split; [exact Hn|]. split; [exact Hty|].
      rewrite Ht. exact id.
    + pose proof (wp_done None _ _ _ _ _
                    (UndoPrepareToMarkClosed_frame None no_bad v w) Hrun) as F.
      destruct (frame_forward _ _ _ _ _ _ F Hr) as (r' & Hr' & Hsame & _).
      rewrite (Hsame ltac:(congruence)) in Hr'.
      exists r. split; [exact Hr'|]. split; [lia|]. split; [reflexivity | exact id].
  - pose proof (wp_done None _ _ _ _ _ (UndoMarkClosed_frame None no_bad v w) Hrun)
      as [F _].
    destruct (frame_forward _ _ _ _ _ _ F Hr) as (r' & Hr' & Hsame & Hf).
    exists r'. split; [exact Hr'|].
    destruct (decide (u = v)) as [->|Hne].
    + specialize (Hf eq_refl). unfold close_fields in Hf. injection Hf as Ht Hty Hn.
      split; [lia|]. split; [exact Hty|]. rewrite Ht. exact id.
    + rewrite (Hsame Hne). split; [lia|]. split; [reflexivity | exact id].
  - assert (Hne : u <> v) by congruence.
    pose proof (wp_done None _ _ _ _ _ (UndoRelease_effect None no_bad v w) Hrun)
      as (_ & rv & Hrv & Heff).
    exists r. split; [|split; [lia|]; split; [reflexivity | exact id]].
    destruct (closed rv); destruct Heff as [Hh _]; rewrite Hh;
      rewrite list_lookup_insert_ne by congruence; exact Hr.
Qed.

Lemma calls_keep_pinned fuel cs : forall u w w' r,
  Forall (fun c => c <> CallRelease u) cs ->
  run fuel cs w = Done (tt, w') ->
  heap w !! u = Some (Some r) ->
  exists r', heap w' !! u = Some (Some r') /\ nbuffers r <= nbuffers r' /\
    urs_type r' = urs_type r /\
    (need_type_header r' = true -> need_type_header r = true).
Proof.
  induction cs as [|c cs IH]; intros u w w' r Hcs Hrun Hr.
  - injection Hrun as <-. exists r.
    split; [exact Hr|]. split; [lia|]. split; [reflexivity | exact id].
  - unfold run in Hrun. cbn [for_each] in Hrun. unfold bind in Hrun.
    destruct (run_call fuel c w) as [[[] w1]|] eqn:E; [|discriminate].
    apply Forall_cons in Hcs as [Hc Hcs].
    destruct (pinned_step fuel c w w1 u r E Hc Hr) as (r1 & Hr1 & Hn1 & Hty1 & Ht1).
    destruct (IH u w1 w' r1 Hcs Hrun Hr1) as (r' & Hr' & Hn & Hty & Ht).
    exists r'. split; [exact Hr'|]. split; [lia|]. split; [congruence | auto].
Qed.


(** ** The opcode stream: what the writer encodes, the scanners decode *)

Lemma join_bytes (q r : Z) :
  0 <= q -> 0 <= r < 256 -> Z.lor (Z.shiftl q 8) r = 256 * q + r.
Proof.
  intros Hq Hr.
  assert (Hl : Z.land (Z.shiftl q 8) r = 0).
  { rewrite <- (Z.mod_small r (2 ^ 8)) by lia.
    rewrite <- Z.land_ones by lia.
    rewrite (Z.land_comm r), Z.land_assoc, (Z.land_ones (Z.shiftl q 8)) by lia.
    rewrite Z.shiftl_mul_pow2 by lia. rewrite Z.mod_mul by lia. reflexivity. }
  rewrite <- Z.add_nocarry_lor by exact Hl.
  rewrite Z.shiftl_mul_pow2 by lia. lia.
Qed.

Lemma high_bit_set (q : Z) :
  0 <= q < 128 ->
  Z.lor 128 q = 128 + q /\ Z.land (Z.lor 128 q) 128 <> 0 /\
  Z.land (Z.lor 128 q) 127 = q.
Proof.
  intros Hq.
  assert (Hl : Z.land 128 q = 0).
  { rewrite <- (Z.mod_small q (2 ^ 7)) by lia.
    rewrite <- Z.land_ones by lia.
    rewrite (Z.land_comm q), Z.land_assoc. reflexivity. }
  split; [symmetry; apply Z.add_nocarry_lor, Hl|]. split.
  - rewrite Z.land_lor_distr_l. intros H. apply Z.lor_eq_0_iff in H.
    destruct H as [H _]. discriminate H.
  - rewrite Z.land_lor_distr_l. change 127 with (Z.ones 7).
    rewrite (Z.land_ones q) by lia. rewrite Z.mod_small by lia. reflexivity.
Qed.

(** The two bytes the writer makes of a 16-bit value, and the value the
    scanner makes of them. *)
Lemma split_bytes (x : Z) :
  0 <= x < 2 ^ 16 ->
  uint8 (Z.shiftr x 8) = x / 256 /\ uint8 (Z.land x 255) = x mod 256 /\
  0 <= x / 256 < 256 /\ 0 <= x mod 256 < 256.
Proof.
  intros Hx. unfold uint8. rewrite Z.shiftr_div_pow2 by lia.
  change 255 with (Z.ones 8). rewrite Z.land_ones by lia.
  change (2 ^ 8) with 256.
  assert (0 <= x / 256 < 256)
    by (split; [apply Z.div_pos; lia | apply Z.div_lt_upper_bound; lia]).
  assert (0 <= x mod 256 < 256) by (apply Z.mod_pos_bound; lia).
  rewrite !Z.mod_small by lia. repeat split; lia.
Qed.

(** X1: an update entry of at least one byte, encoded by the writer at a
    valid offset and scanned by [UndoUpdateInRecovery]: the bytes of the
    page from [offset] are the literal bytes, and every other byte of the
    page is as it was. *)
Theorem update_round_trip (offset : Z) (data page : list Z) :
  UndoLogBlockHeaderSize <= offset ->
  offset + Z.of_nat (length data) <= BLCKSZ ->
  data <> [] ->
  Z.of_nat (length page) = BLCKSZ ->
  exists ops,
    encode_update offset data = Done ops /\
    apply_updates ops page
      = Done (take (Z.to_nat offset) page ++ data
              ++ drop (Z.to_nat offset + length data) page).
Proof.
  intros Hlo Hhi Hdata Hpage.
  pose proof header_pos. pose proof BLCKSZ_max.
  assert (Hlen : 0 < Z.of_nat (length data)) by (destruct data; [congruence | cbn; lia]).
  set (size := Z.of_nat (length data)) in *.
  assert (Ho : uint16 offset = offset) by (apply Z.mod_small; lia).
  assert (Hs : uint16 size = size) by (apply Z.mod_small; lia).
  destruct (split_bytes offset ltac:(lia)) as (Ho1 & Ho0 & Hoq & Hor).
  destruct (split_bytes size ltac:(lia)) as (Hs1 & Hs0 & Hsq & Hsr).
  assert (Hq : 0 <= offset / 256 < 128)
    by (split; [lia | apply Z.div_lt_upper_bound; lia]).
  destruct (high_bit_set (offset / 256) Hq) as (Hb & Hbit & Hlow).
  assert (Hb0 : uint8 (Z.lor 128 (Z.shiftr offset 8)) = Z.lor 128 (offset / 256)).
  { rewrite Z.shiftr_div_pow2 by lia. change (2 ^ 8) with 256.
    unfold uint8. apply Z.mod_small. lia. }
  unfold encode_update, write_update_ops_header. fold size. rewrite Ho, Hs.
  rewrite (proj2 (Z.leb_le _ _) BLCKSZ_max).
  rewrite (proj2 (Z.ltb_lt offset BLCKSZ)) by lia.
  rewrite (proj2 (Z.leb_le (offset + size) BLCKSZ)) by lia.
  rewrite (proj2 (Z.leb_le UndoLogBlockHeaderSize offset)) by lia.
  cbn [Assert obind]. rewrite Hb0, Ho0, Hs1, Hs0.
  eexists. split; [reflexivity|].
  unfold apply_updates. cbn [app length apply_updates_loop].
  assert (Hnz : (Z.lor 128 (offset / 256) =? 0) = false) by (apply Z.eqb_neq; lia).
  rewrite Hnz. cbn [negb Assert obind].
  rewrite (proj2 (Z.eqb_neq _ _) Hbit).
  assert (Hfour : (Z.of_nat (S (S (S (S (length data))))) <=? 4) = false)
    by (apply Z.leb_gt; fold size; lia).
  rewrite Hfour, Hlow.
  rewrite !join_bytes by lia.
  rewrite <- !Z.div_mod by lia.
  rewrite Ho, Hs. fold size.
  rewrite (proj2 (Z.ltb_ge size size)) by lia.
  unfold size at 1 2. rewrite Nat2Z.id, firstn_all, drop_all.
  unfold page_write.
  rewrite (proj2 (Z.leb_le 0 offset)) by lia.
  rewrite (proj2 (Z.leb_le (offset + Z.of_nat (length data)) _)) by (fold size; lia).
  cbn [andb obind]. destruct (length data); reflexivity.
Qed.

(** X2: an insert entry of at most 127 bytes, scanned by
    [UndoInsertInRecovery]: the scanner appends the literal bytes, all of
    them and nothing else, and counts their number. *)
Theorem insert_round_trip (fuel : nat) (data : list Z)
    (state : option UndoInsertState) (header_size : Z) (w : World) :
  Z.of_nat (length data) <= 127 ->
  insert_ops_loop (S (S fuel)) (encode_insert data) state header_size w
    = (let* state := append_bytes_local state data in
       ret (state, uint64 (header_size + Z.of_nat (length data)))) w.
Proof.
  intros Hlen. unfold encode_insert.
  assert (Hu : uint8 (Z.of_nat (length data)) = Z.of_nat (length data))
    by (apply Z.mod_small; lia).
  rewrite Hu. cbn [insert_ops_loop].
  rewrite (proj2 (Z.ltb_lt (Z.of_nat (length data)) 128)) by lia. cbn [negb].
  rewrite (proj2 (Z.ltb_ge _ _)) by lia.
  rewrite Nat2Z.id, firstn_all, drop_all. reflexivity.
Qed.

(** X3: the update scanner passes over an insert entry of 1 to 127 bytes,
    and it asserts that an insert entry is not empty. *)
Theorem update_scanner_skips_insertions (fuel : nat) (data more page : list Z) :
  Z.of_nat (length data) <= 127 ->
  apply_updates_loop (S fuel) (encode_insert data ++ more) page
    = if (length data =? 0)%nat then Fail (AssertFailed "*ops != 0")
      else apply_updates_loop fuel more page.
Proof.
  intros Hlen. unfold encode_insert.
  assert (Hu : uint8 (Z.of_nat (length data)) = Z.of_nat (length data))
    by (apply Z.mod_small; lia).
  rewrite Hu. cbn [app apply_updates_loop].
  destruct (Nat.eqb_spec (length data) 0) as [Hz|Hz].
  - rewrite Hz. reflexivity.
  - rewrite (proj2 (Z.eqb_neq (Z.of_nat (length data)) 0)) by lia.
    cbn [negb Assert obind].
    assert (Hbit : Z.land (Z.of_nat (length data)) 128 = 0).
    { rewrite <- (Z.mod_small (Z.of_nat (length data)) (2 ^ 7)) by lia.
      rewrite <- Z.land_ones by lia. rewrite <- Z.land_assoc.
      change (Z.land (Z.ones 7) 128) with 0. apply Z.land_0_r. }
    rewrite Hbit. cbn [Z.eqb].
    replace (Z.to_nat (Z.of_nat (length data) + 1)) with (S (length data)) by lia.
    cbn [drop]. rewrite drop_app_length. reflexivity.
Qed.

(** ** Stamping the pinned pages with an LSN *)

Lemma stamped_nil lsn p : stamped [] lsn p = p.
Proof.
  unfold stamped. apply list_eq. intros i. rewrite list_lookup_imap.
  destruct (p !! i); cbn; [|reflexivity].
  rewrite bool_decide_eq_false_2; [reflexivity | apply not_elem_of_nil].
Qed.

Lemma stamped_cons b bs lsn p d :
  0 < b -> p !! Z.to_nat (b - 1) = Some d ->
  stamped bs lsn (<[Z.to_nat (b - 1) := with_lsn lsn d]> p) = stamped (b :: bs) lsn p.
Proof.
  intros Hb Hd. unfold stamped. apply list_eq. intros i.
  rewrite !list_lookup_imap.
  destruct (decide (i = Z.to_nat (b - 1))) as [->|Hi].
  - rewrite list_lookup_insert_eq by (eapply lookup_lt_Some; eauto).
    rewrite Hd. cbn.
    rewrite (bool_decide_eq_true_2 (_ ∈ b :: bs)) by (apply elem_of_cons; left; lia).
    destruct (bool_decide _); reflexivity.
  - rewrite list_lookup_insert_ne by congruence.
    destruct (p !! i); cbn; [|reflexivity].
    destruct (bool_decide_reflect (Z.of_nat i + 1 ∈ bs)) as [Hin|Hin].
    + rewrite bool_decide_eq_true_2 by (apply elem_of_cons; right; exact Hin). reflexivity.
    + rewrite bool_decide_eq_false_2; [reflexivity|].
      intros [E|E]%elem_of_cons; [lia | contradiction].
Qed.

Lemma set_lsn_loop (a : list (option Z)) (bs : list Z) (k : nat) (lsn : Z) (w : World) :
  (forall i b, bs !! i = Some b -> a !! (k + i)%nat = Some (Some b)) ->
  Forall (fun b => 0 < b <= Z.of_nat (length (pool w))) bs ->
  for_each (seq k (length bs)) (fun i =>
    let* buffer := array_read a (Z.of_nat i) in
    PageSetLSN buffer lsn) w
  = Done (tt, with_pool (stamped bs lsn) w).
Proof.
  revert k w. induction bs as [|b bs IH]; intros k w Ha Hv.
  - cbn. unfold with_pool. rewrite stamped_nil. destruct w; reflexivity.
  - cbn [length seq for_each].
    unfold bind at 1. unfold bind at 1. unfold array_read.
    destruct (Z.ltb_spec (Z.of_nat k) 0); [lia|].
    rewrite Nat2Z.id.
    specialize (Ha 0%nat b eq_refl) as Hk. rewrite Nat.add_0_r in Hk. rewrite Hk.
    cbn [ret]. inversion Hv as [|? ? Hb Hv']; subst.
    destruct (lookup_lt_is_Some_2 (pool w) (Z.to_nat (b - 1)) ltac:(lia)) as [d Hd].
    unfold PageSetLSN, bind at 1, BufferGetPage, bind at 1, gets.
    destruct (Z.leb_spec b 0); [lia|]. rewrite Hd. cbn [ret].
    rewrite (set_page_eq _ _ _ _ Hd).
    rewrite IH.
    + f_equal. f_equal. unfold put_page, with_pool at 1 2 3.
      rewrite <- (stamped_cons b bs lsn (pool w) d) by (lia || exact Hd).
      reflexivity.
    + intros i b' Hi. specialize (Ha (S i) b' Hi). rewrite <- Ha. f_equal. lia.
    + unfold put_page, with_pool. cbn. rewrite length_insert. exact Hv'.
Qed.

(** X4: [UndoPageSetLSN] sets the LSN of the page of every pinned buffer
    of the record set to [lsn]; it leaves the rest of every page, the
    pages of all other buffers and everything else as it is. *)
Theorem UndoPageSetLSN_spec (w : World) (urs : nat) (r : UndoRecordSet)
    (bs : list Z) (lsn : Z) :
  heap w !! urs = Some (Some r) ->
  nbuffers r = Z.of_nat (length bs) ->
  take (length bs) (buffers r) = map Some bs ->
  Forall (fun b => 0 < b <= Z.of_nat (length (pool w))) bs ->
  UndoPageSetLSN urs lsn w = Done (tt, with_pool (stamped bs lsn) w).
Proof.
  intros Hr Hn Hbs Hv.
  assert (Ha : forall i b, bs !! i = Some b -> buffers r !! (0 + i)%nat = Some (Some b)).
  { intros i b Hi. cbn.
    assert (Hlt : (i < length bs)%nat) by (eapply lookup_lt_Some; eauto).
    rewrite <- (lookup_take_lt (buffers r) (length bs) i) by exact Hlt.
    rewrite Hbs, list_lookup_fmap, Hi. reflexivity. }
  unfold UndoPageSetLSN. unfold bind at 1. rewrite (deref_live _ _ _ Hr).
  rewrite Hn, Nat2Z.id. apply set_lsn_loop; assumption.
Qed.

(** ** Looking a block up among the pinned buffers *)

Lemma pinned_lookup r bs i b :
  pinned r bs -> bs !! i = Some b -> buffers r !! i = Some (Some b).
Proof.
  intros [_ Hbs] Hi.
  assert (Hlt : (i < length bs)%nat) by (eapply lookup_lt_Some; eauto).
  rewrite <- (lookup_take_lt (buffers r) (length bs) i) by exact Hlt.
  rewrite Hbs, list_lookup_fmap, Hi. reflexivity.
Qed.

Lemma find_buffer_loop_spec (a : list (option Z)) (bs : list Z) (k : nat)
    (log block : Z) (w : World) :
  (forall i b, bs !! i = Some b -> a !! (k + i)%nat = Some (Some b)) ->
  valid_buffers (pool w) bs ->
  find_buffer_loop a log block (Z.of_nat k) (length bs) w
  = Done ((fun x => Z.of_nat (k + fst x)) <$>
            list_find (fun b => buffer_tag (pool w) b = Some (log, block)) bs, w).
Proof.
  revert k. induction bs as [|b bs IH]; intros k Ha Hv; [reflexivity|].
  cbn [length find_buffer_loop].
  unfold bind at 1. unfold array_read.
  destruct (Z.ltb_spec (Z.of_nat k) 0); [lia|]. rewrite Nat2Z.id.
  specialize (Ha 0%nat b eq_refl) as Hk. rewrite Nat.add_0_r in Hk. rewrite Hk.
  cbn [ret]. inversion Hv as [|? ? Hb Hv']; subst.
  destruct (lookup_lt_is_Some_2 (pool w) (Z.to_nat (b - 1)) ltac:(lia)) as [d Hd].
  unfold bind at 1, BufferGetTag, bind at 1, gets.
  destruct (Z.leb_spec b 0); [lia|]. rewrite Hd. cbn [ret].
  assert (Htag : buffer_tag (pool w) b = Some (tag_relNode d, tag_block d))
    by (unfold buffer_tag; rewrite Hd; reflexivity).
  cbn [list_find].
  destruct (decide (buffer_tag (pool w) b = Some (log, block))) as [E|E];
    rewrite Htag in E.
  - injection E as -> ->. rewrite !Z.eqb_refl. cbn. rewrite Nat.add_0_r. reflexivity.
  - destruct (Z.eqb_spec (tag_relNode d) log) as [E1|E1];
      destruct (Z.eqb_spec (tag_block d) block) as [E2|E2]; cbn [andb];
      try (exfalso; apply E; congruence).
    all: replace (Z.of_nat k + 1) with (Z.of_nat (S k)) by lia.
    all: rewrite IH;
      [ f_equal; f_equal;
        destruct (list_find _ bs) as [[i x]|]; cbn; [f_equal; lia | reflexivity]
      | intros i b' Hi; specialize (Ha (S i) b' Hi); rewrite <- Ha; f_equal; lia
      | exact Hv' ].
Qed.

(** A block that is pinned already is found, at its first place, and
    nothing is read or changed. *)
Lemma find_or_read_buffer_found (w : World) (u : nat) (r : UndoRecordSet)
    (bs : list Z) (log block : Z) (i : nat) (b : Z) :
  heap w !! u = Some (Some r) ->
  pinned r bs ->
  valid_buffers (pool w) bs ->
  list_find (fun b => buffer_tag (pool w) b = Some (log, block)) bs = Some (i, b) ->
  find_or_read_buffer u log block w = Done (Z.of_nat i, w).
Proof.
  intros Hr Hp Hv Hfind. unfold find_or_read_buffer.
  unfold bind at 1. rewrite (deref_live _ _ _ Hr).
  unfold bind at 1. destruct Hp as [Hn Hbs] eqn:Ep. rewrite Hn, Nat2Z.id.
  pose proof (find_buffer_loop_spec (buffers r) bs 0 log block w
                (fun j b' Hj => pinned_lookup r bs j b' (conj Hn Hbs) Hj) Hv) as Hloop.
  change (Z.of_nat 0) with 0 in Hloop. rewrite Hloop, Hfind. reflexivity.
Qed.

Lemma ReadBuffer_spec (rel blk : Z) (zero : bool) (w : World) :
  exists b p',
    ReadBufferWithoutRelcache rel blk zero w
      = Done (b, with_trace (cons (EvReadBuffer rel blk zero b))
                   (with_pool (fun _ => p') w)) /\
    0 < b <= Z.of_nat (length p') /\
    buffer_tag p' b = Some (rel, blk) /\
    (forall i d, pool w !! i = Some d -> p' !! i = Some d) /\
    (length (pool w) <= length p')%nat.
Proof.
  unfold ReadBufferWithoutRelcache, bind, gets.
  destruct (list_find _ (pool w)) as [[i d]|] eqn:E.
  - apply list_find_Some in E as (Hi & [E1 E2] & _).
    exists (Z.of_nat i + 1), (pool w). cbn.
    assert (Hlt : (i < length (pool w))%nat) by (eapply lookup_lt_Some; eauto).
    split; [destruct w; reflexivity|]. split; [lia|]. split; [|auto].
    unfold buffer_tag. replace (Z.to_nat (Z.of_nat i + 1 - 1)) with i by lia.
    rewrite Hi. cbn. congruence.
  - exists (Z.of_nat (length (pool w)) + 1), (pool w ++ [mkBuf rel blk zero_page]). cbn.
    split; [destruct w; reflexivity|]. rewrite length_app. cbn.
    split; [lia|]. split; [|split; [|lia]].
    + unfold buffer_tag.
      replace (Z.to_nat (Z.of_nat (length (pool w)) + 1 - 1)) with (length (pool w)) by lia.
      rewrite list_lookup_middle by reflexivity. reflexivity.
    + intros j d Hj. apply lookup_app_l_Some, Hj.
Qed.

Lemma pinned_snoc (r : UndoRecordSet) (bs : list Z) (b : Z) (a : list (option Z)) :
  pinned r bs ->
  (exists extra, a = buffers r ++ extra) ->
  (length bs < length a)%nat ->
  take (S (length bs)) (<[length bs := Some b]> a) = map Some (bs ++ [b]).
Proof.
  intros Hp [extra ->] Hlen. apply list_eq. intros i.
  destruct (decide (i < S (length bs))%nat) as [Hi|Hi].
  - rewrite lookup_take_lt by exact Hi.
    destruct (decide (i = length bs)) as [->|Hne].
    + rewrite list_lookup_insert_eq by exact Hlen.
      rewrite list_lookup_fmap, list_lookup_middle by reflexivity. reflexivity.
    + rewrite list_lookup_insert_ne by congruence.
      assert (Hlt : (i < length bs)%nat) by lia.
      destruct (lookup_lt_is_Some_2 bs i Hlt) as [x Hx].
      rewrite (lookup_app_l_Some _ _ _ _ (pinned_lookup r bs i x Hp Hx)).
      rewrite list_lookup_fmap, (lookup_app_l bs) by exact Hlt. rewrite Hx.
      reflexivity.
  - rewrite lookup_take_ge by lia. symmetry. apply lookup_ge_None.
    rewrite length_map, length_app. cbn. lia.
Qed.

(** A block that is not pinned yet is read and locked, and takes the next
    cell of the array. *)
Lemma find_or_read_buffer_new (w : World) (u : nat) (r : UndoRecordSet)
    (bs : list Z) (log block : Z) :
  heap w !! u = Some (Some r) ->
  pinned r bs ->
  valid_buffers (pool w) bs ->
  list_find (fun b => buffer_tag (pool w) b = Some (log, block)) bs = None ->
  exists b w' r',
    find_or_read_buffer u log block w = Done (Z.of_nat (length bs), w') /\
    heap w' = <[u := Some r']> (heap w) /\
    r' = set_nbuffers (nbuffers r') (set_buffers (buffers r') r) /\
    pinned r' (bs ++ [b]) /\
    0 < b <= Z.of_nat (length (pool w')) /\
    buffer_tag (pool w') b = Some (log, block) /\
    (forall i d, pool w !! i = Some d -> pool w' !! i = Some d) /\
    trace w' = EvLockBuffer b :: EvReadBuffer log block false b :: trace w /\
    slots w' = slots w /\ free_logs w' = free_logs w /\
    UndoRecordSetList w' = UndoRecordSetList w.
Proof.
  intros Hr Hp Hv Hfind. unfold find_or_read_buffer.
  unfold bind at 1. rewrite (deref_live _ _ _ Hr).
  pose proof (find_buffer_loop_spec (buffers r) bs 0 log block w
                (fun j b' Hj => pinned_lookup r bs j b' Hp Hj) Hv) as Hloop.
  change (Z.of_nat 0) with 0 in Hloop.
  destruct Hp as [Hn Hbs].
  unfold bind at 1. rewrite Hn, Nat2Z.id, Hloop, Hfind. cbn [fmap option_fmap option_map].
  destruct (reserve_buffer_array_grows u (Z.of_nat (length bs) + 1) w r Hr)
    as (r2 & E2 & Hextra & Hcap & Hr2).
  unfold bind at 1. rewrite E2.
  set (w2 := with_heap _ w).
  destruct (ReadBuffer_spec log block false w2) as (b & p' & E3 & Hb & Htag & Hpre & _).
  unfold bind at 1. rewrite E3.
  set (w3 := with_trace _ _).
  assert (Hlt : (u < length (heap w))%nat) by (eapply lookup_lt_Some; eauto).
  assert (H3 : heap w3 !! u = Some (Some r2))
    by (subst w3 w2; cbn; apply list_lookup_insert_eq, Hlt).
  unfold bind at 1. rewrite (deref_live _ _ _ H3).
  assert (Hn2 : nbuffers r2 = Z.of_nat (length bs)) by (rewrite Hr2; cbn; exact Hn).
  unfold bind at 1, array_write. rewrite Hn2.
  destruct (Z.leb_spec 0 (Z.of_nat (length bs))); [|lia].
  destruct (Z.ltb_spec (Z.of_nat (length bs)) (Z.of_nat (length (buffers r2)))); [|lia].
  cbn [andb ret bind emit modify store]. rewrite Nat2Z.id.
  eexists b, _, _. split; [reflexivity|].
  subst w3 w2. cbn.
  split; [apply list_insert_insert_eq|].
  split.
  { clear - Hr2. destruct r2, r. unfold set_nbuffers, set_buffers in *.
    cbn in *. injection Hr2 as -> -> -> -> -> -> -> -> -> -> -> -> -> -> ->.
    reflexivity. }
  split; [|repeat split; auto; lia].
  split; cbn.
  - rewrite length_app. cbn. lia.
  - rewrite length_app. cbn [length]. rewrite Nat.add_1_r.
    apply (pinned_snoc r bs b (buffers r2) (conj Hn Hbs) Hextra). lia.
Qed.

Lemma buffer_tag_kept (p p' : list BufferDesc) (b : Z) :
  0 < b <= Z.of_nat (length p) ->
  (forall i d, p !! i = Some d -> p' !! i = Some d) ->
  buffer_tag p' b = buffer_tag p b /\ 0 < b <= Z.of_nat (length p').
Proof.
  intros Hb Hpre.
  destruct (lookup_lt_is_Some_2 p (Z.to_nat (b - 1)) ltac:(lia)) as [d Hd].
  pose proof (Hpre _ _ Hd) as Hd'. unfold buffer_tag. rewrite Hd, Hd'.
  split; [reflexivity|]. apply lookup_lt_Some in Hd'. lia.
Qed.

(** X5: [find_or_read_buffer] returns the first place among the pinned
    buffers of a buffer that holds the block asked for; it reads and locks
    the block, in the next free cell, only if no pinned buffer holds it;
    and asked again for the same block it returns the same place and
    does nothing. *)
Theorem find_or_read_buffer_spec (w : World) (u : nat) (r : UndoRecordSet)
    (bs : list Z) (log block : Z) :
  heap w !! u = Some (Some r) ->
  pinned r bs ->
  valid_buffers (pool w) bs ->
  exists (i : nat) w' r' bs' b,
    find_or_read_buffer u log block w = Done (Z.of_nat i, w') /\
    heap w' !! u = Some (Some r') /\ pinned r' bs' /\
    valid_buffers (pool w') bs' /\
    (bs' = bs /\ w' = w \/
     bs' = bs ++ [b] /\ i = length bs /\
     trace w' = EvLockBuffer b :: EvReadBuffer log block false b :: trace w) /\
    bs' !! i = Some b /\
    buffer_tag (pool w') b = Some (log, block) /\
    (forall j x, (j < i)%nat -> bs' !! j = Some x ->
       buffer_tag (pool w') x <> Some (log, block)) /\
    find_or_read_buffer u log block w' = Done (Z.of_nat i, w').
Proof.
  intros Hr Hp Hv.
  destruct (list_find (fun b => buffer_tag (pool w) b = Some (log, block)) bs)
    as [[i b]|] eqn:Hfind.
  - exists i, w, r, bs, b.
    pose proof (find_or_read_buffer_found w u r bs log block i b Hr Hp Hv Hfind) as E.
    apply list_find_Some in Hfind as (Hi & Htag & Hfirst).
    split; [exact E|]. split; [exact Hr|]. split; [exact Hp|].
    split; [exact Hv|]. split; [left; auto|]. split; [exact Hi|].
    split; [exact Htag|]. split; [|exact E].
    intros j x Hj Hx. exact (Hfirst j x Hx Hj).
  - destruct (find_or_read_buffer_new w u r bs log block Hr Hp Hv Hfind)
      as (b & w' & r' & E & Hh & _ & Hp' & Hb & Htag & Hpre & Htr & _).
    assert (Hlt : (u < length (heap w))%nat) by (eapply lookup_lt_Some; eauto).
    assert (Hr' : heap w' !! u = Some (Some r'))
      by (rewrite Hh; apply list_lookup_insert_eq, Hlt).
    assert (Hold : forall x, x ∈ bs ->
              buffer_tag (pool w') x <> Some (log, block) /\
              0 < x <= Z.of_nat (length (pool w'))).
    { intros x Hx.
      pose proof (proj1 (Forall_forall _ _) Hv x Hx) as Hvx.
      destruct (buffer_tag_kept (pool w) (pool w') x Hvx Hpre) as [Ek Hvx'].
      split; [|exact Hvx']. rewrite Ek.
      apply list_find_None in Hfind.
      exact (proj1 (Forall_forall _ _) Hfind x Hx). }
    assert (Hv' : valid_buffers (pool w') (bs ++ [b])).
    { apply Forall_app. split; [|repeat constructor; lia].
      apply Forall_forall. intros x Hx. apply Hold, Hx. }
    assert (Hfind' : list_find (fun b => buffer_tag (pool w') b = Some (log, block))
                       (bs ++ [b]) = Some (length bs, b)).
    { apply list_find_Some. split; [apply list_lookup_middle; reflexivity|].
      split; [exact Htag|]. intros j y Hy Hj.
      rewrite lookup_app_l in Hy by exact Hj.
      apply Hold. eapply list_elem_of_lookup_2, Hy. }
    exists (length bs), w', r', (bs ++ [b]), b.
    split; [exact E|]. split; [exact Hr'|]. split; [exact Hp'|].
    split; [exact Hv'|]. split; [right; auto|].
    split; [apply list_lookup_middle; reflexivity|]. split; [exact Htag|]. split.
    + intros j x Hj Hx. rewrite lookup_app_l in Hx by exact Hj.
      apply Hold. eapply list_elem_of_lookup_2, Hx.
    + exact (find_or_read_buffer_found w' u r' (bs ++ [b]) log block _ b
               Hr' Hp' Hv' Hfind').
Qed.

(** ** Replay of a record that names no undo block *)

Lemma read_blocks_none (bs : list DecodedBkpBlock) (l : InsertLocals) (w : World) :
  Forall (fun b => is_undo_block b = false) bs ->
  read_blocks bs l w = Done (l, w).
Proof.
  induction 1 as [|b bs Hb _ IH]; [reflexivity|].
  cbn [read_blocks]. unfold bind at 1, read_block. rewrite Hb. cbn [negb ret].
  exact IH.
Qed.

(** X6: insert replay of a record none of whose blocks is an undo block
    goes on after the log message and reads the local [slot], which no
    pass of the loop has set: it has no defined result, whatever the
    payload. *)
Theorem UndoInsertInRecovery_without_undo_block
    (xlog_record : XLogReaderState) (data : list Z) (w : World) :
  InRecovery w = true ->
  Forall (fun b => is_undo_block b = false) (blocks xlog_record) ->
  UndoInsertInRecovery xlog_record data w
    = Fail (Undefined "slot is used uninitialised").
Proof.
  intros Hrec Hnone. unfold UndoInsertInRecovery.
  unfold bind at 1, gets. rewrite Hrec.
  unfold bind at 1, lift, Assert.
  unfold bind at 1. rewrite (read_blocks_none _ _ _ Hnone).
  reflexivity.
Qed.

(** ** Streams of entries *)

Lemma update_entry_applies (fuel : nat) (offset : Z) (data more page : list Z) :
  UndoLogBlockHeaderSize <= offset < BLCKSZ ->
  offset + Z.of_nat (length data) <= BLCKSZ ->
  data ++ more <> [] ->
  Z.of_nat (length page) = BLCKSZ ->
  exists ops,
    encode_update offset data = Done ops /\
    apply_updates_loop (S fuel) (ops ++ more) page
      = apply_updates_loop fuel more
          (take (Z.to_nat offset) page ++ data
           ++ drop (Z.to_nat offset + length data) page).
Proof.
  intros Hlo Hhi Hdata Hpage.
  pose proof header_pos. pose proof BLCKSZ_max. pose proof header_lt_block.
  assert (Hlen : 0 < Z.of_nat (length (data ++ more)))
    by (destruct (data ++ more); [congruence | cbn; lia]).
  rewrite length_app in Hlen.
  set (size := Z.of_nat (length data)) in *.
  assert (Ho : uint16 offset = offset) by (apply Z.mod_small; lia).
  assert (Hs : uint16 size = size) by (apply Z.mod_small; lia).
  destruct (split_bytes offset ltac:(lia)) as (Ho1 & Ho0 & Hoq & Hor).
  destruct (split_bytes size ltac:(lia)) as (Hs1 & Hs0 & Hsq & Hsr).
  assert (Hq : 0 <= offset / 256 < 128)
    by (split; [lia | apply Z.div_lt_upper_bound; lia]).
  destruct (high_bit_set (offset / 256) Hq) as (Hb & Hbit & Hlow).
  assert (Hb0 : uint8 (Z.lor 128 (Z.shiftr offset 8)) = Z.lor 128 (offset / 256)).
  { rewrite Z.shiftr_div_pow2 by lia. change (2 ^ 8) with 256.
    unfold uint8. apply Z.mod_small. lia. }
  unfold encode_update, write_update_ops_header. fold size. rewrite Ho, Hs.
  rewrite (proj2 (Z.leb_le _ _) BLCKSZ_max).
  rewrite (proj2 (Z.ltb_lt offset BLCKSZ)) by lia.
  rewrite (proj2 (Z.leb_le (offset + size) BLCKSZ)) by lia.
  rewrite (proj2 (Z.leb_le UndoLogBlockHeaderSize offset)) by lia.
  cbn [Assert obind]. rewrite Hb0, Ho0, Hs1, Hs0.
  eexists. split; [reflexivity|].
  rewrite <- app_assoc. cbn [app apply_updates_loop].
  assert (Hnz : (Z.lor 128 (offset / 256) =? 0) = false) by (apply Z.eqb_neq; lia).
  rewrite Hnz. cbn [negb Assert obind].
  rewrite (proj2 (Z.eqb_neq _ _) Hbit).
  assert (Hfour : (Z.of_nat (length (Z.lor 128 (offset / 256) :: offset mod 256
                     :: size / 256 :: size mod 256 :: data ++ more)) <=? 4) = false).
  { apply Z.leb_gt. cbn [length]. rewrite length_app. fold size. lia. }
  rewrite Hfour, Hlow.
  rewrite !join_bytes by lia.
  rewrite <- !Z.div_mod by lia.
  rewrite Ho, Hs.
  rewrite (proj2 (Z.ltb_ge (Z.of_nat (length (data ++ more))) size))
    by (rewrite length_app; fold size; lia).
  unfold size at 1 2. rewrite Nat2Z.id, take_app_length, drop_app_length.
  rewrite page_write_done by (fold size; lia). reflexivity.
Qed.

Lemma insert_entry_skipped (fuel : nat) (data more page : list Z) :
  1 <= Z.of_nat (length data) <= 127 ->
  apply_updates_loop (S fuel) (encode_insert data ++ more) page
    = apply_updates_loop fuel more page.
Proof.
  intros Hlen. unfold encode_insert.
  assert (Hu : uint8 (Z.of_nat (length data)) = Z.of_nat (length data))
    by (apply Z.mod_small; lia).
  rewrite Hu. cbn [app apply_updates_loop].
  rewrite (proj2 (Z.eqb_neq (Z.of_nat (length data)) 0)) by lia.
  cbn [negb Assert obind].
  assert (Hbit : Z.land (Z.of_nat (length data)) 128 = 0).
  { rewrite <- (Z.mod_small (Z.of_nat (length data)) (2 ^ 7)) by lia.
    rewrite <- Z.land_ones by lia. rewrite <- Z.land_assoc.
    change (Z.land (Z.ones 7) 128) with 0. apply Z.land_0_r. }
  rewrite Hbit. cbn [Z.eqb].
  replace (Z.to_nat (Z.of_nat (length data) + 1)) with (S (length data)) by lia.
  cbn [drop]. rewrite drop_app_length. reflexivity.
Qed.

Lemma empty_update_rejected (fuel : nat) (offset : Z) (page : list Z) :
  UndoLogBlockHeaderSize <= offset < BLCKSZ ->
  exists ops,
    encode_update offset [] = Done ops /\
    apply_updates_loop (S fuel) ops page
      = Fail (ElogError "corrupted undo update instruction").
Proof.
  intros Hlo.
  pose proof header_pos. pose proof BLCKSZ_max.
  assert (Ho : uint16 offset = offset) by (apply Z.mod_small; lia).
  destruct (split_bytes offset ltac:(lia)) as (Ho1 & Ho0 & Hoq & Hor).
  assert (Hq : 0 <= offset / 256 < 128)
    by (split; [lia | apply Z.div_lt_upper_bound; lia]).
  destruct (high_bit_set (offset / 256) Hq) as (Hb & Hbit & Hlow).
  assert (Hb0 : uint8 (Z.lor 128 (Z.shiftr offset 8)) = Z.lor 128 (offset / 256)).
  { rewrite Z.shiftr_div_pow2 by lia. change (2 ^ 8) with 256.
    unfold uint8. apply Z.mod_small. lia. }
  unfold encode_update, write_update_ops_header. cbn [length Z.of_nat].
  change (uint16 0) with 0. rewrite Ho.
  rewrite (proj2 (Z.leb_le _ _) BLCKSZ_max).
  rewrite (proj2 (Z.ltb_lt offset BLCKSZ)) by lia.
  rewrite (proj2 (Z.leb_le (offset + 0) BLCKSZ)) by lia.
  rewrite (proj2 (Z.leb_le UndoLogBlockHeaderSize offset)) by lia.
  cbn [Assert obind]. rewrite Hb0.
  eexists. split; [reflexivity|].
  cbn [app apply_updates_loop].
  assert (Hnz : (Z.lor 128 (offset / 256) =? 0) = false) by (apply Z.eqb_neq; lia).
  rewrite Hnz. cbn [negb Assert obind].
  rewrite (proj2 (Z.eqb_neq _ _) Hbit). reflexivity.
Qed.

Lemma encode_entry_nonempty (e : Entry) (ops : list Z) :
  encode_entry e = Done ops -> ops <> [].
Proof.
  destruct e as [data|offset data]; cbn.
  - intros [= <-]. discriminate.
  - unfold encode_update. destruct (write_update_ops_header _ _) as [hdr|] eqn:E;
      [|discriminate].
    cbn. intros [= <-]. unfold write_update_ops_header in E.
    repeat (destruct (Assert _ _) in E; [cbn in E | discriminate]).
    injection E as <-. discriminate.
Qed.

Lemma length_updated_page (offset : Z) (data page : list Z) :
  0 <= offset -> offset + Z.of_nat (length data) <= Z.of_nat (length page) ->
  length (take (Z.to_nat offset) page ++ data
          ++ drop (Z.to_nat offset + length data) page) = length page.
Proof.
  intros H0 H1. rewrite !length_app, length_take, length_drop. lia.
Qed.

Lemma apply_updates_loop_entries (es : list Entry) :
  Forall valid_entry es ->
  exists ops,
    encode_entries es = Done ops /\
    (es <> [] -> ops <> []) /\
    forall fuel page,
      (length es <= fuel)%nat ->
      Z.of_nat (length page) = BLCKSZ ->
      apply_updates_loop (S fuel) ops page
        = if ends_in_empty_update es
          then Fail (ElogError "corrupted undo update instruction")
          else Done (updated es page).
Proof.
  pose proof header_pos as Hhp.
  induction 1 as [|e es He Hes (rest & Erest & Hne & IH)].
  - exists []. split; [reflexivity|]. split; [congruence|]. reflexivity.
  - assert (Hends : es <> [] ->
              ends_in_empty_update (e :: es) = ends_in_empty_update es).
    { unfold ends_in_empty_update. destruct es; [congruence | reflexivity]. }
    destruct e as [data|offset data]; cbn [valid_entry] in He.
    + exists (encode_insert data ++ rest). cbn [encode_entries encode_entry obind].
      rewrite Erest. split; [reflexivity|]. split; [discriminate|].
      intros [|fuel] page Hfuel Hpage; [cbn in Hfuel; lia|].
      rewrite insert_entry_skipped by exact He. cbn [updated].
      destruct es as [|e' es'].
      * injection Erest as <-. reflexivity.
      * rewrite Hends by discriminate. apply IH; [cbn in *; lia | exact Hpage].
    + destruct He as [Hlo Hhi].
      destruct (decide (data ++ rest = [])) as [Hnil|Hnil].
      * apply app_eq_nil in Hnil as [-> ->].
        assert (es = []) as -> by (destruct es; [reflexivity | exfalso; apply Hne; congruence]).
        destruct (empty_update_rejected 0 offset [] Hlo) as (ops & Eops & _).
        exists (ops ++ []). cbn [encode_entries encode_entry obind]. rewrite Eops.
        split; [reflexivity|]. split; [intros _; rewrite app_nil_r; eapply (encode_entry_nonempty (UpdateEntry offset [])), Eops|].
        intros fuel page _ _. rewrite app_nil_r.
        destruct (empty_update_rejected fuel offset page Hlo) as (ops' & Eops' & Hrej).
        rewrite Eops in Eops'. injection Eops' as <-. exact Hrej.
      * destruct (update_entry_applies 0 offset data rest (replicate (Z.to_nat BLCKSZ) 0)
                    Hlo Hhi Hnil ltac:(rewrite length_replicate; lia)) as (ops & Eops & _).
        exists (ops ++ rest). cbn [encode_entries encode_entry obind]. rewrite Eops, Erest.
        split; [reflexivity|].
        split; [intros _ E; apply app_eq_nil in E as [E _];
                exact (encode_entry_nonempty (UpdateEntry offset data) ops Eops E)|].
        intros [|fuel] page Hfuel Hpage; [cbn in Hfuel; lia|].
        destruct (update_entry_applies (S fuel) offset data rest page Hlo Hhi Hnil Hpage)
          as (ops' & Eops' & Happ).
        rewrite Eops in Eops'. injection Eops' as <-. rewrite Happ. cbn [updated].
        destruct es as [|e' es'].
        -- injection Erest as <-. cbn [apply_updates_loop].
           unfold ends_in_empty_update. cbn [last empty_update].
           destruct data; [exfalso; apply Hnil; reflexivity | reflexivity].
        -- rewrite Hends by discriminate. apply IH; [cbn in *; lia|].
           rewrite length_updated_page by lia. exact Hpage.
Qed.

(** X7: the update scanner of [UndoUpdateInRecovery] on a stream of
    entries as the writers make them, insertions of 1 to 127 bytes and
    updates inside the usable part of the page: it passes over the
    insertions and applies the updates in order; but it takes a stream
    that ends in an update of no byte for corrupted. *)
Theorem apply_updates_entries (es : list Entry) (page : list Z) :
  Forall valid_entry es ->
  Z.of_nat (length page) = BLCKSZ ->
  exists ops,
    encode_entries es = Done ops /\
    apply_updates ops page
      = if ends_in_empty_update es
        then Fail (ElogError "corrupted undo update instruction")
        else Done (updated es page).
Proof.
  intros Hes Hpage.
  destruct (apply_updates_loop_entries es Hes) as (ops & Eops & _ & Hloop).
  exists ops. split; [exact Eops|]. unfold apply_updates. apply Hloop; [|exact Hpage].
  clear Hloop. revert ops Eops. induction Hes as [|e es He Hes IH]; intros ops Eops.
  - cbn. lia.
  - cbn [encode_entries] in Eops.
    destruct (encode_entry e) as [o1|] eqn:E1; [|discriminate].
    destruct (encode_entries es) as [o2|] eqn:E2; [|discriminate].
    cbn in Eops. injection Eops as <-. rewrite length_app. cbn [length].
    specialize (IH o2 eq_refl).
    pose proof (encode_entry_nonempty e o1 E1). destruct o1; [congruence|]. cbn. lia.
Qed.

Lemma insert_ops_loop_run (ds : list (list Z)) (more : list Z) (fuel : nat)
    (state : option UndoInsertState) (header_size : Z) (w : World) :
  Forall (fun d => Z.of_nat (length d) <= 127) ds ->
  match more with [] => True | b0 :: _ => 128 <= b0 end ->
  (length ds < fuel)%nat ->
  0 <= header_size < 2 ^ 64 ->
  insert_ops_loop fuel (flat_map encode_insert ds ++ more) state header_size w
    = (let* state := append_all state ds in
       ret (state, uint64 (header_size + Z.of_nat (length (concat ds))))) w.
Proof.
  intros Hds Hmore. revert fuel state header_size w.
  induction Hds as [|d ds Hd Hds IH]; intros fuel state h w Hfuel Hh.
  - destruct fuel as [|fuel]; [cbn in Hfuel; lia|].
    cbn [flat_map app concat length append_all].
    replace (uint64 (h + Z.of_nat 0)) with h
      by (unfold uint64; rewrite Z.add_0_r, Z.mod_small; lia).
    destruct more as [|b0 more]; [reflexivity|].
    cbn [insert_ops_loop].
    rewrite (proj2 (Z.ltb_ge b0 128)) by lia. reflexivity.
  - destruct fuel as [|fuel]; [cbn in Hfuel; lia|].
    cbn [flat_map concat append_all]. unfold encode_insert at 1.
    assert (Hu : uint8 (Z.of_nat (length d)) = Z.of_nat (length d))
      by (apply Z.mod_small; lia).
    rewrite Hu. rewrite <- !app_assoc. cbn [app insert_ops_loop].
    rewrite (proj2 (Z.ltb_lt (Z.of_nat (length d)) 128)) by lia. cbn [negb].
    rewrite (proj2 (Z.ltb_ge _ _)) by (rewrite length_app; lia).
    rewrite Nat2Z.id, take_app_length, drop_app_length.
    unfold bind in IH |- *.
    destruct (append_bytes_local state d w) as [[s w1]|fl]; [|reflexivity].
    rewrite IH; [| cbn in Hfuel; lia | unfold uint64; apply Z.mod_pos_bound; lia].
    destruct (append_all s ds w1) as [[s2 w2]|fl]; [|reflexivity].
    unfold ret. f_equal. f_equal. f_equal.
    rewrite length_app, Nat2Z.inj_add. unfold uint64.
    rewrite Zplus_mod_idemp_l. f_equal. lia.
Qed.

(** X8: the insert scanner of [UndoInsertInRecovery] on a stream that
    starts with insert entries of at most 127 bytes each: it appends
    their bytes in stream order, counts them, and stops where the stream
    ends or the first update entry begins, of which it reads the first
    byte only. *)
Theorem insert_ops_loop_entries (ds : list (list Z)) (more : list Z) (fuel : nat)
    (state : option UndoInsertState) (header_size : Z) (w : World) :
  Forall (fun d => Z.of_nat (length d) <= 127) ds ->
  match more with [] => True | b0 :: _ => 128 <= b0 end ->
  (length ds < fuel)%nat ->
  0 <= header_size < 2 ^ 64 ->
  insert_ops_loop fuel (flat_map encode_insert ds ++ more) state header_size w
    = (let* state := append_all state ds in
       ret (state, uint64 (header_size + Z.of_nat (length (concat ds))))) w.
Proof. apply insert_ops_loop_run. Qed.

(** ** Comparing worlds *)

Lemma world_eq (w1 w2 : World) :
  InRecovery w1 = InRecovery w2 -> slots w1 = slots w2 ->
  free_logs w1 = free_logs w2 -> pool w1 = pool w2 -> heap w1 = heap w2 ->
  UndoRecordSetList w1 = UndoRecordSetList w2 ->
  UndoRecordSetContext w1 = UndoRecordSetContext w2 -> trace w1 = trace w2 ->
  w1 = w2.
Proof. destruct w1, w2. cbn. intros. subst. reflexivity. Qed.

Ltac project_world :=
  lazy beta iota zeta delta
    [InRecovery slots free_logs pool heap UndoRecordSetList UndoRecordSetContext
     trace with_slots with_free_logs with_pool with_heap with_list with_context
     with_trace put_page app].

(** ** Closing a chunk whose header lies on one page *)

Lemma write_update_ops_header_done (offset size : Z) :
  UndoLogBlockHeaderSize <= offset < BLCKSZ ->
  0 <= size -> offset + size <= BLCKSZ ->
  exists hdr,
    write_update_ops_header offset size = Done hdr /\ length hdr = 4%nat.
Proof.
  intros Hlo Hs Hhi. pose proof header_pos. pose proof BLCKSZ_max.
  unfold write_update_ops_header, uint16.
  rewrite (Z.mod_small offset) by lia. rewrite (Z.mod_small size) by lia.
  rewrite (proj2 (Z.leb_le _ _) BLCKSZ_max).
  rewrite (proj2 (Z.ltb_lt offset BLCKSZ)) by lia.
  rewrite (proj2 (Z.leb_le (offset + size) BLCKSZ)) by lia.
  rewrite (proj2 (Z.leb_le UndoLogBlockHeaderSize offset)) by lia.
  cbn [Assert obind]. eexists. split; reflexivity.
Qed.

Lemma length_le_bytes (n : nat) (v : Z) : length (le_bytes n v) = n.
Proof. revert v. induction n as [|n IH]; intros v; cbn; [|rewrite IH]; reflexivity. Qed.

Lemma BufferGetPage_eq (b : Z) (d : BufferDesc) (w : World) :
  0 < b -> pool w !! Z.to_nat (b - 1) = Some d ->
  BufferGetPage b w = Done (buf_page d, w).
Proof.
  intros Hb Hd. unfold BufferGetPage, bind, gets.
  destruct (Z.leb_spec b 0); [lia|]. rewrite Hd. reflexivity.
Qed.

Lemma page_memcpy_eq (b : Z) (d : BufferDesc) (off : Z) (src : list Z) (w : World) :
  0 < b -> pool w !! Z.to_nat (b - 1) = Some d ->
  0 <= off -> off + Z.of_nat (length src) <= Z.of_nat (length (image (buf_page d))) ->
  page_memcpy b off src w
  = Done (tt, put_page b d
                (mkPage
                   (take (Z.to_nat off) (image (buf_page d)) ++ src
                    ++ drop (Z.to_nat off + length src) (image (buf_page d)))) w).
Proof.
  intros Hb Hd H0 H1. unfold page_memcpy.
  unfold bind at 1. rewrite (BufferGetPage_eq b d w Hb Hd).
  unfold bind at 1, lift. rewrite page_write_done by assumption.
  apply set_page_eq, Hd.
Qed.

Lemma UndoMarkClosed_eval (w : World) (u : nat) (r : UndoRecordSet)
    (c : UndoRecordSetChunk) (sl : UndoLogSlot) (b : Z) (d : BufferDesc) (ops0 : list Z) :
  let header_offset := chunk_header_offset c mod BLCKSZ in
  let idx := fst (chunk_header_buffer_index c) in
  let size := uint64 (meta_insert sl - chunk_header_offset c) in
  let id := uint8 (first_block_id r + idx) in
  let img' := take (Z.to_nat header_offset) (image (buf_page d)) ++ le_bytes 8 size
              ++ drop (Z.to_nat header_offset + 8) (image (buf_page d)) in
  heap w !! u = Some (Some r) ->
  chunks r = [c] ->
  slots w !! chunk_slot c = Some sl ->
  UndoLogBlockHeaderSize <= header_offset <= BLCKSZ - 8 ->
  0 <= idx -> buffers r !! Z.to_nat idx = Some (Some b) ->
  0 < b -> pool w !! Z.to_nat (b - 1) = Some d ->
  Z.of_nat (length (image (buf_page d))) = BLCKSZ ->
  write_update_ops_header header_offset 8 = Done ops0 ->
  UndoMarkClosed u w
  = Done (tt,
      with_heap (fun h => <[u := Some (set_closed true (set_chunks
                   [mkChunk (chunk_slot c) (chunk_header_offset c)
                      (chunk_header_buffer_index c) (ops0, snd (chunk_header_ops c))] r))]> h)
        (with_trace (fun t => [ EvXLogRegisterBufData id (le_bytes 8 size);
                                EvXLogRegisterBufData id ops0;
                                EvXLogRegisterBuffer id b 0;
                                EvMarkBufferDirty b ] ++ t)
           (put_page b d (mkPage img') w))).
Proof.
  intros header_offset idx size id img' Hr Hc Hsl Hho Hidx Hb Hb0 Hd Himg Hops.
  unfold UndoMarkClosed. unfold bind at 1. rewrite (deref_live _ _ _ Hr).
  rewrite Hc. cbn [indices length seq for_each].
  unfold bind at 1. unfold bind at 1. unfold mark_chunk_closed.
  unfold bind at 1. rewrite (deref_live _ _ _ Hr).
  unfold bind at 1. unfold get_chunk. unfold bind at 1. rewrite (deref_live _ _ _ Hr).
  rewrite Hc. cbn [lookup list_lookup ret].
  unfold bind at 1, slot_deref, bind at 1, gets. rewrite Hsl. cbn [ret].
  fold header_offset idx size.
  assert (Hmin : Z.min (BLCKSZ - header_offset) sizeof_UndoLogOffset = 8)
    by (unfold sizeof_UndoLogOffset; lia).
  rewrite Hmin.
  unfold bind at 1, array_read. destruct (Z.ltb_spec idx 0); [lia|]. rewrite Hb. cbn [ret].
  unfold bind at 1, emit at 1, modify at 1.
  set (w1 := with_trace (cons (EvMarkBufferDirty b)) w).
  assert (Hd1 : pool w1 !! Z.to_nat (b - 1) = Some d) by exact Hd.
  change (Z.to_nat 8) with 8%nat.
  rewrite (firstn_all2 (le_bytes 8 size)) by (rewrite length_le_bytes; lia).
  unfold bind at 1.
  rewrite (page_memcpy_eq b d header_offset (le_bytes 8 size) w1 Hb0 Hd1)
    by (rewrite ?length_le_bytes; pose proof header_pos; lia).
  rewrite length_le_bytes. fold img'.
  set (pg' := mkPage img'). set (w2 := put_page b d pg' w1).
  unfold bind at 1, XLogRegisterBuffer, emit at 1, modify at 1.
  unfold bind at 1, lift at 1. rewrite Hops.
  set (w3 := with_trace _ w2).
  assert (Hr3 : heap w3 !! u = Some (Some r)) by exact Hr.
  unfold bind at 1, set_chunk at 1, bind at 1. rewrite (deref_live _ _ _ Hr3).
  rewrite Hc. cbn [insert list_insert store modify].
  set (r4 := set_chunks _ r). set (w4 := with_heap _ w3).
  unfold bind at 1, XLogRegisterBufData at 1, emit at 1, modify at 1.
  set (w5 := with_trace _ w4).
  assert (Hd5 : pool w5 !! Z.to_nat (b - 1) = Some (mkBuf (tag_relNode d) (tag_block d) pg'))
    by (apply (pool_put_page b d pg' w1 Hd1)).
  unfold bind at 1. rewrite (BufferGetPage_eq b _ w5 Hb0 Hd5). cbn [buf_page].
  unfold pg' at 1. cbn [image]. unfold img' at 1.
  replace 8%nat with (length (le_bytes 8 size)) at 2 4 by apply length_le_bytes.
  rewrite page_read_written
    by (rewrite ?length_le_bytes; pose proof header_pos; lia).
  unfold bind at 1, XLogRegisterBufData at 1, emit at 1, modify at 1.
  change (8 <? sizeof_UndoLogOffset) with false. cbn [when ret].
  assert (Hlt : (u < length (heap w))%nat) by (eapply lookup_lt_Some; eauto).
  unfold bind at 1, deref, bind at 1, gets.
  set (w6 := with_trace _ w5).
  assert (Hr6 : heap w6 !! u = Some (Some r4))
    by (subst w6 w5 w4; cbn; apply list_lookup_insert_eq, Hlt).
  rewrite Hr6. cbn [ret]. unfold store, modify. f_equal. f_equal.
  apply world_eq; subst w6 w5 w4 w3 w2 w1; project_world; try reflexivity.
  apply list_insert_insert_eq.
Qed.

(** X9: [UndoMarkClosed] on a record set of one chunk whose header does
    not reach the last seven bytes of its page, the buffer of that page
    being the one [UndoPrepareToMarkClosed] noted.  The eight bytes at the
    header's place become the chunk's size, the insert position of the
    log less the header offset; the page is marked dirty and registered
    under block id [first_block_id + index] with an update opcode and
    those bytes; the record set is closed.  The update scanner, run on
    the registered data and the page as it was, gives the page as it is
    now. *)
Theorem UndoMarkClosed_one_page (w : World) (u : nat) (r : UndoRecordSet)
    (c : UndoRecordSetChunk) (sl : UndoLogSlot) (b : Z) (d : BufferDesc) :
  let header_offset := chunk_header_offset c mod BLCKSZ in
  let idx := fst (chunk_header_buffer_index c) in
  let size := uint64 (meta_insert sl - chunk_header_offset c) in
  let id := uint8 (first_block_id r + idx) in
  let img' := take (Z.to_nat header_offset) (image (buf_page d)) ++ le_bytes 8 size
              ++ drop (Z.to_nat header_offset + 8) (image (buf_page d)) in
  heap w !! u = Some (Some r) ->
  chunks r = [c] ->
  slots w !! chunk_slot c = Some sl ->
  UndoLogBlockHeaderSize <= header_offset <= BLCKSZ - 8 ->
  0 <= idx -> buffers r !! Z.to_nat idx = Some (Some b) ->
  0 < b -> pool w !! Z.to_nat (b - 1) = Some d ->
  Z.of_nat (length (image (buf_page d))) = BLCKSZ ->
  exists ops0,
    write_update_ops_header header_offset 8 = Done ops0 /\
    UndoMarkClosed u w
    = Done (tt,
        with_heap (fun h => <[u := Some (set_closed true (set_chunks
                     [mkChunk (chunk_slot c) (chunk_header_offset c)
                        (chunk_header_buffer_index c)
                        (ops0, snd (chunk_header_ops c))] r))]> h)
          (with_trace (fun t => [ EvXLogRegisterBufData id (le_bytes 8 size);
                                  EvXLogRegisterBufData id ops0;
                                  EvXLogRegisterBuffer id b 0;
                                  EvMarkBufferDirty b ] ++ t)
             (put_page b d (mkPage img') w))) /\
    apply_updates (ops0 ++ le_bytes 8 size) (image (buf_page d)) = Done img'.
Proof.
  intros header_offset idx size id img' Hr Hc Hsl Hho Hidx Hb Hb0 Hd Himg.
  pose proof header_pos.
  destruct (write_update_ops_header_done header_offset 8) as (ops0 & Hops & Hlen);
    [lia | lia | lia |].
  exists ops0. split; [exact Hops|]. split.
  - exact (UndoMarkClosed_eval w u r c sl b d ops0 Hr Hc Hsl Hho Hidx Hb Hb0 Hd
             Himg Hops).
  - unfold img'. generalize (length_le_bytes 8 size).
    generalize (le_bytes 8 size) as bytes. intros bytes Hlb.
    unfold apply_updates.
    destruct (update_entry_applies (length (ops0 ++ bytes)) header_offset
                bytes [] (image (buf_page d)))
      as (ops & Eops & Happ);
      [lia | rewrite Hlb; lia | destruct bytes; discriminate | exact Himg |].
    unfold encode_update in Eops. rewrite Hlb in Eops.
    change (Z.of_nat 8) with 8 in Eops. rewrite Hops in Eops. cbn [obind] in Eops.
    injection Eops as <-. rewrite app_nil_r in Happ. rewrite Happ, Hlb.
    rewrite length_app, Hlen. reflexivity.
Qed.

(** ** Update replay, block by block *)

Lemma for_each_app {A} (xs ys : list A) (body : A -> M unit) (w : World) :
  for_each (xs ++ ys) body w = (for_each xs body ;; for_each ys body) w.
Proof.
  revert w. induction xs as [|x xs IH]; intros w; [reflexivity|].
  cbn [app for_each]. unfold bind in IH |- *.
  destruct (body x w) as [[[] w1]|fl]; [|reflexivity].
  apply IH.
Qed.

Lemma ReadBuffer_pinned (rel blk : Z) (zero : bool) (w : World) (i : nat)
    (d : BufferDesc) :
  list_find (fun d => tag_relNode d = rel /\ tag_block d = blk) (pool w) = Some (i, d) ->
  ReadBufferWithoutRelcache rel blk zero w
  = Done (Z.of_nat i + 1,
          with_trace (cons (EvReadBuffer rel blk zero (Z.of_nat i + 1))) w).
Proof.
  intros Hfind. unfold ReadBufferWithoutRelcache, bind, gets. rewrite Hfind.
  reflexivity.
Qed.

(** X10: [UndoUpdateInRecovery] replays the blocks of a record one after
    the other, in order; a block that is not an in-use undo block is
    passed over.  For an undo block whose page is in the pool: if it
    needs redo, the updates of its data are applied to the bytes of the
    page, those of the page header too if an update reaches them, then
    the LSN of the page becomes that of the record, and a stream the
    scanner rejects fails the replay; if it is up to date, the page stays
    as it is; if it was restored, the page is its image; in these cases the
    buffer is read, locked, unlocked and released.  For a block that was
    not found, nothing is read and the calls that unlock and release get
    the invalid buffer. *)
Theorem UndoUpdateInRecovery_blocks (lsn : Z) (w : World) :
  (forall bs1 bs2,
     UndoUpdateInRecovery (mkRecord lsn (bs1 ++ bs2)) w
     = (UndoUpdateInRecovery (mkRecord lsn bs1) ;;
        UndoUpdateInRecovery (mkRecord lsn bs2)) w) /\
  (forall block,
     is_undo_block block = false ->
     UndoUpdateInRecovery (mkRecord lsn [block]) w = Done (tt, w)) /\
  (forall block i d,
     is_undo_block block = true ->
     list_find (fun d => tag_relNode d = rnode_relNode block /\
                         tag_block d = blkno block) (pool w) = Some (i, d) ->
     let b := Z.of_nat i + 1 in
     let calls := [ EvReleaseBuffer b; EvUnlockBuffer b; EvLockBuffer b;
                    EvReadBuffer (rnode_relNode block) (blkno block) false b ] in
     UndoUpdateInRecovery (mkRecord lsn [block]) w
     = match redo_action block with
       | BLK_NEEDS_REDO =>
         match apply_updates (default [] (bkp_data block)) (image (buf_page d)) with
         | Done img =>
           Done (tt, with_trace (fun t => calls ++ t)
                       (put_page b d (store_pd_lsn lsn (mkPage img)) w))
         | Fail fl => Fail fl
         end
       | BLK_DONE => Done (tt, with_trace (fun t => calls ++ t) w)
       | BLK_RESTORED =>
         Done (tt, with_trace (fun t => calls ++ t) (put_page b d (bkp_image block) w))
       | BLK_NOTFOUND =>
         Done (tt, with_trace (fun t => [EvReleaseBuffer 0; EvUnlockBuffer 0] ++ t) w)
       end).
Proof.
  split; [|split].
  - intros bs1 bs2. unfold UndoUpdateInRecovery. cbn [blocks ReadRecPtr].
    apply for_each_app.
  - intros block Hno. unfold UndoUpdateInRecovery. cbn [blocks for_each].
    rewrite Hno. reflexivity.
  - intros block i d Hundo Hfind b calls.
    assert (Hi : pool w !! i = Some d) by (apply list_find_Some in Hfind; tauto).
    assert (Hb : 0 < b) by (subst b; lia).
    assert (Hd : pool w !! Z.to_nat (b - 1) = Some d)
      by (subst b; replace (Z.to_nat (Z.of_nat i + 1 - 1)) with i by lia; exact Hi).
    unfold UndoUpdateInRecovery. cbn [blocks ReadRecPtr for_each].
    rewrite Hundo. cbn [when]. unfold XLogReadBufferForRedoExtended.
    destruct (redo_action block).
    + unfold bind at 1. unfold bind at 1. unfold bind at 1.
      rewrite (ReadBuffer_pinned _ _ _ _ _ _ Hfind). fold b.
      unfold bind at 1, emit at 1, modify at 1. cbn [ret when].
      set (w2 := with_trace _ (with_trace _ w)).
      assert (Hd2 : pool w2 !! Z.to_nat (b - 1) = Some d) by exact Hd.
      unfold bind at 1. unfold bind at 1. rewrite (BufferGetPage_eq b d w2 Hb Hd2).
      unfold bind at 1, lift at 1.
      destruct (apply_updates _ _) as [img|fl]; [|reflexivity].
      unfold bind at 1. rewrite (set_page_eq b d _ w2 Hd2).
      set (w3 := put_page b d _ w2).
      assert (Hd3 : pool w3 !! Z.to_nat (b - 1) = Some _) by (apply pool_put_page, Hd2).
      unfold PageSetLSN, bind at 1. rewrite (BufferGetPage_eq b _ w3 Hb Hd3).
      rewrite (set_page_eq b _ _ w3 Hd3).
      cbn [bind emit modify ret buf_page image tag_relNode tag_block].
      unfold ret. f_equal. f_equal. apply world_eq; subst w3 w2 calls; project_world;
        try reflexivity.
      apply list_insert_insert_eq.
    + unfold bind at 1. unfold bind at 1. unfold bind at 1.
      rewrite (ReadBuffer_pinned _ _ _ _ _ _ Hfind). fold b.
      cbn [bind emit modify ret when]. subst calls. reflexivity.
    + unfold bind at 1. unfold bind at 1. unfold bind at 1.
      rewrite (ReadBuffer_pinned _ _ _ _ _ _ Hfind). fold b.
      set (w1 := with_trace _ w).
      assert (Hd1 : pool w1 !! Z.to_nat (b - 1) = Some d) by exact Hd.
      unfold bind at 1. rewrite (set_page_eq b d _ w1 Hd1).
      cbn [bind emit modify ret when]. subst w1 calls. reflexivity.
    + cbn [bind emit modify ret when]. reflexivity.
Qed.

(** ** The passes of [append_bytes] *)

Lemma append_bytes_pass (fuel : nat) (st : UndoInsertState) (data : list Z)
    (size : Z) (w : World) (b : Z) (d : BufferDesc) :
  let offset := UndoRecPtrGetPageOffset (st_insert st) in
  let k := Z.min (BLCKSZ - offset) size in
  0 < size ->
  0 <= buffer_index st ->
  st_buffers st !! Z.to_nat (buffer_index st) = Some (Some b) ->
  0 < b ->
  pool w !! Z.to_nat (b - 1) = Some d ->
  Z.of_nat (length (image (buf_page d))) = BLCKSZ ->
  append_bytes_loop (S fuel) st data size w
  = append_bytes_loop fuel (after_pass st k) data (size - k)
      (put_page b d (written (buf_page d) offset (take (Z.to_nat k) data))
         (registered st b w)).
Proof.
  intros offset k Hsize Hidx Hbuf Hb Hd Himg.
  pose proof (page_offset_bounds (st_insert st)) as Hoff. fold offset in Hoff.
  assert (Hk : 0 < k <= BLCKSZ - offset /\ k <= size) by lia.
  assert (Eloop : forall s w0,
            append_bytes_loop (S fuel) s data size w0
            = (let* buffer := array_read (st_buffers s) (buffer_index s) in
               let* _ := BufferGetPage buffer in
               let offset := UndoRecPtrGetPageOffset (st_insert s) in
               let bytes_on_this_page := Z.min (BLCKSZ - offset) size in
               let* state :=
                 if negb (last_buffer_index s =? buffer_index s) then
                   let flags :=
                     if offset =? UndoLogBlockHeaderSize then REGBUF_WILL_INIT else 0 in
                   emit (EvMarkBufferDirty buffer) ;;
                   let* in_recovery := gets InRecovery in
                   when (negb in_recovery)
                     (XLogRegisterBuffer (st_first_block_id s + buffer_index s)
                        buffer flags) ;;
                   ret (mkState (st_buffers s) (st_first_block_id s)
                          (buffer_index s) (buffer_index s) (st_insert s))
                 else ret s in
               set_pd_lower buffer offset ;;
               page_memcpy buffer offset (take (Z.to_nat bytes_on_this_page) data) ;;
               let size' := size - bytes_on_this_page in
               let offset := offset + bytes_on_this_page in
               let insert := uint64 (st_insert state + bytes_on_this_page) in
               let state :=
                 if offset =? BLCKSZ then
                   mkState (st_buffers state) (st_first_block_id state)
                     (last_buffer_index state) (buffer_index state + 1)
                     (uint64 (insert + UndoLogBlockHeaderSize))
                 else
                   mkState (st_buffers state) (st_first_block_id state)
                     (last_buffer_index state) (buffer_index state) insert in
               append_bytes_loop fuel state data size') w0).
  { intros s w0. cbn [append_bytes_loop].
    destruct (Z.leb_spec size 0); [lia | reflexivity]. }
  rewrite Eloop. clear Eloop. cbv zeta. fold offset. fold k.
  unfold bind at 1, array_read. destruct (Z.ltb_spec (buffer_index st) 0); [lia|].
  rewrite Hbuf. cbn [ret].
  unfold bind at 1. rewrite (BufferGetPage_eq b d w Hb Hd).
  set (w1 := registered st b w).
  set (st1 := mkState (st_buffers st) (st_first_block_id st) (buffer_index st)
                (buffer_index st) (st_insert st)).
  assert (Ereg :
    (if negb (last_buffer_index st =? buffer_index st) then
       emit (EvMarkBufferDirty b) ;;
       let* in_recovery := gets InRecovery in
       when (negb in_recovery)
         (XLogRegisterBuffer (st_first_block_id st + buffer_index st) b
            (if offset =? UndoLogBlockHeaderSize then REGBUF_WILL_INIT else 0)) ;;
       ret st1
     else ret st) w = Done (st1, w1)).
  { subst w1 st1. unfold registered. fold offset.
    destruct (Z.eqb_spec (last_buffer_index st) (buffer_index st)) as [E|E]; cbn [negb].
    - unfold ret. clear - E. destruct st as [s1 s2 s3 s4 s5]. cbn in *. subst.
      reflexivity.
    - cbn [bind emit modify gets]. cbv zeta.
      change (InRecovery (with_trace (cons (EvMarkBufferDirty b)) w)) with (InRecovery w).
      destruct (InRecovery w); reflexivity. }
  unfold bind at 1. rewrite Ereg.
  assert (Hd1 : pool w1 !! Z.to_nat (b - 1) = Some d).
  { subst w1. unfold registered.
    destruct (negb _); [|exact Hd]. cbv zeta.
    change (InRecovery (with_trace (cons (EvMarkBufferDirty b)) w)) with (InRecovery w).
    destruct (InRecovery w); exact Hd. }
  unfold bind at 1, set_pd_lower, bind at 1. rewrite (BufferGetPage_eq b d w1 Hb Hd1).
  rewrite (set_page_eq b d _ w1 Hd1).
  set (w2 := put_page b d _ w1).
  assert (Hd2 : pool w2 !! Z.to_nat (b - 1) = Some _) by (apply pool_put_page, Hd1).
  unfold bind at 1.
  pose proof header_lt_block. pose proof header_holds_page_header.
  pose proof page_header_size.
  rewrite (uint16_small offset) in * by lia.
  rewrite (page_memcpy_eq b _ offset (take (Z.to_nat k) data) w2 Hb Hd2)
    by (cbn [buf_page]; unfold store_pd_lower; cbn [image];
        rewrite ?length_poke by (cbn [le_bytes length]; lia);
        rewrite ?length_take; lia).
  cbn [buf_page tag_relNode tag_block].
  f_equal.
  apply world_eq; subst w2; unfold written, poke; project_world; try reflexivity.
  apply list_insert_insert_eq.
Qed.

Lemma registered_pool (st : UndoInsertState) (b : Z) (w : World) :
  pool (registered st b w) = pool w.
Proof.
  unfold registered. destruct (negb _); [|reflexivity]. cbv zeta.
  change (InRecovery (with_trace (cons (EvMarkBufferDirty b)) w)) with (InRecovery w).
  destruct (InRecovery w); reflexivity.
Qed.

Lemma append_bytes_loop_done (fuel : nat) (st : UndoInsertState) (data : list Z)
    (w : World) :
  append_bytes_loop fuel st data 0 w = Done (st, w).
Proof. destruct fuel; reflexivity. Qed.


Lemma pointer_offset_add (urp n : Z) :
  0 <= urp -> 0 <= n ->
  UndoRecPtrGetOffset urp + n < 2 ^ UndoLogOffsetBits ->
  UndoRecPtrGetOffset (urp + n) = UndoRecPtrGetOffset urp + n.
Proof.
  intros Hu Hn Hlt. pose proof offset_bits_pos.
  unfold UndoRecPtrGetOffset in *.
  change (2 ^ UndoLogOffsetBits - 1) with (Z.pred (2 ^ UndoLogOffsetBits)) in *.
  rewrite <- Z.ones_equiv in *. rewrite !Z.land_ones in * by lia.
  assert (Hpow : 0 < 2 ^ UndoLogOffsetBits) by (apply Z.pow_pos_nonneg; lia).
  pose proof (Z.mod_pos_bound urp (2 ^ UndoLogOffsetBits) Hpow).
  rewrite Z.add_mod by lia. rewrite (Z.mod_small n) by lia.
  apply Z.mod_small. lia.
Qed.

(** The page offset of the cursor after a pass that filled the page: the
    first usable byte of the next page. *)
Lemma page_offset_next (urp k : Z) :
  0 <= urp -> 0 < k ->
  UndoRecPtrGetPageOffset urp + k = BLCKSZ ->
  urp + k + UndoLogBlockHeaderSize < 2 ^ 64 ->
  UndoRecPtrGetOffset urp + k + UndoLogBlockHeaderSize < 2 ^ UndoLogOffsetBits ->
  uint64 (uint64 (urp + k) + UndoLogBlockHeaderSize) = urp + k + UndoLogBlockHeaderSize /\
  UndoRecPtrGetPageOffset (urp + k + UndoLogBlockHeaderSize) = UndoLogBlockHeaderSize.
Proof.
  intros Hu Hk Hfull H64 Hbits.
  pose proof header_pos. pose proof header_lt_block. pose proof BLCKSZ_pos.
  split.
  - unfold uint64. rewrite (Z.mod_small (urp + k)) by lia. apply Z.mod_small. lia.
  - unfold UndoRecPtrGetPageOffset in *.
    rewrite <- Z.add_assoc, pointer_offset_add by lia.
    pose proof (pointer_offset_nonneg urp).
    rewrite (Z.div_mod (UndoRecPtrGetOffset urp) BLCKSZ) by lia.
    replace (BLCKSZ * (UndoRecPtrGetOffset urp / BLCKSZ)
             + UndoRecPtrGetOffset urp mod BLCKSZ + (k + UndoLogBlockHeaderSize))
      with (UndoLogBlockHeaderSize + (UndoRecPtrGetOffset urp / BLCKSZ + 1) * BLCKSZ)
      by lia.
    rewrite Z.mod_add by lia. apply Z.mod_small. lia.
Qed.


(** ** The space [reserve_physical_undo] returns is backed *)

Lemma wp_slot_deref s w (Q : UndoLogSlot -> World -> Prop) :
  (forall sl, slots w !! s = Some sl -> Q sl w) ->
  wp None (slot_deref s) w Q.
Proof.
  intros H. unfold slot_deref. apply wp_bind, wp_gets.
  destruct (slots w !! s) as [sl|] eqn:E; [apply wp_ret, H; reflexivity|].
  apply wp_fail. discriminate.
Qed.

Lemma raise_end_covers (ss : list UndoLogSlot) (s : nat) (sl : UndoLogSlot) (new_end : Z) :
  ss !! s = Some sl ->
  Forall (fun v => 0 <= slot_end v) ss ->
  Forall (fun v => 0 <= slot_end v) (map (raise_end (logno sl) new_end) ss) /\
  exists sl', map (raise_end (logno sl) new_end) ss !! s = Some sl' /\
    logno sl' = logno sl /\ meta_insert sl' = meta_insert sl /\
    new_end <= slot_end sl' /\ slot_end sl <= slot_end sl'.
Proof.
  intros Hs Hnn. split.
  - apply Forall_fmap. eapply Forall_impl; [exact Hnn|]. intros v Hv.
    unfold compose, raise_end. cbv beta in Hv.
    destruct (logno v =? logno sl); cbn [slot_end]; lia.
  - rewrite list_lookup_fmap, Hs. cbn. unfold raise_end. rewrite Z.eqb_refl.
    eexists. split; [reflexivity|]. cbn. repeat split; lia.
Qed.

Lemma try_active_log_backed (u : nat) (n : Z) (w : World) :
  ends_known u w ->
  wp None (try_active_log u n) w (fun p w' =>
    ends_known u w' /\
    match p with
    | None => True
    | Some p =>
      exists r s sl ths,
        heap w' !! u = Some (Some r) /\ slot r = Some s /\ slots w' !! s = Some sl /\
        p = MakeUndoRecPtr (logno sl) (meta_insert sl) /\
        (if need_type_header r then urst_header_size (urs_type r) else Done 0)
          = Done ths /\
        UndoLogOffsetPlusUsableBytes (meta_insert sl)
          (uint64 (n + (if need_chunk_header r then UndoRecordSetChunkHeaderSize else 0)
                   + ths)) <= slot_end sl
    end).
Proof.
  intros [Hnn Hend]. unfold try_active_log.
  apply wp_bind, wp_deref; [apply no_bad|]. intros r Hr.
  destruct (slot r) as [s|] eqn:Hs; [|apply wp_ret; split; [split; assumption | exact I]].
  apply wp_bind, wp_lift. destruct (1 <=? nchunks r); cbn [Assert]; [|discriminate].
  apply wp_bind.
  apply wp_mono with (Q := fun ths w' => w' = w /\
    (if need_type_header r then urst_header_size (urs_type r) else Done 0) = Done ths).
  { destruct (need_type_header r).
    - apply wp_lift. destruct (urst_header_size (urs_type r)); [auto | discriminate].
    - apply wp_ret. auto. }
  intros ths w0 [-> Hths].
  apply wp_bind, wp_slot_deref. intros sl Hsl.
  destruct (Hend r s Hr Hs) as (sl0 & Hsl0 & Hre). rewrite Hsl in Hsl0.
  injection Hsl0 as <-.
  set (new_insert := UndoLogOffsetPlusUsableBytes _ _).
  destruct (Z.leb_spec new_insert (recent_end r)) as [Hfast|Hslow].
  { apply wp_ret. split; [split; assumption|].
    exists r, s, sl, ths. repeat split; auto. fold new_insert. lia. }
  apply wp_bind, wp_modify. apply wp_bind, wp_modify. apply wp_bind, wp_modify.
  set (r1 := set_recent_end (slot_end sl) r).
  set (w1 := with_trace _ (with_heap _ (with_trace _ w))).
  assert (Hlt : (u < length (heap w))%nat) by (eapply lookup_lt_Some; eauto).
  assert (Hr1 : heap w1 !! u = Some (Some r1))
    by (subst w1; cbn; apply list_lookup_insert_eq, Hlt).
  assert (Hs1 : slots w1 = slots w) by reflexivity.
  destruct (Z.leb_spec new_insert (slot_end sl)) as [Hfit|Hnofit].
  { apply wp_ret. split.
    - split; [rewrite Hs1; exact Hnn|]. intros r' s' Hr' Hs'.
      rewrite Hr1 in Hr'. injection Hr' as <-. cbn in Hs'. rewrite Hs in Hs'.
      injection Hs' as <-. exists sl. rewrite Hs1. split; [exact Hsl | cbn; lia].
    - exists r1, s, sl, ths. rewrite Hs1. repeat split; auto. }
  destruct (Z.leb_spec new_insert UndoLogMaxSize) as [Hmax|Hfull].
  { unfold UndoLogAdjustPhysicalRange.
    apply wp_bind, wp_bind, wp_modify, wp_modify, wp_ret.
    destruct (raise_end_covers (slots w) s sl new_insert Hsl Hnn)
      as (Hnn' & sl' & Hsl' & Hlog & Hins & Hcov & Hge).
    split.
    - split; [exact Hnn'|]. intros r' s' Hr' Hs'.
      change (heap w1 !! u = Some (Some r')) in Hr'.
      rewrite Hr1 in Hr'. injection Hr' as <-. cbn in Hs'. rewrite Hs in Hs'.
      injection Hs' as <-. exists sl'. split; [exact Hsl' | cbn; lia].
    - exists r1, s, sl', ths. rewrite Hlog, Hins. repeat split; auto. }
  unfold UndoLogMarkFull.
  apply wp_bind, wp_bind, wp_slot_deref. intros sl2 Hsl2.
  apply wp_bind, wp_modify, wp_modify.
  apply wp_bind, wp_deref; [apply no_bad|]. intros r2 Hr2.
  apply wp_bind, wp_modify, wp_ret. split; [|exact I]. split.
  - cbn. apply Forall_insert; [exact Hnn|]. cbn.
    rewrite Hs1 in Hsl2. rewrite Hsl in Hsl2. injection Hsl2 as <-.
    apply (proj1 (Forall_lookup _ _) Hnn s sl Hsl).
  - intros r' s' Hr' Hs'. exfalso. revert Hr'. cbn.
    rewrite list_lookup_insert_eq
      by (rewrite length_insert; exact Hlt).
    intros [= <-]. cbn in Hs'. discriminate.
Qed.

Lemma start_new_chunk_backed (u : nat) (w : World) :
  ends_known u w ->
  wp None (start_new_chunk u) w (fun _ w' => ends_known u w').
Proof.
  intros [Hnn Hend]. unfold start_new_chunk.
  apply wp_bind, wp_deref; [apply no_bad|]. intros r Hr. cbv zeta.
  unfold UndoLogGetForPersistence.
  apply wp_bind, wp_bind, wp_gets, wp_bind, wp_gets.
  destruct (list_find _ (free_logs w)) as [[i s]|]; [|apply wp_fail; discriminate].
  apply wp_bind, wp_modify, wp_ret.
  apply wp_bind, wp_slot_deref. intros sl Hsl. apply wp_modify.
  assert (Hlt : (u < length (heap w))%nat) by (eapply lookup_lt_Some; eauto).
  split; [exact Hnn|]. intros r' s' Hr' Hs'. revert Hr'. cbn.
  rewrite list_lookup_insert_eq by exact Hlt. intros [= <-].
  cbn in Hs'. injection Hs' as <-. exists sl. split; [exact Hsl|].
  cbn. apply (proj1 (Forall_lookup _ _) Hnn _ _ Hsl).
Qed.

Lemma reserve_physical_undo_wp (fuel : nat) (u : nat) (data_size : Z) (w : World) :
  ends_known u w ->
  wp None (reserve_physical_undo fuel u data_size) w (fun p w' =>
    ends_known u w' /\
    exists r s sl ths,
      heap w' !! u = Some (Some r) /\ slot r = Some s /\ slots w' !! s = Some sl /\
      p = MakeUndoRecPtr (logno sl) (meta_insert sl) /\
      (if need_type_header r then urst_header_size (urs_type r) else Done 0)
        = Done ths /\
      UndoLogOffsetPlusUsableBytes (meta_insert sl)
        (uint64 (data_size
                 + (if need_chunk_header r then UndoRecordSetChunkHeaderSize else 0)
                 + ths)) <= slot_end sl).
Proof.
  revert w. induction fuel as [|fuel IH]; intros w Hinv.
  - apply wp_fail. discriminate.
  - cbn [reserve_physical_undo]. apply wp_bind. unfold reserve_pass.
    apply wp_bind. eapply wp_mono; [apply try_active_log_backed, Hinv|].
    cbv beta. intros [q|] w1 [Hinv1 Hq].
    + apply wp_ret, wp_ret. split; assumption.
    + apply wp_bind. eapply wp_mono; [apply start_new_chunk_backed, Hinv1|].
      cbv beta. intros _ w2 Hinv2. apply wp_ret. apply IH, Hinv2.
Qed.

(** X12: the pointer [reserve_physical_undo] returns is the insert
    position of the active log of the record set, and the space from
    there for the requested bytes and the pending headers lies before the
    end of that log: the log was long enough, or it was extended.  This
    holds wherever the cached end of the active log is not beyond the
    log's end, which the call keeps so. *)
Theorem reserve_physical_undo_backed (fuel : nat) (u : nat) (data_size : Z)
    (w : World) (p : Z) (w' : World) :
  ends_known u w ->
  reserve_physical_undo fuel u data_size w = Done (p, w') ->
  ends_known u w' /\
  exists r s sl ths,
    heap w' !! u = Some (Some r) /\ slot r = Some s /\ slots w' !! s = Some sl /\
    p = MakeUndoRecPtr (logno sl) (meta_insert sl) /\
    (if need_type_header r then urst_header_size (urs_type r) else Done 0) = Done ths /\
    UndoLogOffsetPlusUsableBytes (meta_insert sl)
      (uint64 (data_size
               + (if need_chunk_header r then UndoRecordSetChunkHeaderSize else 0)
               + ths)) <= slot_end sl.
Proof.
  intros Hinv Hrun.
  exact (wp_done None _ _ _ _ _ (reserve_physical_undo_wp fuel u data_size w Hinv) Hrun).
Qed.

(** ** The blocks [UndoAllocate] reads *)

Lemma adds_refl P w : adds P w w.
Proof. exists []. split; [reflexivity | constructor]. Qed.

Lemma adds_trans P w1 w2 w3 : adds P w1 w2 -> adds P w2 w3 -> adds P w1 w3.
Proof.
  intros (n1 & E1 & H1) (n2 & E2 & H2). exists (n2 ++ n1).
  split; [rewrite E2, E1, app_assoc; reflexivity | apply Forall_app; auto].
Qed.

Lemma adds_same P w w' : trace w' = trace w -> adds P w w'.
Proof. intros E. exists []. split; [exact E | constructor]. Qed.

Lemma adds_event P e w w' : P e -> trace w' = e :: trace w -> adds P w w'.
Proof. intros He E. exists [e]. split; [exact E | repeat constructor; exact He]. Qed.

(** A computation that adds calls satisfying [P] only. *)
Lemma wp_adds_bind {A B} (P : Event -> Prop) (m : M A) (k : A -> M B) w0 w
    (Q : B -> World -> Prop) :
  adds P w0 w ->
  wp None m w (fun _ w1 => adds P w w1) ->
  (forall a w1, adds P w0 w1 -> wp None (k a) w1 Q) ->
  wp None (bind m k) w Q.
Proof.
  intros H0 Hm Hk. apply wp_bind. eapply wp_mono; [exact Hm|].
  intros a w1 H1. apply Hk. eapply adds_trans; eauto.
Qed.

Lemma try_active_log_reads_nothing u n w :
  wp None (try_active_log u n) w (fun _ w' => adds reads_nothing w w').
Proof.
  unfold try_active_log.
  apply wp_bind, wp_deref; [apply no_bad|]. intros r Hr.
  destruct (slot r) as [s|]; [|apply wp_ret, adds_refl].
  apply wp_bind, wp_lift. destruct (Assert _ _); [|discriminate].
  apply wp_bind.
  apply wp_mono with (Q := fun _ w' => w' = w).
  { destruct (need_type_header r); [|apply wp_ret; reflexivity].
    apply wp_lift. destruct (urst_header_size _); [reflexivity | discriminate]. }
  intros ths w0 ->.
  apply wp_bind, wp_slot_deref. intros sl Hsl.
  destruct (_ <=? recent_end r); [apply wp_ret, adds_refl|].
  apply wp_bind, wp_modify. apply wp_bind, wp_modify. apply wp_bind, wp_modify.
  set (w1 := with_trace _ (with_heap _ (with_trace _ w))).
  assert (H1 : adds reads_nothing w w1)
    by (eexists [_; _]; split; [reflexivity | repeat constructor]).
  destruct (_ <=? slot_end sl); [apply wp_ret, H1|].
  destruct (_ <=? UndoLogMaxSize).
  - unfold UndoLogAdjustPhysicalRange.
    apply wp_bind, wp_bind, wp_modify, wp_modify, wp_ret.
    eapply adds_trans; [exact H1|]. eapply adds_event; [|reflexivity]. reflexivity.
  - unfold UndoLogMarkFull.
    apply wp_bind, wp_bind, wp_slot_deref. intros sl2 Hsl2.
    apply wp_bind, wp_modify, wp_modify.
    apply wp_bind, wp_deref; [apply no_bad|]. intros r2 Hr2.
    apply wp_bind, wp_modify, wp_ret.
    eapply adds_trans; [exact H1|]. eapply adds_event; [|reflexivity]. reflexivity.
Qed.

Lemma start_new_chunk_reads_nothing u w :
  wp None (start_new_chunk u) w (fun _ w' => adds reads_nothing w w').
Proof.
  unfold start_new_chunk.
  apply wp_bind, wp_deref; [apply no_bad|]. intros r Hr. cbv zeta.
  unfold UndoLogGetForPersistence.
  apply wp_bind, wp_bind, wp_gets, wp_bind, wp_gets.
  destruct (list_find _ (free_logs w)) as [[i s]|]; [|apply wp_fail; discriminate].
  apply wp_bind, wp_modify, wp_ret.
  apply wp_bind, wp_slot_deref. intros sl Hsl. apply wp_modify.
  apply adds_same. reflexivity.
Qed.

Lemma reserve_physical_undo_reads_nothing fuel u n w :
  wp None (reserve_physical_undo fuel u n) w (fun _ w' => adds reads_nothing w w').
Proof.
  revert w. induction fuel as [|fuel IH]; intros w; [apply wp_fail; discriminate|].
  cbn [reserve_physical_undo]. unfold reserve_pass.
  eapply wp_adds_bind; [apply adds_refl | |].
  - eapply wp_adds_bind; [apply adds_refl | apply try_active_log_reads_nothing |].
    intros [q|] w1 H1; [apply wp_ret, H1|].
    eapply wp_adds_bind; [exact H1 | apply start_new_chunk_reads_nothing |].
    intros _ w2 H2. apply wp_ret.
    destruct H1 as (n1 & E1 & F1). destruct H2 as (n2 & E2 & F2).
    exists n2. split; [exact E2 | exact F2].
  - intros [q|] w1 H1; [apply wp_ret, H1|].
    eapply wp_mono; [apply IH|]. intros p w2 H2. eapply adds_trans; eauto.
Qed.

Lemma count_reads_app t1 t2 : count_reads (t1 ++ t2) = count_reads t1 + count_reads t2.
Proof. unfold count_reads. rewrite filter_app, length_app. lia. Qed.

Lemma count_reads_nothing t : Forall reads_nothing t -> count_reads t = 0.
Proof.
  intros H. unfold count_reads. induction H as [|e t He _ IH]; [reflexivity|].
  rewrite filter_cons_False by (rewrite He; discriminate). exact IH.
Qed.

Lemma pin_loop_reads (fuel : nat) (u : nat) (relNode urp total_size : Z)
    (w : World) (r : UndoRecordSet) :
  let block := UndoRecPtrGetBlockNum urp in
  let zero := UndoRecPtrGetPageOffset urp =? UndoLogBlockHeaderSize in
  heap w !! u = Some (Some r) ->
  wp None (pin_loop fuel u relNode urp total_size) w (fun _ w' =>
    exists new r',
      trace w' = new ++ trace w /\
      Forall (reads_only relNode block zero) new /\
      heap w' !! u = Some (Some r') /\
      nbuffers r' = nbuffers r + count_reads new).
Proof.
  intros block zero. revert total_size w r.
  induction fuel as [|fuel IH]; intros total_size w r Hr; cbn [pin_loop];
    destruct (total_size <=? 0).
  1, 3: apply wp_ret; exists [], r; split; [reflexivity|]; split; [apply Forall_nil_2|];
    split; [exact Hr | change (count_reads []) with 0; lia].
  - apply wp_fail. discriminate.
  - fold block zero.
    destruct (ReadBuffer_spec relNode block zero w) as (b & p' & E & Hb & _).
    apply wp_bind. eapply wp_of_done; [exact E|].
    set (w1 := with_trace _ _).
    apply wp_bind, wp_deref; [apply no_bad|]. intros r1 Hr1.
    change (heap w !! u = Some (Some r1)) in Hr1. rewrite Hr in Hr1.
    injection Hr1 as <-.
    apply wp_bind. unfold array_write.
    destruct (_ && _); [|apply wp_fail; discriminate]. apply wp_ret.
    apply wp_bind, wp_modify.
    set (r2 := set_nbuffers _ _). set (w2 := with_heap _ w1).
    assert (Hlt : (u < length (heap w))%nat) by (eapply lookup_lt_Some; eauto).
    assert (Hr2 : heap w2 !! u = Some (Some r2))
      by (subst w2 w1; cbn; apply list_lookup_insert_eq, Hlt).
    apply wp_bind.
    apply wp_mono with (Q := fun _ w3 =>
      heap w3 = heap w2 /\
      exists new, trace w3 = new ++ trace w2 /\ Forall reads_nothing new).
    { destruct zero; cbn [when].
      - unfold PageInit. apply wp_bind. unfold BufferGetPage.
        apply wp_bind, wp_gets. destruct (b <=? 0); [apply wp_fail; discriminate|].
        destruct (pool w2 !! Z.to_nat (b - 1)); [|apply wp_fail; discriminate].
        apply wp_ret.
        apply wp_bind, wp_modify, wp_modify.
        split; [reflexivity|]. exists [EvPageInit b]. split; [reflexivity|].
        repeat constructor.
      - apply wp_ret. split; [reflexivity|]. exists []. split; [reflexivity|constructor]. }
    intros _ w3 (Hh3 & new3 & Et3 & Hn3).
    assert (Hr3 : heap w3 !! u = Some (Some r2)) by (rewrite Hh3; exact Hr2).
    eapply wp_mono; [apply (IH _ w3 r2 Hr3)|].
    cbv beta. intros _ w' (new & r' & Et & Hall & Hr' & Hn).
    exists (new ++ new3 ++ [EvReadBuffer relNode block zero b]), r'.
    split; [rewrite Et, Et3, <- !app_assoc; reflexivity|].
    split.
    + apply Forall_app. split; [exact Hall|]. apply Forall_app. split.
      * eapply Forall_impl; [exact Hn3|]. intros e He.
        destruct e; cbn in *; try exact I; discriminate.
      * repeat constructor.
    + split; [exact Hr'|]. rewrite Hn. subst r2. cbn [nbuffers set_nbuffers].
      rewrite !count_reads_app, (count_reads_nothing new3 Hn3).
      unfold count_reads at 3. rewrite filter_cons_True by reflexivity.
      cbn. lia.
Qed.

Lemma lock_loop_reads_nothing (a : list (option Z)) (xs : list nat) (w : World) :
  wp None (for_each xs (fun i =>
             let* buffer := array_read a (Z.of_nat i) in
             emit (EvLockBuffer buffer))) w
    (fun _ w' => heap w' = heap w /\ adds reads_nothing w w').
Proof.
  revert w. induction xs as [|x xs IH]; intros w.
  - apply wp_ret. split; [reflexivity | apply adds_refl].
  - cbn [for_each]. apply wp_bind, wp_bind. unfold array_read.
    destruct (_ <? 0); [apply wp_fail; discriminate|].
    destruct (a !! _) as [[b|]|]; [|apply wp_fail; discriminate ..].
    apply wp_ret, wp_modify.
    eapply wp_mono; [apply IH|]. cbv beta. intros _ w' [Hh Ha].
    split; [exact Hh|]. eapply adds_trans; [|exact Ha].
    eapply adds_event; [|reflexivity]. reflexivity.
Qed.

(** X13: all the blocks one call of [UndoAllocate] reads are one and the
    same block, the block of the pointer [begin] its call of
    [reserve_physical_undo] returned, however many bytes are asked for:
    the pinning loop does not advance its pointer.  The call reads that
    block once for every buffer it pins, and the pointer it returns is
    [begin] advanced over the headers that are pending for the record set
    when the space is reserved: the chunk header if one is needed, and
    the type header if one is needed. *)
Theorem UndoAllocate_reads_one_block (fuel : nat) (u : nat) (data_size : Z)
    (w : World) (p : Z) (w' : World) :
  UndoAllocate fuel u data_size w = Done (p, w') ->
  exists begin w1 r1 ths new r',
    reserve_physical_undo fuel u data_size w = Done (begin, w1) /\
    heap w1 !! u = Some (Some r1) /\
    (if need_type_header r1 then urst_header_size (urs_type r1) else Done 0)
      = Done ths /\
    p = UndoRecPtrPlusUsableBytes begin
          (uint64 ((if need_chunk_header r1 then UndoRecordSetChunkHeaderSize else 0)
                   + ths)) /\
    trace w' = new ++ trace w /\
    Forall (reads_only (UndoRecPtrGetLogNo begin) (UndoRecPtrGetBlockNum begin)
              (UndoRecPtrGetPageOffset begin =? UndoLogBlockHeaderSize)) new /\
    heap w' !! u = Some (Some r') /\
    nbuffers r' = count_reads new.
Proof.
  intros Hrun.
  refine (wp_done None _ _ (fun p w' => exists begin w1 r1 ths new r', _) _ _ _ Hrun).
  clear Hrun. unfold UndoAllocate.
  apply wp_bind.
  eapply wp_mono;
    [apply wp_conj; [apply wp_run | apply reserve_physical_undo_reads_nothing]|].
  cbv beta. intros begin w1 (Eres & new1 & Et1 & Hn1).
  apply wp_bind, wp_deref; [apply no_bad|]. intros r Hr.
  apply wp_bind.
  apply wp_mono with (Q := fun ths w0 => w0 = w1 /\
    (if need_type_header r then urst_header_size (urs_type r) else Done 0) = Done ths).
  { destruct (need_type_header r); [|apply wp_ret; split; reflexivity].
    apply wp_lift. destruct (urst_header_size _); [split; reflexivity | discriminate]. }
  intros ths w0 (-> & Hths).
  match goal with |- context [reserve_buffer_array u ?c] =>
    destruct (reserve_buffer_array_grows u c w1 r Hr) as (r3 & E3 & _ & _ & Hr3)
  end.
  apply wp_bind. eapply wp_of_done; [exact E3|].
  set (w3 := with_heap _ w1).
  assert (Hlt : (u < length (heap w1))%nat) by (eapply lookup_lt_Some; eauto).
  apply wp_bind, wp_deref; [apply no_bad|]. intros r4 Hr4.
  apply wp_bind, wp_lift.
  destruct (Z.eqb_spec (nbuffers r4) 0) as [Hz|Hz]; cbn [Assert]; [|discriminate].
  apply wp_bind. eapply wp_mono; [apply (pin_loop_reads _ _ _ _ _ w3 r4 Hr4)|].
  cbv beta. intros _ w5 (new5 & r5 & Et5 & Hall5 & Hr5 & Hn5).
  apply wp_bind, wp_deref; [apply no_bad|]. intros r6 Hr6.
  rewrite Hr5 in Hr6. injection Hr6 as <-.
  apply wp_bind. eapply wp_mono; [apply lock_loop_reads_nothing|].
  cbv beta. intros _ w7 (Hh7 & new7 & Et7 & Hn7).
  apply wp_ret. exists begin, w1, r, ths, (new7 ++ new5 ++ new1), r5.
  split; [exact Eres|]. split; [exact Hr|]. split; [exact Hths|].
  split; [reflexivity|]. split.
  { rewrite Et7, Et5. change (trace w3) with (trace w1). rewrite Et1, <- !app_assoc.
    reflexivity. }
  split.
  { assert (Hweak : forall e, reads_nothing e ->
              reads_only (UndoRecPtrGetLogNo begin) (UndoRecPtrGetBlockNum begin)
                (UndoRecPtrGetPageOffset begin =? UndoLogBlockHeaderSize) e)
      by (intros e He; destruct e; cbn in *; try exact I; discriminate).
    apply Forall_app. split; [eapply Forall_impl; eauto|].
    apply Forall_app. split; [exact Hall5 | eapply Forall_impl; eauto]. }
  split; [rewrite Hh7; exact Hr5|].
  rewrite Hn5, Hz, !count_reads_app, (count_reads_nothing new7 Hn7),
    (count_reads_nothing new1 Hn1). lia.
Qed.
(** ** Noting the buffers of the chunk headers *)

Lemma valid_buffers_kept (p p' : list BufferDesc) (bs : list Z) :
  (forall i d, p !! i = Some d -> p' !! i = Some d) ->
  valid_buffers p bs -> valid_buffers p' bs.
Proof.
  intros Hpre Hv. eapply Forall_impl; [exact Hv|]. cbv beta. intros b Hb.
  apply (buffer_tag_kept p p' b Hb Hpre).
Qed.

Lemma holds_block_kept (p p' : list BufferDesc) (bs extra : list Z) (i log block : Z) :
  (forall i d, p !! i = Some d -> p' !! i = Some d) ->
  valid_buffers p bs ->
  holds_block p bs i log block -> holds_block p' (bs ++ extra) i log block.
Proof.
  intros Hpre Hv (Hi & b & Hb & Htag). split; [exact Hi|]. exists b.
  split; [apply lookup_app_l_Some, Hb|].
  assert (Hval : 0 < b <= Z.of_nat (length p)).
  { unfold valid_buffers in Hv. rewrite Forall_lookup in Hv. exact (Hv _ _ Hb). }
  destruct (buffer_tag_kept p p' b Hval Hpre) as [-> _]. exact Htag.
Qed.

Lemma prepared_kept (p p' : list BufferDesc) (bs extra : list Z) (log : Z)
    (c : UndoRecordSetChunk) :
  (forall i d, p !! i = Some d -> p' !! i = Some d) ->
  valid_buffers p bs ->
  prepared p bs log c -> prepared p' (bs ++ extra) log c.
Proof.
  intros Hpre Hv [H0 H1]. split; [eapply holds_block_kept; eauto|].
  destruct (_ <=? _); [exact H1 | eapply holds_block_kept; eauto].
Qed.

(** One call of [find_or_read_buffer], whether the block was pinned or
    not. *)
Lemma find_or_read_buffer_step (w : World) (u : nat) (r : UndoRecordSet)
    (bs : list Z) (log block : Z) :
  heap w !! u = Some (Some r) ->
  pinned r bs ->
  valid_buffers (pool w) bs ->
  exists (i : nat) w' r' extra,
    find_or_read_buffer u log block w = Done (Z.of_nat i, w') /\
    heap w' = <[u := Some r']> (heap w) /\ chunks r' = chunks r /\
    pinned r' (bs ++ extra) /\ valid_buffers (pool w') (bs ++ extra) /\
    holds_block (pool w') (bs ++ extra) (Z.of_nat i) log block /\
    (forall i d, pool w !! i = Some d -> pool w' !! i = Some d) /\
    slots w' = slots w.
Proof.
  intros Hr Hp Hv.
  destruct (list_find (fun b => buffer_tag (pool w) b = Some (log, block)) bs)
    as [[i b]|] eqn:Hfind.
  - exists i, w, r, [].
    pose proof (find_or_read_buffer_found w u r bs log block i b Hr Hp Hv Hfind) as E.
    apply list_find_Some in Hfind as (Hi & Htag & _). rewrite app_nil_r.
    split; [exact E|]. split; [symmetry; apply list_insert_id, Hr|].
    split; [reflexivity|]. split; [exact Hp|]. split; [exact Hv|].
    split; [|split; [auto | reflexivity]].
    split; [lia|]. exists b. rewrite Nat2Z.id. auto.
  - destruct (find_or_read_buffer_new w u r bs log block Hr Hp Hv Hfind)
      as (b & w' & r' & E & Hh & Hr' & Hp' & Hb & Htag & Hpre & _ & Hs & _).
    exists (length bs), w', r', [b].
    split; [exact E|]. split; [exact Hh|].
    split; [rewrite Hr'; reflexivity|]. split; [exact Hp'|].
    split.
    { apply Forall_app. split; [eapply valid_buffers_kept; eauto|].
      repeat constructor; apply Hb. }
    split; [|split; [exact Hpre | exact Hs]].
    split; [lia|]. exists b. rewrite Nat2Z.id.
    split; [apply list_lookup_middle; reflexivity | exact Htag].
Qed.

(** The body of the loop of [UndoPrepareToMarkClosed], for chunk [i]. *)
Local Abbreviation prepare_body u :=
  (fun i : nat =>
     let* chunk := get_chunk u i in
     let header := chunk_header_offset chunk in
     let header_block := header / BLCKSZ in
     let header_offset := header mod BLCKSZ in
     let* sl := slot_deref (chunk_slot chunk) in
     let* i0 := find_or_read_buffer u (logno sl) header_block in
     let* i1 :=
       if header_offset <=? BLCKSZ - sizeof_UndoLogOffset then ret (-1)
       else find_or_read_buffer u (logno sl) (header_block + 1) in
     set_chunk u i
       (mkChunk (chunk_slot chunk) (chunk_header_offset chunk) (i0, i1)
          (chunk_header_ops chunk))).

Lemma prepare_chunk (w : World) (u : nat) (r : UndoRecordSet) (bs : list Z)
    (i : nat) (c : UndoRecordSetChunk) (sl : UndoLogSlot) :
  heap w !! u = Some (Some r) ->
  pinned r bs ->
  valid_buffers (pool w) bs ->
  chunks r !! i = Some c ->
  slots w !! chunk_slot c = Some sl ->
  exists w' r' extra idx,
    prepare_body u i w = Done (tt, w') /\
    heap w' = <[u := Some r']> (heap w) /\
    chunks r' = <[i := mkChunk (chunk_slot c) (chunk_header_offset c) idx
                         (chunk_header_ops c)]> (chunks r) /\
    prepared (pool w') (bs ++ extra) (logno sl)
      (mkChunk (chunk_slot c) (chunk_header_offset c) idx (chunk_header_ops c)) /\
    pinned r' (bs ++ extra) /\ valid_buffers (pool w') (bs ++ extra) /\
    (forall i d, pool w !! i = Some d -> pool w' !! i = Some d) /\
    slots w' = slots w.
Proof.
  intros Hr Hp Hv Hc Hsl. cbv beta.
  assert (Hlt : (u < length (heap w))%nat) by (eapply lookup_lt_Some; eauto).
  destruct (find_or_read_buffer_step w u r bs (logno sl)
              (chunk_header_offset c / BLCKSZ) Hr Hp Hv)
    as (i0 & w1 & r1 & e1 & E1 & Hh1 & Hc1 & Hp1 & Hv1 & Hb1 & Hpre1 & Hs1).
  assert (Hr1 : heap w1 !! u = Some (Some r1))
    by (rewrite Hh1; apply list_lookup_insert_eq, Hlt).
  unfold get_chunk. unfold bind at 1. unfold bind at 1.
  rewrite (deref_live _ _ _ Hr), Hc. cbn [ret].
  unfold bind at 1. unfold slot_deref at 1, bind at 1, gets at 1. rewrite Hsl.
  cbn [ret]. unfold bind at 1. rewrite E1.
  destruct (chunk_header_offset c mod BLCKSZ <=? BLCKSZ - sizeof_UndoLogOffset)
    eqn:Efit.
  - exists (with_heap (fun h => <[u := Some (set_chunks
              (<[i := mkChunk (chunk_slot c) (chunk_header_offset c) (Z.of_nat i0, -1)
                        (chunk_header_ops c)]> (chunks r1)) r1)]> h) w1),
      (set_chunks (<[i := mkChunk (chunk_slot c) (chunk_header_offset c)
                            (Z.of_nat i0, -1) (chunk_header_ops c)]> (chunks r1)) r1),
      e1, (Z.of_nat i0, -1).
    split.
    { unfold bind at 1. cbn [ret]. unfold set_chunk, bind at 1.
      rewrite (deref_live _ _ _ Hr1). reflexivity. }
    split.
    { change (heap (with_heap ?f w1)) with (f (heap w1)). cbv beta.
      rewrite Hh1. apply list_insert_insert_eq. }
    split; [rewrite <- Hc1; reflexivity|].
    split.
    { split; [exact Hb1|]. cbn [chunk_header_offset chunk_header_buffer_index snd].
      rewrite Efit. reflexivity. }
    split; [exact Hp1|]. split; [exact Hv1|]. split; [exact Hpre1 | exact Hs1].
  - destruct (find_or_read_buffer_step w1 u r1 (bs ++ e1) (logno sl)
                (chunk_header_offset c / BLCKSZ + 1) Hr1 Hp1 Hv1)
      as (i1 & w2 & r2 & e2 & E2 & Hh2 & Hc2 & Hp2 & Hv2 & Hb2 & Hpre2 & Hs2).
    assert (Hlt1 : (u < length (heap w1))%nat) by (eapply lookup_lt_Some; eauto).
    assert (Hr2 : heap w2 !! u = Some (Some r2))
      by (rewrite Hh2; apply list_lookup_insert_eq, Hlt1).
    exists (with_heap (fun h => <[u := Some (set_chunks
              (<[i := mkChunk (chunk_slot c) (chunk_header_offset c)
                        (Z.of_nat i0, Z.of_nat i1) (chunk_header_ops c)]> (chunks r2))
              r2)]> h) w2),
      (set_chunks (<[i := mkChunk (chunk_slot c) (chunk_header_offset c)
                            (Z.of_nat i0, Z.of_nat i1) (chunk_header_ops c)]>
                     (chunks r2)) r2),
      (e1 ++ e2), (Z.of_nat i0, Z.of_nat i1).
    rewrite app_assoc.
    split.
    { unfold bind at 1. rewrite E2. unfold set_chunk, bind at 1.
      rewrite (deref_live _ _ _ Hr2). reflexivity. }
    split.
    { change (heap (with_heap ?f w2)) with (f (heap w2)). cbv beta.
      rewrite Hh2, Hh1, !list_insert_insert_eq. reflexivity. }
    split; [rewrite <- Hc1, <- Hc2; reflexivity|].
    split.
    { split; [eapply holds_block_kept; eauto|].
      cbn [chunk_header_offset chunk_header_buffer_index snd].
      rewrite Efit. exact Hb2. }
    split; [exact Hp2|]. split; [exact Hv2|].
    split; [intros j d Hd; exact (Hpre2 _ _ (Hpre1 _ _ Hd))|].
    change (slots w2 = slots w). congruence.
Qed.

Lemma prepare_loop (u : nat) (m : nat) : forall (k : nat) (w : World)
    (r : UndoRecordSet) (bs : list Z),
  heap w !! u = Some (Some r) ->
  pinned r bs ->
  valid_buffers (pool w) bs ->
  length (chunks r) = (k + m)%nat ->
  (forall i c, (k <= i)%nat -> chunks r !! i = Some c ->
     is_Some (slots w !! chunk_slot c)) ->
  exists w' r' extra,
    for_each (seq k m) (prepare_body u) w = Done (tt, w') /\
    heap w' = <[u := Some r']> (heap w) /\
    pinned r' (bs ++ extra) /\ valid_buffers (pool w') (bs ++ extra) /\
    (forall i d, pool w !! i = Some d -> pool w' !! i = Some d) /\
    slots w' = slots w /\
    length (chunks r') = length (chunks r) /\
    (forall i c, (i < k)%nat -> chunks r !! i = Some c -> chunks r' !! i = Some c) /\
    (forall i c, (k <= i)%nat -> chunks r !! i = Some c ->
       exists sl idx,
         slots w !! chunk_slot c = Some sl /\
         chunks r' !! i = Some (mkChunk (chunk_slot c) (chunk_header_offset c) idx
                                  (chunk_header_ops c)) /\
         prepared (pool w') (bs ++ extra) (logno sl)
           (mkChunk (chunk_slot c) (chunk_header_offset c) idx (chunk_header_ops c))).
Proof.
  induction m as [|m IH]; intros k w r bs Hr Hp Hv Hlen Hsl.
  - exists w, r, []. rewrite app_nil_r.
    split; [reflexivity|]. split; [symmetry; apply list_insert_id, Hr|].
    split; [exact Hp|]. split; [exact Hv|]. split; [auto|].
    split; [reflexivity|]. split; [reflexivity|]. split; [auto|].
    intros i c Hi Hc. apply lookup_lt_Some in Hc. lia.
  - assert (Hk : (k < length (chunks r))%nat) by lia.
    destruct (lookup_lt_is_Some_2 _ _ Hk) as [c Hc].
    destruct (Hsl k c (le_n k) Hc) as [sl Hs].
    destruct (prepare_chunk w u r bs k c sl Hr Hp Hv Hc Hs)
      as (w1 & r1 & e1 & idx & E1 & Hh1 & Hc1 & Hprep1 & Hp1 & Hv1 & Hpre1 & Hs1).
    assert (Hlt : (u < length (heap w))%nat) by (eapply lookup_lt_Some; eauto).
    assert (Hr1 : heap w1 !! u = Some (Some r1))
      by (rewrite Hh1; apply list_lookup_insert_eq, Hlt).
    destruct (IH (S k) w1 r1 (bs ++ e1) Hr1 Hp1 Hv1) as
      (w2 & r2 & e2 & E2 & Hh2 & Hp2 & Hv2 & Hpre2 & Hs2 & Hlen2 & Hlow2 & Hhigh2).
    { rewrite Hc1, length_insert. lia. }
    { intros i c' Hi Hc'. rewrite Hc1, list_lookup_insert_ne in Hc' by lia.
      rewrite Hs1. apply (Hsl i c'); [lia | exact Hc']. }
    exists w2, r2, (e1 ++ e2). rewrite app_assoc.
    split.
    { cbn [seq for_each]. unfold bind at 1. cbv beta zeta in E1 |- *. rewrite E1. exact E2. }
    split; [rewrite Hh2, Hh1; apply list_insert_insert_eq|].
    split; [exact Hp2|]. split; [exact Hv2|].
    split; [intros j d Hd; exact (Hpre2 _ _ (Hpre1 _ _ Hd))|].
    split; [congruence|].
    split; [rewrite Hlen2, Hc1; apply length_insert|].
    split.
    { intros i c' Hi Hc'. apply Hlow2; [lia|].
      rewrite Hc1, list_lookup_insert_ne by lia. exact Hc'. }
    intros i c' Hi Hc'.
    destruct (decide (i = k)) as [->|Hne].
    + assert (c' = c) as -> by congruence.
      exists sl, idx. split; [exact Hs|].
      split; [|eapply prepared_kept; eauto].
      apply Hlow2; [lia|]. rewrite Hc1. apply list_lookup_insert_eq, Hk.
    + destruct (Hhigh2 i c') as (sl' & idx' & Hs' & Hc2 & Hprep2); [lia| |].
      { rewrite Hc1, list_lookup_insert_ne by congruence. exact Hc'. }
      exists sl', idx'. rewrite Hs1 in Hs'. auto.
Qed.

(** X14: on a record set whose chunks have live slots,
    [UndoPrepareToMarkClosed] returns, and it notes for every chunk the
    buffers of its header: the first index names a pinned buffer that
    holds the block the header starts in, in the chunk's log; the second
    one is -1 when the size field ends on that block, and otherwise names
    a pinned buffer that holds the next block.  The chunks keep their
    slot, header offset and stored opcodes, the buffers that were pinned
    keep their places, and no slot changes. *)
Theorem UndoPrepareToMarkClosed_prepares (w : World) (u : nat) (r : UndoRecordSet)
    (bs : list Z) :
  heap w !! u = Some (Some r) ->
  pinned r bs ->
  valid_buffers (pool w) bs ->
  (forall i c, chunks r !! i = Some c -> is_Some (slots w !! chunk_slot c)) ->
  exists w' r' extra,
    UndoPrepareToMarkClosed u w = Done (tt, w') /\
    heap w' = <[u := Some r']> (heap w) /\
    pinned r' (bs ++ extra) /\ valid_buffers (pool w') (bs ++ extra) /\
    slots w' = slots w /\
    length (chunks r') = length (chunks r) /\
    forall i c, chunks r !! i = Some c ->
      exists sl idx,
        slots w !! chunk_slot c = Some sl /\
        chunks r' !! i = Some (mkChunk (chunk_slot c) (chunk_header_offset c) idx
                                 (chunk_header_ops c)) /\
        prepared (pool w') (bs ++ extra) (logno sl)
          (mkChunk (chunk_slot c) (chunk_header_offset c) idx (chunk_header_ops c)).
Proof.
  intros Hr Hp Hv Hsl.
  destruct (prepare_loop u (length (chunks r)) 0 w r bs Hr Hp Hv eq_refl
              (fun i c _ Hc => Hsl i c Hc))
    as (w' & r' & extra & E & Hh & Hp' & Hv' & _ & Hs & Hlen & _ & Hall).
  exists w', r', extra.
  split.
  { unfold UndoPrepareToMarkClosed, bind. rewrite (deref_live _ _ _ Hr). exact E. }
  split; [exact Hh|]. split; [exact Hp'|]. split; [exact Hv'|].
  split; [exact Hs|]. split; [exact Hlen|].
  intros i c Hc. apply (Hall i c); [lia | exact Hc].
Qed.
(** ** The cursor of [append_bytes] counts usable bytes *)

Lemma usable_pos : 0 < UndoLogUsableBytesPerPage.
Proof. unfold UndoLogUsableBytesPerPage. pose proof header_lt_block. lia. Qed.

Lemma from_usable_sum (i : Z) :
  UndoLogOffsetFromUsableByteNo i
  = i + UndoLogBlockHeaderSize * (i / UndoLogUsableBytesPerPage + 1).
Proof.
  unfold UndoLogOffsetFromUsableByteNo.
  pose proof usable_pos as HU.
  assert (HU0 : UndoLogUsableBytesPerPage <> 0) by lia.
  pose proof (Z.div_mod i UndoLogUsableBytesPerPage HU0) as Hi.
  set (q := i / UndoLogUsableBytesPerPage) in *.
  set (m := i mod UndoLogUsableBytesPerPage) in *.
  unfold UndoLogUsableBytesPerPage in Hi. lia.
Qed.

Lemma from_usable_mono (i j : Z) :
  i <= j -> UndoLogOffsetFromUsableByteNo i <= UndoLogOffsetFromUsableByteNo j.
Proof.
  intros Hij. rewrite !from_usable_sum. pose proof header_pos. pose proof usable_pos.
  assert (HU : 0 < UndoLogUsableBytesPerPage) by apply usable_pos.
  pose proof (Z.div_le_mono i j UndoLogUsableBytesPerPage HU Hij). nia.
Qed.

Lemma from_usable_ge (i : Z) : 0 <= i -> i <= UndoLogOffsetFromUsableByteNo i.
Proof.
  intros Hi. rewrite from_usable_sum. pose proof header_pos. pose proof usable_pos.
  assert (HU : 0 < UndoLogUsableBytesPerPage) by apply usable_pos.
  pose proof (Z.div_pos i UndoLogUsableBytesPerPage Hi HU). nia.
Qed.

Lemma from_usable_parts (i : Z) :
  0 <= i ->
  UndoLogOffsetFromUsableByteNo i / BLCKSZ = i / UndoLogUsableBytesPerPage /\
  UndoLogOffsetFromUsableByteNo i mod BLCKSZ
  = UndoLogBlockHeaderSize + i mod UndoLogUsableBytesPerPage.
Proof.
  intros Hi. pose proof usable_pos as HU. pose proof header_pos.
  pose proof (Z.mod_pos_bound i UndoLogUsableBytesPerPage HU) as Hm.
  unfold UndoLogOffsetFromUsableByteNo.
  unfold UndoLogUsableBytesPerPage in *.
  split; symmetry.
  - apply Z.div_unique_pos
      with (r := UndoLogBlockHeaderSize + i mod (BLCKSZ - UndoLogBlockHeaderSize)); lia.
  - apply Z.mod_unique_pos with (q := i / (BLCKSZ - UndoLogBlockHeaderSize)); lia.
Qed.

Lemma to_usable_round_trip (o : Z) :
  0 <= o -> UndoLogBlockHeaderSize <= o mod BLCKSZ ->
  0 <= UndoLogOffsetToUsableByteNo o /\
  UndoLogOffsetFromUsableByteNo (UndoLogOffsetToUsableByteNo o) = o.
Proof.
  intros Ho Hh. pose proof usable_pos as HU. pose proof BLCKSZ_pos as HB.
  pose proof (Z.mod_pos_bound o BLCKSZ HB) as Hm.
  assert (HB0 : BLCKSZ <> 0) by lia.
  pose proof (Z.div_mod o BLCKSZ HB0) as Hdm.
  pose proof (Z.div_pos o BLCKSZ Ho HB) as Hq.
  unfold UndoLogOffsetToUsableByteNo, UndoLogOffsetFromUsableByteNo.
  unfold UndoLogUsableBytesPerPage in *.
  set (U := BLCKSZ - UndoLogBlockHeaderSize) in *.
  set (q := o / BLCKSZ) in *. set (r := o mod BLCKSZ - UndoLogBlockHeaderSize).
  assert (Hr : 0 <= r < U) by (unfold r, U; lia).
  assert (Eq : (q * U + r) / U = q)
    by (symmetry; apply Z.div_unique_pos with (r := r); lia).
  assert (Er : (q * U + r) mod U = r)
    by (symmetry; apply Z.mod_unique_pos with (q := q); lia).
  split; [nia|]. rewrite Eq, Er. unfold r. lia.
Qed.

(** One pass: [k] bytes from usable byte [i], on a page that has room for
    them; the cursor passes to the next page when the page is full. *)
Lemma from_usable_step (i k : Z) :
  0 <= i -> 0 < k <= UndoLogUsableBytesPerPage - i mod UndoLogUsableBytesPerPage ->
  UndoLogOffsetFromUsableByteNo (i + k)
  = if UndoLogOffsetFromUsableByteNo i mod BLCKSZ + k =? BLCKSZ
    then UndoLogOffsetFromUsableByteNo i + k + UndoLogBlockHeaderSize
    else UndoLogOffsetFromUsableByteNo i + k.
Proof.
  intros Hi Hk. pose proof usable_pos as HU. pose proof header_pos.
  destruct (from_usable_parts i Hi) as [_ Hmod]. rewrite Hmod.
  pose proof (Z.mod_pos_bound i UndoLogUsableBytesPerPage HU) as Hm.
  assert (HU0 : UndoLogUsableBytesPerPage <> 0) by lia.
  pose proof (Z.div_mod i UndoLogUsableBytesPerPage HU0) as Hdm.
  rewrite !from_usable_sum.
  destruct (Z.eqb_spec (UndoLogBlockHeaderSize + i mod UndoLogUsableBytesPerPage + k)
              BLCKSZ) as [E|E].
  - assert (Eq : (i + k) / UndoLogUsableBytesPerPage = i / UndoLogUsableBytesPerPage + 1).
    { symmetry. apply Z.div_unique_pos with (r := 0); [lia|].
      unfold UndoLogUsableBytesPerPage in *. nia. }
    rewrite Eq. lia.
  - assert (Eq : (i + k) / UndoLogUsableBytesPerPage = i / UndoLogUsableBytesPerPage).
    { symmetry.
      apply Z.div_unique_pos with (r := i mod UndoLogUsableBytesPerPage + k).
      - unfold UndoLogUsableBytesPerPage in *. lia.
      - lia. }
    rewrite Eq. lia.
Qed.

Lemma get_offset_small (o : Z) :
  0 <= o < 2 ^ UndoLogOffsetBits -> UndoRecPtrGetOffset o = o.
Proof.
  intros Ho. pose proof offset_bits_pos. unfold UndoRecPtrGetOffset.
  change (2 ^ UndoLogOffsetBits - 1) with (Z.pred (2 ^ UndoLogOffsetBits)).
  rewrite <- Z.ones_equiv, Z.land_ones by lia. apply Z.mod_small, Ho.
Qed.

Lemma pages_only_refl (w : World) : pages_only w w.
Proof. repeat split. apply adds_refl. Qed.

Lemma pages_only_trans (w1 w2 w3 : World) :
  pages_only w1 w2 -> pages_only w2 w3 -> pages_only w1 w3.
Proof.
  intros (H1 & H2 & H3 & H4 & H5 & H6) (K1 & K2 & K3 & K4 & K5 & K6).
  repeat split; try congruence. eapply adds_trans; eauto.
Qed.

Lemma wp_BufferGetPage_any (b : Z) (w : World) (Q : Page -> World -> Prop) :
  (forall pg, Q pg w) -> wp None (BufferGetPage b) w Q.
Proof.
  intros H. unfold BufferGetPage. apply wp_bind, wp_gets.
  destruct (b <=? 0); [apply wp_fail; discriminate|].
  destruct (pool w !! Z.to_nat (b - 1)); [|apply wp_fail; discriminate].
  apply wp_ret, H.
Qed.

Lemma wp_set_page_any (b : Z) (pg : Page) (w : World) (Q : unit -> World -> Prop) :
  (forall f, Q tt (with_pool f w)) -> wp None (set_page b pg) w Q.
Proof. intros H. unfold set_page. apply wp_modify, H. Qed.

Lemma wp_set_pd_lower_any (b v : Z) (w : World) (Q : unit -> World -> Prop) :
  (forall f, Q tt (with_pool f w)) -> wp None (set_pd_lower b v) w Q.
Proof.
  intros H. unfold set_pd_lower. apply wp_bind, wp_BufferGetPage_any. intros pg.
  apply wp_set_page_any, H.
Qed.

Lemma wp_page_memcpy_any (b off : Z) (src : list Z) (w : World)
    (Q : unit -> World -> Prop) :
  (forall f, Q tt (with_pool f w)) -> wp None (page_memcpy b off src) w Q.
Proof.
  intros H. unfold page_memcpy. apply wp_bind, wp_BufferGetPage_any. intros pg.
  apply wp_bind, wp_lift. destruct (page_write _ _ _); [|discriminate].
  apply wp_set_page_any, H.
Qed.

(** The cursor of the loop of [append_bytes], in usable bytes: from usable
    byte [i] it comes to usable byte [i + |data|]. *)
Lemma append_bytes_loop_cursor (fuel : nat) : forall (st : UndoInsertState)
    (data : list Z) (size : Z) (w : World) (i : Z),
  0 <= i -> 0 <= size ->
  st_insert st = UndoLogOffsetFromUsableByteNo i ->
  UndoLogOffsetFromUsableByteNo (i + size) < 2 ^ UndoLogOffsetBits ->
  UndoLogOffsetFromUsableByteNo (i + size) < 2 ^ 64 ->
  wp None (append_bytes_loop fuel st data size) w (fun st' w' =>
    st_insert st' = UndoLogOffsetFromUsableByteNo (i + size) /\
    st_buffers st' = st_buffers st /\
    st_first_block_id st' = st_first_block_id st /\
    pages_only w w').
Proof.
  induction fuel as [|fuel IH]; intros st data size w i Hi Hsize Hst Hbits H64;
    cbn [append_bytes_loop]; destruct (Z.leb_spec size 0) as [Hz|Hpos].
  1, 3: apply wp_ret; replace size with 0 by lia; rewrite Z.add_0_r;
    split; [exact Hst|]; split; [reflexivity|]; split; [reflexivity|];
    apply pages_only_refl.
  - apply wp_fail. discriminate.
  - pose proof usable_pos as HU. pose proof header_pos as HH.
    pose proof (Z.mod_pos_bound i UndoLogUsableBytesPerPage HU) as Hm.
    pose proof (from_usable_ge i Hi) as Hge.
    pose proof (from_usable_mono i (i + size) ltac:(lia)) as Hmono.
    assert (Hoff : UndoRecPtrGetPageOffset (st_insert st)
                   = UndoLogBlockHeaderSize + i mod UndoLogUsableBytesPerPage).
    { unfold UndoRecPtrGetPageOffset. rewrite get_offset_small by lia.
      rewrite Hst. apply from_usable_parts, Hi. }
    set (offset := UndoRecPtrGetPageOffset (st_insert st)) in *.
    set (k := Z.min (BLCKSZ - offset) size).
    assert (Hk : 0 < k <= UndoLogUsableBytesPerPage - i mod UndoLogUsableBytesPerPage
                 /\ k <= size)
      by (unfold k, UndoLogUsableBytesPerPage in *; lia).
    pose proof (from_usable_step i k Hi (proj1 Hk)) as Hstep.
    pose proof (from_usable_mono (i + k) (i + size) ltac:(lia)) as Hmono'.
    assert (Hoff' : UndoLogOffsetFromUsableByteNo i mod BLCKSZ = offset)
      by (rewrite Hoff; apply from_usable_parts, Hi).
    rewrite Hoff' in Hstep.
    apply wp_bind. unfold array_read.
    destruct (_ <? 0); [apply wp_fail; discriminate|].
    destruct (st_buffers st !! _) as [[b|]|]; [|apply wp_fail; discriminate ..].
    apply wp_ret. apply wp_bind, wp_BufferGetPage_any. intros _.
    apply wp_bind.
    apply wp_mono with (Q := fun st1 w1 =>
      st_insert st1 = st_insert st /\ st_buffers st1 = st_buffers st /\
      st_first_block_id st1 = st_first_block_id st /\
      buffer_index st1 = buffer_index st /\ pages_only w w1).
    { destruct (negb _).
      - apply wp_bind, wp_modify. apply wp_bind, wp_gets.
        apply wp_bind.
        apply wp_mono with (Q := fun _ w1 =>
          pages_only (with_trace (cons (EvMarkBufferDirty b)) w) w1).
        { destruct (negb _); cbn [when].
          - apply wp_modify. repeat split.
            eapply adds_event; [|reflexivity]. exact I.
          - apply wp_ret, pages_only_refl. }
        intros _ w1 H1. apply wp_ret.
        split; [reflexivity|]. split; [reflexivity|]. split; [reflexivity|].
        split; [reflexivity|].
        eapply pages_only_trans; [|exact H1]. repeat split.
        eapply adds_event; [|reflexivity]. exact I.
      - apply wp_ret. repeat split. apply adds_refl. }
    intros st1 w1 (E1 & E2 & E3 & E4 & Hw1).
    apply wp_bind, wp_set_pd_lower_any. intros f1.
    apply wp_bind, wp_page_memcpy_any. intros f2.
    rewrite E1.
    assert (Hu64 : uint64 (st_insert st + k) = st_insert st + k)
      by (unfold uint64; apply Z.mod_small; destruct (offset + k =? BLCKSZ); lia).
    fold offset. fold k. rewrite Hu64.
    eapply wp_mono.
    + apply (IH _ data (size - k) _ (i + k)); [lia | lia | | |].
      * rewrite Hstep.
        destruct (offset + k =? BLCKSZ); cbn [st_insert]; [|congruence].
        unfold uint64. rewrite Z.mod_small by lia. congruence.
      * replace (i + k + (size - k)) with (i + size) by lia. exact Hbits.
      * replace (i + k + (size - k)) with (i + size) by lia. exact H64.
    + cbv beta. intros st' w' (F1 & F2 & F3 & F4).
      replace (i + k + (size - k)) with (i + size) in F1 by lia.
      split; [exact F1|].
      split; [rewrite F2; destruct (offset + k =? BLCKSZ); exact E2|].
      split; [rewrite F3; destruct (offset + k =? BLCKSZ); exact E3|].
      eapply pages_only_trans; [exact Hw1|].
      eapply pages_only_trans; [|exact F4].
      repeat split. apply adds_same. reflexivity.
Qed.

(** X15: [append_bytes] advances its cursor by the usable bytes it
    writes.  From a position that is not in a page header, a call that
    returns leaves the cursor at [UndoLogOffsetPlusUsableBytes] of the
    position and the number of bytes, again not in a page header; it makes
    no calls but marking buffers dirty and registering them, and it
    changes nothing but pages. *)
Theorem append_bytes_advances (st : UndoInsertState) (data : list Z) (w : World)
    (st' : UndoInsertState) (w' : World) :
  let last := UndoLogOffsetFromUsableByteNo
                (UndoLogOffsetToUsableByteNo (st_insert st) + Z.of_nat (length data)) in
  0 <= st_insert st ->
  UndoLogBlockHeaderSize <= st_insert st mod BLCKSZ ->
  last < 2 ^ UndoLogOffsetBits -> last < 2 ^ 64 ->
  append_bytes st data w = Done (st', w') ->
  st_insert st'
  = UndoLogOffsetPlusUsableBytes (st_insert st) (Z.of_nat (length data)) /\
  UndoLogBlockHeaderSize <= st_insert st' mod BLCKSZ /\
  st_buffers st' = st_buffers st /\
  st_first_block_id st' = st_first_block_id st /\
  pages_only w w'.
Proof.
  intros last H0 Hh Hbits H64 Hrun.
  destruct (to_usable_round_trip (st_insert st) H0 Hh) as [Hi Hrt].
  set (i := UndoLogOffsetToUsableByteNo (st_insert st)) in *.
  pose proof (append_bytes_loop_cursor (length data) st data (Z.of_nat (length data))
                w i Hi (Nat2Z.is_nonneg _) (eq_sym Hrt) Hbits H64) as Hwp.
  pose proof (wp_done None _ _ _ _ _ Hwp Hrun) as (E1 & E2 & E3 & E4).
  cbv beta in E1.
  pose proof (from_usable_ge (i + Z.of_nat (length data)) ltac:(lia)) as Hge.
  fold last in E1, Hge.
  assert (Eplus : UndoLogOffsetPlusUsableBytes (st_insert st) (Z.of_nat (length data))
                  = last).
  { unfold UndoLogOffsetPlusUsableBytes. fold i. unfold uint64.
    rewrite (Z.mod_small (i + _)) by lia. fold last. apply Z.mod_small. lia. }
  split; [rewrite Eplus; exact E1|].
  split; [|auto].
  rewrite E1. unfold last.
  destruct (from_usable_parts (i + Z.of_nat (length data)) ltac:(lia)) as [_ ->].
  pose proof (Z.mod_pos_bound (i + Z.of_nat (length data)) _ usable_pos). lia.
Qed.

Lemma block_data_app (id : Z) (t1 t2 : list Event) :
  block_data id (t1 ++ t2) = block_data id t2 ++ block_data id t1.
Proof. unfold block_data. rewrite rev_app_distr, map_app, concat_app. reflexivity. Qed.

Lemma block_data_pages (id : Z) (t : list Event) :
  Forall page_call t -> block_data id t = [].
Proof.
  intros H. unfold block_data. induction H as [|e t He _ IH]; [reflexivity|].
  cbn [rev]. rewrite map_app, concat_app, IH. destruct e; cbn in *; tauto.
Qed.

Lemma length_chunk_header_bytes (h : UndoRecordSetChunkHeader) :
  Z.of_nat (length (chunk_header_bytes h)) = UndoRecordSetChunkHeaderSize.
Proof.
  unfold chunk_header_bytes. rewrite !length_app, !length_le_bytes. reflexivity.
Qed.

(** A header of [UndoInsert]: appended, and attached to the first block
    after its size byte. *)
Lemma append_header (st : UndoInsertState) (id size : Z) (bytes : list Z) (w : World)
    (i : Z) :
  0 <= i ->
  st_insert st = UndoLogOffsetFromUsableByteNo i ->
  UndoLogOffsetFromUsableByteNo (i + Z.of_nat (length bytes)) < 2 ^ UndoLogOffsetBits ->
  UndoLogOffsetFromUsableByteNo (i + Z.of_nat (length bytes)) < 2 ^ 64 ->
  wp None (let* state := append_bytes st bytes in
           XLogRegisterBufData id [size] ;;
           XLogRegisterBufData id bytes ;;
           ret state) w (fun st' w' =>
    st_insert st' = UndoLogOffsetFromUsableByteNo (i + Z.of_nat (length bytes)) /\
    st_buffers st' = st_buffers st /\
    st_first_block_id st' = st_first_block_id st /\
    heap w' = heap w /\ slots w' = slots w /\
    exists new, trace w' = new ++ trace w /\
      block_data (uint8 id) new = size :: bytes).
Proof.
  intros Hi Hst Hbits H64. apply wp_bind.
  eapply wp_mono;
    [apply (append_bytes_loop_cursor _ st bytes (Z.of_nat (length bytes)) w i Hi
              (Nat2Z.is_nonneg _) Hst Hbits H64)|].
  cbv beta. intros st' w1 (E1 & E2 & E3 & Hh & Hs & _ & _ & _ & new1 & Et & Hp).
  unfold XLogRegisterBufData, emit. apply wp_bind, wp_modify, wp_bind, wp_modify, wp_ret.
  split; [exact E1|]. split; [exact E2|]. split; [exact E3|].
  split; [exact Hh|]. split; [exact Hs|].
  exists (EvXLogRegisterBufData (uint8 id) bytes
          :: EvXLogRegisterBufData (uint8 id) [size] :: new1).
  split; [cbn [trace with_trace]; rewrite Et; reflexivity|].
  change (?a :: ?b :: new1) with ([a; b] ++ new1).
  rewrite block_data_app, (block_data_pages _ _ Hp).
  unfold block_data. cbn. rewrite Z.eqb_refl, app_nil_r. reflexivity.
Qed.

(** X16: what [UndoInsert] leaves behind.  On a record set whose log's
    insert position is not in a page header, a call that returns has
    moved that position on by the usable bytes written, the pending chunk
    and type headers and the data ([UndoLogOffsetPlusUsableBytes]); the
    data it attached to the first block is, in order, the pending chunk
    header after its size byte and the pending type header, which is all
    zero bytes, after its size byte; the record set has the chunk header
    and the zeroed type header stored and needs no header any more; no
    other log changes. *)
Theorem UndoInsert_advances_insert (u : nat) (id : Z) (data : list Z) (w w' : World)
    (r : UndoRecordSet) (s : nat) (sl : UndoLogSlot) :
  let hdr := mkChunkHeader 0 (previous_chunk r) (urs_type r) in
  let n := Z.to_nat (type_header_size r) in
  let th := replicate n 0 ++ drop n (type_header r) in
  let total := (if need_chunk_header r then UndoRecordSetChunkHeaderSize else 0)
               + (if need_type_header r then type_header_size r else 0)
               + Z.of_nat (length data) in
  let last := UndoLogOffsetFromUsableByteNo
                (UndoLogOffsetToUsableByteNo (meta_insert sl) + total) in
  let r1 := if need_chunk_header r then set_chunk_header hdr r else r in
  let r2 := if need_type_header r then set_type_header th r1 else r1 in
  heap w !! u = Some (Some r) -> slot r = Some s -> slots w !! s = Some sl ->
  0 <= type_header_size r ->
  0 <= meta_insert sl ->
  UndoLogBlockHeaderSize <= meta_insert sl mod BLCKSZ ->
  last < 2 ^ UndoLogOffsetBits -> last < 2 ^ 64 ->
  UndoInsert u id data w = Done (tt, w') ->
  InRecovery w = false /\
  slots w' = <[s := mkSlot (logno sl)
                       (UndoLogOffsetPlusUsableBytes (meta_insert sl) total)
                       (slot_end sl) (slot_persistence sl) (slot_full sl)]> (slots w) /\
  heap w' = <[u := Some (set_need_type_header false
                           (set_need_chunk_header false r2))]> (heap w) /\
  exists new,
    trace w' = new ++ trace w /\
    block_data (uint8 id) new
    = (if need_chunk_header r
       then uint8 UndoRecordSetChunkHeaderSize :: chunk_header_bytes hdr else [])
      ++ (if need_type_header r then type_header_size r :: replicate n 0 else []).
Proof.
  intros hdr n th total last r1 r2 Hr Hs Hsl Hths H0 Hh Hbits H64 Hrun.
  destruct (to_usable_round_trip (meta_insert sl) H0 Hh) as [Hi Hrt].
  set (i := UndoLogOffsetToUsableByteNo (meta_insert sl)) in *.
  assert (Hlt : (u < length (heap w))%nat) by (eapply lookup_lt_Some; eauto).
  set (c := if need_chunk_header r then UndoRecordSetChunkHeaderSize else 0).
  set (t := if need_type_header r then type_header_size r else 0).
  assert (Hc : 0 <= c) by (unfold c, UndoRecordSetChunkHeaderSize; destruct (need_chunk_header r); lia).
  assert (Ht : 0 <= t) by (unfold t; destruct (need_type_header r); lia).
  assert (Hmono : forall j, i <= j <= i + total ->
            UndoLogOffsetFromUsableByteNo j < 2 ^ UndoLogOffsetBits /\
            UndoLogOffsetFromUsableByteNo j < 2 ^ 64).
  { intros j Hj. pose proof (from_usable_mono j (i + total) ltac:(lia)).
    fold last in H. lia. }
  assert (Etotal : total = c + t + Z.of_nat (length data)) by reflexivity.
  assert (Eplus : UndoLogOffsetPlusUsableBytes (meta_insert sl) total = last).
  { pose proof (from_usable_ge (i + total) ltac:(lia)) as Hge. fold last in Hge.
    unfold UndoLogOffsetPlusUsableBytes. fold i. unfold uint64.
    rewrite (Z.mod_small (i + _)) by lia. fold last. apply Z.mod_small. lia. }
  assert (Htake : take n (urst_header r th) = replicate n 0).
  { unfold urst_header, th. apply take_app_length'. symmetry. apply length_replicate. }
  refine (wp_done None _ _ (fun _ w' => _) _ _ _ Hrun). clear Hrun.
  unfold UndoInsert.
  apply wp_bind, wp_gets. apply wp_bind, wp_lift.
  destruct (InRecovery w) eqn:Erec; cbn [negb Assert]; [discriminate|].
  apply wp_bind, wp_deref; [apply no_bad|]. intros r0 Hr0.
  rewrite Hr in Hr0. injection Hr0 as <-. rewrite Hs.
  apply wp_bind, wp_ret. apply wp_bind, wp_slot_deref. intros sl0 Hsl0.
  rewrite Hsl in Hsl0. injection Hsl0 as <-.
  (* the chunk header *)
  apply wp_bind.
  apply wp_mono with (Q := fun st1 w1 =>
    st_insert st1 = UndoLogOffsetFromUsableByteNo (i + c) /\
    heap w1 = <[u := Some r1]> (heap w) /\ slots w1 = slots w /\
    exists new, trace w1 = new ++ trace w /\
      block_data (uint8 id) new
      = if need_chunk_header r
        then uint8 UndoRecordSetChunkHeaderSize :: chunk_header_bytes hdr else []).
  { unfold r1, c. destruct (need_chunk_header r).
    - apply wp_bind, wp_deref; [apply no_bad|]. intros r0 Hr0.
      rewrite Hr in Hr0. injection Hr0 as <-.
      apply wp_bind. unfold store. apply wp_modify.
      eapply wp_mono.
      + apply (append_header _ id _ _ _ i Hi).
        * cbn [begin_append st_insert]. symmetry. exact Hrt.
        * rewrite length_chunk_header_bytes. apply Hmono. lia.
        * rewrite length_chunk_header_bytes. apply Hmono. lia.
      + cbv beta. intros st1 w1 (E1 & _ & _ & Hh1 & Hs1 & new & Et & Hd).
        rewrite length_chunk_header_bytes in E1.
        split; [exact E1|]. split; [exact Hh1|]. split; [exact Hs1|].
        exists new. split; [exact Et | exact Hd].
    - apply wp_ret. rewrite Z.add_0_r.
      split; [symmetry; exact Hrt|].
      split; [symmetry; apply list_insert_id, Hr|]. split; [reflexivity|].
      exists []. split; reflexivity. }
  intros st1 w1 (E1 & Hh1 & Hs1 & new1 & Et1 & Hd1).
  (* the type header *)
  apply wp_bind.
  apply wp_mono with (Q := fun st2 w2 =>
    st_insert st2 = UndoLogOffsetFromUsableByteNo (i + c + t) /\
    heap w2 = <[u := Some r2]> (heap w) /\ slots w2 = slots w /\
    exists new, trace w2 = new ++ trace w1 /\
      block_data (uint8 id) new
      = if need_type_header r then type_header_size r :: replicate n 0 else []).
  { unfold r2, t. destruct (need_type_header r).
    - apply wp_bind, wp_deref; [apply no_bad|]. intros r0 Hr0.
      rewrite Hh1, list_lookup_insert_eq in Hr0 by exact Hlt. injection Hr0 as <-.
      apply wp_bind. unfold store. apply wp_modify.
      fold n. fold th. rewrite Htake.
      assert (Hn : Z.of_nat (length (replicate n 0)) = type_header_size r)
        by (rewrite length_replicate; unfold n; lia).
      eapply wp_mono.
      + apply (append_header _ id _ _ _ (i + c) ltac:(lia) E1).
        * rewrite Hn. apply Hmono. fold t. unfold t in Ht. lia.
        * rewrite Hn. apply Hmono. fold t. unfold t in Ht. lia.
      + cbv beta. intros st2 w2 (E2 & _ & _ & Hh2 & Hs2 & new & Et & Hd).
        rewrite Hn in E2.
        split; [exact E2|].
        split; [rewrite Hh2; change (heap (with_heap ?f w1)) with (f (heap w1));
                cbv beta; rewrite Hh1; apply list_insert_insert_eq|].
        split; [rewrite Hs2; exact Hs1|].
        exists new. split; [exact Et | exact Hd].
    - apply wp_ret. rewrite Z.add_0_r.
      split; [exact E1|]. split; [exact Hh1|]. split; [exact Hs1|].
      exists []. split; reflexivity. }
  intros st2 w2 (E2 & Hh2 & Hs2 & new2 & Et2 & Hd2).
  (* the data *)
  apply wp_bind.
  eapply wp_mono.
  { apply (append_bytes_loop_cursor _ st2 data (Z.of_nat (length data)) w2 (i + c + t)
             ltac:(lia) (Nat2Z.is_nonneg _) E2).
    - apply Hmono. lia.
    - apply Hmono. lia. }
  cbv beta. intros st3 w3 (E3 & _ & _ & Hh3 & Hs3 & _ & _ & _ & new3 & Et3 & Hp3).
  replace (i + c + t + Z.of_nat (length data)) with (i + total) in E3
    by (rewrite Etotal; lia).
  fold last in E3.
  apply wp_bind. unfold emit at 1. apply wp_modify.
  apply wp_bind, wp_slot_deref. intros sl3 Hsl3.
  change (slots w3 !! s = Some sl3) in Hsl3.
  rewrite Hs3, Hs2, Hsl in Hsl3. injection Hsl3 as <-.
  apply wp_bind. unfold slot_store. apply wp_modify.
  apply wp_bind. unfold emit. apply wp_modify.
  apply wp_bind, wp_deref; [apply no_bad|]. intros r3 Hr3.
  change (heap w3 !! u = Some (Some r3)) in Hr3.
  rewrite Hh3, Hh2, list_lookup_insert_eq in Hr3 by exact Hlt. injection Hr3 as <-.
  unfold store. apply wp_modify.
  split; [reflexivity|].
  split.
  { change (<[s := mkSlot (logno sl) (st_insert st3) (slot_end sl) (slot_persistence sl)
                      (slot_full sl)]> (slots w3) = 
            <[s := mkSlot (logno sl) (UndoLogOffsetPlusUsableBytes (meta_insert sl) total)
                      (slot_end sl) (slot_persistence sl) (slot_full sl)]> (slots w)).
    rewrite Hs3, Hs2, E3, Eplus. reflexivity. }
  split.
  { change (<[u := Some (set_need_type_header false (set_need_chunk_header false r2))]>
              (heap w3)
            = <[u := Some (set_need_type_header false (set_need_chunk_header false r2))]>
                (heap w)).
    rewrite Hh3, Hh2. apply list_insert_insert_eq. }
  exists ([EvLWLockRelease s; EvLWLockAcquire s true] ++ new3 ++ new2 ++ new1).
  split.
  { change (EvLWLockRelease s :: EvLWLockAcquire s true :: trace w3
            = ([EvLWLockRelease s; EvLWLockAcquire s true] ++ new3 ++ new2 ++ new1)
              ++ trace w).
    rewrite Et3, Et2, Et1, <- !app_assoc. reflexivity. }
  rewrite !block_data_app, Hd1, Hd2, (block_data_pages _ _ Hp3).
  change (block_data (uint8 id) [EvLWLockRelease s; EvLWLockAcquire s true])
    with (@nil Z).
  rewrite !app_nil_r. reflexivity.
Qed.
(** ** What [UndoAllocate] returns *)

Lemma same_but_buffers_refl (r : UndoRecordSet) : same_but_buffers r r.
Proof. destruct r. reflexivity. Qed.

Lemma same_but_buffers_trans (r1 r2 r3 : UndoRecordSet) :
  same_but_buffers r1 r2 -> same_but_buffers r2 r3 -> same_but_buffers r1 r3.
Proof.
  unfold same_but_buffers. intros H12 H23. rewrite H23, H12. reflexivity.
Qed.

Lemma pin_loop_frame (fuel : nat) (u : nat) (relNode urp total_size : Z)
    (w : World) (r : UndoRecordSet) :
  heap w !! u = Some (Some r) ->
  wp None (pin_loop fuel u relNode urp total_size) w (fun _ w' =>
    slots w' = slots w /\
    exists r', heap w' !! u = Some (Some r') /\ same_but_buffers r r').
Proof.
  revert total_size w r.
  induction fuel as [|fuel IH]; intros total_size w r Hr; cbn [pin_loop];
    destruct (total_size <=? 0).
  1, 3: apply wp_ret; split; [reflexivity|]; exists r; split;
    [exact Hr | apply same_but_buffers_refl].
  - apply wp_fail. discriminate.
  - set (block := UndoRecPtrGetBlockNum urp).
    set (zero := UndoRecPtrGetPageOffset urp =? UndoLogBlockHeaderSize).
    destruct (ReadBuffer_spec relNode block zero w) as (b & p' & E & _).
    apply wp_bind. eapply wp_of_done; [exact E|].
    set (w1 := with_trace _ _).
    apply wp_bind, wp_deref; [apply no_bad|]. intros r1 Hr1.
    change (heap w !! u = Some (Some r1)) in Hr1. rewrite Hr in Hr1.
    injection Hr1 as <-.
    apply wp_bind. unfold array_write.
    destruct (_ && _); [|apply wp_fail; discriminate]. apply wp_ret.
    apply wp_bind, wp_modify.
    set (r2 := set_nbuffers _ _). set (w2 := with_heap _ w1).
    assert (Hlt : (u < length (heap w))%nat) by (eapply lookup_lt_Some; eauto).
    assert (Hr2 : heap w2 !! u = Some (Some r2))
      by (subst w2 w1; cbn; apply list_lookup_insert_eq, Hlt).
    apply wp_bind.
    apply wp_mono with (Q := fun _ w3 => heap w3 = heap w2 /\ slots w3 = slots w2).
    { destruct zero; cbn [when].
      - unfold PageInit. apply wp_bind, wp_BufferGetPage_any. intros _.
        apply wp_bind, wp_set_page_any. intros f. apply wp_modify.
        split; reflexivity.
      - apply wp_ret. split; reflexivity. }
    intros _ w3 (Hh3 & Hs3).
    assert (Hr3 : heap w3 !! u = Some (Some r2)) by (rewrite Hh3; exact Hr2).
    eapply wp_mono; [apply (IH _ w3 r2 Hr3)|].
    cbv beta. intros _ w' (Hs & r' & Hr' & Hsame).
    split; [rewrite Hs, Hs3; reflexivity|].
    exists r'. split; [exact Hr'|].
    eapply same_but_buffers_trans; [|exact Hsame].
    subst r2. destruct r. reflexivity.
Qed.

Lemma lock_loop_kept (a : list (option Z)) (xs : list nat) (w : World) :
  wp None (for_each xs (fun i =>
             let* buffer := array_read a (Z.of_nat i) in
             emit (EvLockBuffer buffer))) w
    (fun _ w' => heap w' = heap w /\ slots w' = slots w).
Proof.
  revert w. induction xs as [|x xs IH]; intros w.
  - apply wp_ret. split; reflexivity.
  - cbn [for_each]. apply wp_bind, wp_bind. unfold array_read.
    destruct (_ <? 0); [apply wp_fail; discriminate|].
    destruct (a !! _) as [[b|]|]; [|apply wp_fail; discriminate ..].
    apply wp_ret, wp_modify.
    eapply wp_mono; [apply IH|]. cbv beta. intros _ w' [Hh Hs].
    split; [exact Hh | exact Hs].
Qed.

(** X17: what [UndoAllocate] promises [UndoInsert].  Wherever the cached
    end of the active log is not beyond the log's end, a call that returns
    leaves the record set with an active log; the pointer it returns is
    the insert position of that log advanced over the pending chunk and
    type headers, the place of the first byte of the caller's data; and
    the insert position advanced over the headers and the requested bytes
    is not beyond the end of the log.  Pinning and locking the buffers
    changes the record set in its buffers only, and no log. *)
Theorem UndoAllocate_reserves (fuel : nat) (u : nat) (data_size : Z)
    (w : World) (p : Z) (w' : World) :
  ends_known u w ->
  UndoAllocate fuel u data_size w = Done (p, w') ->
  ends_known u w' /\
  exists r s sl ths,
    heap w' !! u = Some (Some r) /\ slot r = Some s /\ slots w' !! s = Some sl /\
    (if need_type_header r then urst_header_size (urs_type r) else Done 0) = Done ths /\
    p = UndoRecPtrPlusUsableBytes (MakeUndoRecPtr (logno sl) (meta_insert sl))
          (uint64 ((if need_chunk_header r then UndoRecordSetChunkHeaderSize else 0)
                   + ths)) /\
    UndoLogOffsetPlusUsableBytes (meta_insert sl)
      (uint64 (data_size
               + (if need_chunk_header r then UndoRecordSetChunkHeaderSize else 0)
               + ths)) <= slot_end sl.
Proof.
  intros Hinv Hrun.
  refine (wp_done None _ _ (fun p w' => ends_known u w' /\ _) _ _ _ Hrun).
  clear Hrun. unfold UndoAllocate.
  apply wp_bind. eapply wp_mono; [apply reserve_physical_undo_wp, Hinv|].
  cbv beta. intros begin w1 ([Hnn1 Hend1] & r & s & sl & ths & Hr & Hs & Hsl & Hb & Hths & Hfit).
  apply wp_bind, wp_deref; [apply no_bad|]. intros r0 Hr0.
  rewrite Hr in Hr0. injection Hr0 as <-.
  apply wp_bind.
  apply wp_mono with (Q := fun x w0 => w0 = w1 /\ x = ths).
  { destruct (need_type_header r).
    - apply wp_lift. rewrite Hths. auto.
    - apply wp_ret. split; congruence. }
  intros ths0 w0 [-> ->].
  match goal with |- context [reserve_buffer_array u ?c] =>
    destruct (reserve_buffer_array_grows u c w1 r Hr) as (r3 & E3 & _ & _ & Hr3)
  end.
  apply wp_bind. eapply wp_of_done; [exact E3|].
  set (w3 := with_heap _ w1).
  assert (Hlt : (u < length (heap w1))%nat) by (eapply lookup_lt_Some; eauto).
  apply wp_bind, wp_deref; [apply no_bad|]. intros r4 Hr4.
  assert (r4 = r3) as ->.
  { subst w3. cbn in Hr4. rewrite list_lookup_insert_eq in Hr4 by exact Hlt.
    congruence. }
  apply wp_bind, wp_lift. destruct (nbuffers r3 =? 0); cbn [Assert]; [|discriminate].
  apply wp_bind. eapply wp_mono; [apply (pin_loop_frame _ _ _ _ _ w3 r3 Hr4)|].
  cbv beta. intros _ w5 (Hs5 & r5 & Hr5 & Hsame5).
  apply wp_bind, wp_deref; [apply no_bad|]. intros r6 Hr6.
  rewrite Hr5 in Hr6. injection Hr6 as <-.
  apply wp_bind. eapply wp_mono; [apply lock_loop_kept|].
  cbv beta. intros _ w7 (Hh7 & Hs7).
  apply wp_ret.
  assert (Hsame : same_but_buffers r r5).
  { eapply same_but_buffers_trans; [|exact Hsame5].
    unfold same_but_buffers. rewrite Hr3. destruct r. reflexivity. }
  assert (Hslots : slots w7 = slots w1) by (rewrite Hs7, Hs5; reflexivity).
  assert (Hr7 : heap w7 !! u = Some (Some r5)) by (rewrite Hh7; exact Hr5).
  assert (Hfields : slot r5 = slot r /\ recent_end r5 = recent_end r /\
                    need_type_header r5 = need_type_header r /\
                    need_chunk_header r5 = need_chunk_header r /\
                    urs_type r5 = urs_type r)
    by (rewrite Hsame; repeat split; reflexivity).
  destruct Hfields as (F1 & F2 & F3 & F4 & F5).
  split.
  - split; [rewrite Hslots; exact Hnn1|].
    intros r' s' Hr' Hs'. rewrite Hr7 in Hr'. injection Hr' as <-.
    rewrite F1 in Hs'. destruct (Hend1 r s' Hr Hs') as (sl' & Hsl' & Hle).
    exists sl'. rewrite Hslots, F2. auto.
  - exists r5, s, sl, ths. rewrite F1, F3, F4, F5, Hslots.
    split; [exact Hr7|]. split; [exact Hs|]. split; [exact Hsl|].
    split; [exact Hths|]. split; [rewrite Hb; reflexivity | exact Hfit].
Qed.
(** ** Where insert replay leaves the log *)

Lemma append_bytes_loop_kept (fuel : nat) : forall (st : UndoInsertState)
    (data : list Z) (size : Z) (w : World),
  wp None (append_bytes_loop fuel st data size) w (fun _ w' =>
    slots w' = slots w /\ heap w' = heap w).
Proof.
  induction fuel as [|fuel IH]; intros st data size w; cbn [append_bytes_loop];
    destruct (size <=? 0).
  1, 3: apply wp_ret; split; reflexivity.
  - apply wp_fail. discriminate.
  - apply wp_bind. unfold array_read.
    destruct (_ <? 0); [apply wp_fail; discriminate|].
    destruct (st_buffers st !! _) as [[b|]|]; [|apply wp_fail; discriminate ..].
    apply wp_ret. apply wp_bind, wp_BufferGetPage_any. intros _.
    apply wp_bind.
    apply wp_mono with (Q := fun _ w1 => slots w1 = slots w /\ heap w1 = heap w).
    { destruct (negb _).
      - apply wp_bind, wp_modify. apply wp_bind, wp_gets. apply wp_bind.
        apply wp_mono with (Q := fun _ w1 => slots w1 = slots w /\ heap w1 = heap w).
        { destruct (negb _); cbn [when].
          - apply wp_modify. split; reflexivity.
          - apply wp_ret. split; reflexivity. }
        intros _ w1 H1. apply wp_ret, H1.
      - apply wp_ret. split; reflexivity. }
    intros st1 w1 [Hs1 Hh1].
    apply wp_bind, wp_set_pd_lower_any. intros f1.
    apply wp_bind, wp_page_memcpy_any. intros f2.
    eapply wp_mono; [apply IH|]. cbv beta. intros _ w' [Hs Hh].
    split; [rewrite Hs; exact Hs1 | rewrite Hh; exact Hh1].
Qed.

Lemma append_bytes_local_kept (state : option UndoInsertState) (data : list Z)
    (w : World) :
  wp None (append_bytes_local state data) w (fun _ w' =>
    slots w' = slots w /\ heap w' = heap w).
Proof.
  unfold append_bytes_local. destruct data as [|x data]; [apply wp_ret; auto|].
  destruct state as [st|]; [|apply wp_fail; discriminate].
  apply wp_bind. eapply wp_mono; [apply append_bytes_loop_kept|].
  cbv beta. intros st' w' H. apply wp_ret, H.
Qed.

Lemma append_all_kept (ds : list (list Z)) : forall (state : option UndoInsertState)
    (w : World),
  wp None (append_all state ds) w (fun _ w' => slots w' = slots w /\ heap w' = heap w).
Proof.
  induction ds as [|d ds IH]; intros state w; cbn [append_all].
  - apply wp_ret. auto.
  - apply wp_bind. eapply wp_mono; [apply append_bytes_local_kept|].
    cbv beta. intros st1 w1 [Hs1 Hh1].
    eapply wp_mono; [apply IH|]. cbv beta. intros _ w' [Hs Hh].
    split; congruence.
Qed.

Lemma set_lsn_loop_kept (a : list (option Z)) (lsn : Z) (xs : list nat) (w : World) :
  wp None (for_each xs (fun i =>
             let* buffer := array_read a (Z.of_nat i) in
             when (negb (buffer =? 0)) (
               PageSetLSN buffer lsn ;;
               emit (EvUnlockBuffer buffer) ;;
               emit (EvReleaseBuffer buffer)))) w
    (fun _ w' => slots w' = slots w /\ heap w' = heap w).
Proof.
  revert w. induction xs as [|x xs IH]; intros w.
  - apply wp_ret. split; reflexivity.
  - cbn [for_each]. apply wp_bind, wp_bind. unfold array_read.
    destruct (_ <? 0); [apply wp_fail; discriminate|].
    destruct (a !! _) as [[b|]|]; [|apply wp_fail; discriminate ..].
    apply wp_ret.
    apply wp_mono with (Q := fun _ w1 => slots w1 = slots w /\ heap w1 = heap w).
    { destruct (negb _); cbn [when]; [|apply wp_ret; split; reflexivity].
      apply wp_bind. unfold PageSetLSN. apply wp_bind, wp_BufferGetPage_any.
      intros pg. apply wp_set_page_any. intros f.
      apply wp_bind, wp_modify, wp_modify. split; reflexivity. }
    intros _ w1 [Hs1 Hh1].
    eapply wp_mono; [apply IH|]. cbv beta. intros _ w' [Hs Hh].
    split; congruence.
Qed.

(** X18: where insert replay leaves the log, and what it returns.  Let
    the blocks of the record have been read, leaving the log [sl]; let
    the data of the first undo block begin with the insert entries of
    the headers [hdrs] (or the block have no data and [hdrs] be empty).
    Then a replay that returns gives the insert position of the log
    advanced over the bytes of the headers, and leaves the log's insert
    position advanced over the headers and the payload; both by counting
    usable bytes, whatever the pages hold, and as [UndoAllocate] and
    [UndoInsert] do on the forward path.  It changes no other log and no
    record set. *)
Theorem UndoInsertInRecovery_position (xlog_record : XLogReaderState) (data : list Z)
    (w : World) (l : InsertLocals) (w1 : World) (s : nat) (sl : UndoLogSlot)
    (o : option (list Z)) (hdrs : list (list Z)) (more : list Z)
    (p : Z) (w' : World) :
  let header_size := uint64 (Z.of_nat (length (concat hdrs))) in
  read_blocks (blocks xlog_record)
    (mkLocals None None (replicate (length (blocks xlog_record)) None) 0 false) w
  = Done (l, w1) ->
  loc_slot l = Some s -> slots w1 !! s = Some sl ->
  loc_ops l = Some o ->
  default [] o = flat_map encode_insert hdrs ++ more ->
  Forall (fun d => Z.of_nat (length d) <= 127) hdrs ->
  match more with [] => True | b0 :: _ => 128 <= b0 end ->
  UndoInsertInRecovery xlog_record data w = Done (p, w') ->
  p = UndoRecPtrPlusUsableBytes (MakeUndoRecPtr (logno sl) (meta_insert sl))
        header_size /\
  slots w' = <[s := mkSlot (logno sl)
                       (UndoLogOffsetPlusUsableBytes (meta_insert sl)
                          (uint64 (header_size + Z.of_nat (length data))))
                       (slot_end sl) (slot_persistence sl) (slot_full sl)]> (slots w1) /\
  heap w' = heap w1.
Proof.
  intros header_size Hread Hs Hsl Hops Ho Hhdrs Hmore Hrun.
  refine (wp_done None _ _ (fun p w' => _) _ _ _ Hrun). clear Hrun.
  unfold UndoInsertInRecovery.
  apply wp_bind, wp_gets. apply wp_bind, wp_lift.
  destruct (InRecovery w); cbn [Assert]; [|discriminate].
  apply wp_bind. eapply wp_of_done; [exact Hread|].
  apply wp_bind.
  apply wp_mono with (Q := fun _ w2 => w2 = w1).
  { destruct (negb (loc_skip l)); [|apply wp_ret; reflexivity].
    unfold local_slot. rewrite Hs. apply wp_bind, wp_ret.
    apply wp_bind, wp_slot_deref. intros sl0 _. apply wp_ret. reflexivity. }
  intros state w2 ->.
  apply wp_bind.
  apply wp_mono with (Q := fun h w3 =>
    h = header_size /\ slots w3 = slots w1 /\ heap w3 = heap w1).
  { rewrite Hops. destruct o as [ops|]; simpl in Ho.
    - subst ops. apply wp_bind.
      assert (Hfuel : (length hdrs < S (length (flat_map encode_insert hdrs ++ more)))%nat).
      { rewrite length_app. clear. induction hdrs as [|d ds IH]; cbn; [lia|].
        rewrite length_app. lia. }
      unfold wp at 1.
      rewrite (insert_ops_loop_run hdrs more _ state 0 w1 Hhdrs Hmore Hfuel
                 ltac:(lia)).
      fold (wp None (let* state0 := append_all state hdrs in
                     ret (state0, uint64 (0 + Z.of_nat (length (concat hdrs))))) w1
              (fun a w'0 => wp None (let (state0, header_size0) := a in
                 (if negb (loc_skip l)
                  then let* _ := append_bytes_local state0 data in ret tt
                  else ret tt) ;; ret header_size0) w'0
                 (fun h w3 => h = header_size /\ slots w3 = slots w1 /\
                              heap w3 = heap w1))).
      apply wp_bind. eapply wp_mono; [apply append_all_kept|].
      cbv beta. intros st3 w3 [Hs3 Hh3]. apply wp_ret.
      apply wp_bind.
      apply wp_mono with (Q := fun _ w4 => slots w4 = slots w1 /\ heap w4 = heap w1).
      { destruct (negb (loc_skip l)).
        - apply wp_bind. eapply wp_mono; [apply append_bytes_local_kept|].
          cbv beta. intros _ w4 [Hs4 Hh4]. apply wp_ret. split; congruence.
        - apply wp_ret. split; assumption. }
      intros _ w4 [Hs4 Hh4]. apply wp_ret.
      split; [|split; assumption]. reflexivity.
    - apply wp_ret. destruct hdrs as [|d ds]; [|discriminate Ho].
      split; [|split; reflexivity]. reflexivity. }
  intros h w3 (-> & Hs3 & Hh3).
  apply wp_bind. eapply wp_mono; [apply set_lsn_loop_kept|].
  cbv beta. intros _ w4 [Hs4 Hh4].
  unfold local_slot. rewrite Hs. apply wp_bind, wp_ret.
  apply wp_bind, wp_slot_deref. intros sl4 Hsl4.
  rewrite Hs4, Hs3, Hsl in Hsl4. injection Hsl4 as <-.
  apply wp_bind. unfold slot_store. apply wp_modify, wp_ret.
  split; [reflexivity|].
  split; [|exact (eq_trans Hh4 Hh3)].
  change (<[s := mkSlot (logno sl)
                   (UndoLogOffsetPlusUsableBytes (meta_insert sl)
                      (uint64 (header_size + Z.of_nat (length data))))
                   (slot_end sl) (slot_persistence sl) (slot_full sl)]> (slots w4)
          = <[s := mkSlot (logno sl)
                     (UndoLogOffsetPlusUsableBytes (meta_insert sl)
                        (uint64 (header_size + Z.of_nat (length data))))
                     (slot_end sl) (slot_persistence sl) (slot_full sl)]> (slots w1)).
  rewrite Hs4, Hs3. reflexivity.
Qed.
(** ** The blocks of a record, as insert replay reads them *)

Lemma no_undo_block (bs : list DecodedBkpBlock) :
  length (filter (fun b => is_undo_block b = true) bs) = 0%nat ->
  forall sl, Forall (covers sl) bs.
Proof.
  intros Hlen sl. induction bs as [|b bs IH]; [constructor|].
  destruct (is_undo_block b) eqn:E.
  - rewrite filter_cons_True in Hlen by exact E. discriminate Hlen.
  - rewrite filter_cons_False in Hlen by congruence.
    constructor; [|apply IH, Hlen]. intros Hu. congruence.
Qed.

Lemma covers_later (sl sl' : UndoLogSlot) (b : DecodedBkpBlock) :
  logno sl' = logno sl -> slot_end sl <= slot_end sl' ->
  covers sl b -> covers sl' b.
Proof. intros Hl He Hc Hu. destruct (Hc Hu) as [H1 H2]. split; [congruence | lia]. Qed.

Lemma raise_end_at (ss : list UndoLogSlot) (s : nat) (sl : UndoLogSlot) (new_end : Z) :
  ss !! s = Some sl ->
  exists sl', map (raise_end (logno sl) new_end) ss !! s = Some sl' /\
    logno sl' = logno sl /\ new_end <= slot_end sl' /\ slot_end sl <= slot_end sl'.
Proof.
  intros Hs. rewrite list_lookup_fmap, Hs. cbn. unfold raise_end. rewrite Z.eqb_refl.
  eexists. split; [reflexivity|]. cbn. repeat split; lia.
Qed.

Lemma wp_XLogReadBufferForRedoExtended (block : DecodedBkpBlock) (zero : bool)
    (w : World) (Q : XLogRedoAction * Z -> World -> Prop) :
  (forall x w', slots w' = slots w -> Q x w') ->
  wp None (XLogReadBufferForRedoExtended block zero) w Q.
Proof.
  intros H. unfold XLogReadBufferForRedoExtended.
  destruct (redo_action block).
  all: try (apply wp_ret, H; reflexivity).
  all: match goal with |- context [ReadBufferWithoutRelcache ?r ?b ?z] =>
         destruct (ReadBuffer_spec r b z w) as (buf & p' & E & _)
       end;
       apply wp_bind; (eapply wp_of_done; [exact E|]).
  all: try (apply wp_bind, wp_set_page_any; intros f).
  all: apply wp_bind, wp_modify, wp_ret, H; reflexivity.
Qed.

(** One block. *)
Lemma read_block_covers (b : DecodedBkpBlock) (l : InsertLocals) (w : World)
    (done : list DecodedBkpBlock) :
  blocks_read done l w ->
  wp None (read_block b l) w (fun l' w' => blocks_read (done ++ [b]) l' w').
Proof.
  intros [Hn Hinv]. unfold read_block.
  destruct (is_undo_block b) eqn:Hu; cbn [negb].
  2: { apply wp_ret. split.
       - rewrite filter_app, filter_cons_False, filter_nil, app_nil_r by congruence.
         exact Hn.
       - destruct Hinv as [H0|(s & sl & Hs & Hsl & Hc)]; [left; exact H0|].
         right. exists s, sl. split; [exact Hs|]. split; [exact Hsl|].
         apply Forall_app. split; [exact Hc|].
         constructor; [|constructor]. intros Hu'. congruence. }
  apply wp_bind.
  apply wp_mono with (Q := fun s w0 => w0 = w /\
    exists sl, slots w !! s = Some sl /\ logno sl = rnode_relNode b /\
      Forall (covers sl) done).
  { destruct (Z.eqb_spec (loc_nbuffers l) 0) as [E0|E0].
    - unfold UndoLogGetSlot. apply wp_bind, wp_gets.
      destruct (list_find _ (slots w)) as [[i v]|] eqn:Hf; [|apply wp_fail; discriminate].
      apply wp_ret. split; [reflexivity|].
      apply list_find_Some in Hf as (Hi & Hl & _).
      exists v. split; [exact Hi|]. split; [exact Hl|].
      apply no_undo_block. rewrite E0 in Hn. lia.
    - destruct Hinv as [H0|(s & sl & Hs & Hsl & Hc)]; [contradiction|].
      unfold local_slot. rewrite Hs. apply wp_bind, wp_ret.
      apply wp_bind, wp_slot_deref. intros sl0 Hsl0.
      rewrite Hsl in Hsl0. injection Hsl0 as <-.
      apply wp_bind, wp_lift.
      destruct (Z.eqb_spec (logno sl) (rnode_relNode b)); cbn [Assert]; [|discriminate].
      apply wp_ret. split; [reflexivity|]. exists sl. auto. }
  intros s w0 (-> & sl & Hsl & Hlog & Hc).
  apply wp_bind, wp_slot_deref. intros sl0 Hsl0.
  rewrite Hsl in Hsl0. injection Hsl0 as <-.
  set (past := uint32 ((blkno b + 1) * BLCKSZ)).
  apply wp_bind.
  apply wp_mono with (Q := fun _ w1 =>
    exists sl1, slots w1 !! s = Some sl1 /\ logno sl1 = logno sl /\
      past <= slot_end sl1 /\ slot_end sl <= slot_end sl1).
  { destruct (Z.ltb_spec (slot_end sl) past); cbn [when].
    - unfold UndoLogAdjustPhysicalRange. apply wp_bind, wp_modify, wp_modify.
      exact (raise_end_at (slots w) s sl past Hsl).
    - apply wp_ret. exists sl. repeat split; [exact Hsl | lia ..]. }
  intros _ w1 (sl1 & Hsl1 & Hlog1 & Hpast1 & Hend1).
  apply wp_bind, wp_XLogReadBufferForRedoExtended. intros [action buffer] w2 Hs2.
  apply wp_bind. unfold array_write.
  destruct (_ && _); [|apply wp_fail; discriminate]. apply wp_ret.
  assert (Hlt : (s < length (slots w1))%nat) by (eapply lookup_lt_Some; eauto).
  apply wp_bind.
  apply wp_mono with (Q := fun _ w3 =>
    exists sl3, slots w3 !! s = Some sl3 /\ logno sl3 = logno sl1 /\
      slot_end sl3 = slot_end sl1).
  { destruct (_ && _).
    - apply wp_bind, wp_BufferGetPage_any. intros pg.
      apply wp_bind.
      apply wp_mono with (Q := fun _ w3 => slots w3 = slots w1).
      { destruct (pd_lower pg =? 0); cbn [when].
        - apply wp_set_pd_lower_any. intros f. exact Hs2.
        - apply wp_ret. exact Hs2. }
      intros _ w3 Hs3.
      apply wp_bind, wp_BufferGetPage_any. intros pg'.
      apply wp_bind, wp_slot_deref. intros sl3 Hsl3.
      rewrite Hs3, Hsl1 in Hsl3. injection Hsl3 as <-.
      unfold slot_store. apply wp_modify.
      eexists. split.
      + cbn [slots with_slots].
        apply list_lookup_insert_eq. rewrite Hs3. exact Hlt.
      + split; reflexivity.
    - destruct (loc_nbuffers l =? 0).
      + apply wp_bind, wp_slot_deref. intros sl3 Hsl3. apply wp_lift.
        destruct (Assert _ _); [|discriminate].
        exists sl1. rewrite Hs2. auto.
      + apply wp_ret. exists sl1. rewrite Hs2. auto. }
  intros _ w3 (sl3 & Hsl3 & Hlog3 & Hend3).
  apply wp_bind.
  apply wp_mono with (Q := fun _ w4 => slots w4 = slots w3).
  { destruct (negb _); cbn [when]; [|apply wp_ret; reflexivity].
    unfold PageInit. apply wp_bind, wp_BufferGetPage_any. intros _.
    apply wp_bind, wp_set_page_any. intros f. apply wp_modify. reflexivity. }
  intros _ w4 Hs4. apply wp_ret.
  split.
  - cbn [loc_nbuffers].
    rewrite filter_app, filter_cons_True, filter_nil, length_app by exact Hu.
    cbn [length]. rewrite Hn. lia.
  - right. exists s, sl3. cbn [loc_slot]. split; [reflexivity|].
    split; [rewrite Hs4; exact Hsl3|].
    apply Forall_app. split.
    + eapply Forall_impl; [exact Hc|]. intros x Hx.
      apply (covers_later sl); [congruence | lia | exact Hx].
    + constructor; [|constructor].
      intros _. split; [congruence|]. fold past. lia.
Qed.

Lemma read_blocks_covers (bs : list DecodedBkpBlock) : forall (done : list DecodedBkpBlock)
    (l : InsertLocals) (w : World),
  blocks_read done l w ->
  wp None (read_blocks bs l) w (fun l' w' => blocks_read (done ++ bs) l' w').
Proof.
  induction bs as [|b bs IH]; intros done l w Hinv; cbn [read_blocks].
  - apply wp_ret. rewrite app_nil_r. exact Hinv.
  - apply wp_bind. eapply wp_mono; [apply read_block_covers, Hinv|].
    cbv beta. intros l1 w1 H1.
    eapply wp_mono; [apply (IH _ _ _ H1)|].
    cbv beta. intros l' w'. rewrite <- app_assoc. exact id.
Qed.

(** X19: the first loop of [UndoInsertInRecovery].  When it has read the
    blocks of a record, it has counted the undo blocks among them; and if
    there is one, the log it has settled on is the log of them all, and
    ends at or after the end of each of them, the range of the log having
    been extended where it fell short.  The end of a block is
    [(blkno + 1) * BLCKSZ] computed in 32 bits. *)
Theorem UndoInsertInRecovery_covers_blocks (bs : list DecodedBkpBlock)
    (buffers : list (option Z)) (w : World) (l : InsertLocals) (w' : World) :
  read_blocks bs (mkLocals None None buffers 0 false) w = Done (l, w') ->
  loc_nbuffers l = Z.of_nat (length (filter (fun b => is_undo_block b = true) bs)) /\
  (loc_nbuffers l = 0 \/
   exists s sl, loc_slot l = Some s /\ slots w' !! s = Some sl /\
     Forall (fun b => is_undo_block b = true ->
               rnode_relNode b = logno sl /\
               uint32 ((blkno b + 1) * BLCKSZ) <= slot_end sl) bs).
Proof.
  intros Hrun. change (blocks_read bs l w').
  refine (wp_done None _ _ _ _ _ (read_blocks_covers bs [] _ w _) Hrun).
  split; [reflexivity | left; reflexivity].
Qed.
End Proofs.

(** * The scenarios, evaluated *)

Module Examples.
Import Scenario.
#[local] Existing Instance pg_layout.

(** C1 (the code departs from the claim): closing a record set whose chunk
    header starts at byte 8191 of a block, with the insert position 300
    bytes further.  The forward path continues a header at byte 24 of the
    next block (where it puts the first bytes of the header once more,
    its loop not advancing its source); [UndoMarkClosed] copies the seven
    remaining bytes of the size to byte 0 of the next block, over its
    page header, leaves the bytes from byte 24 as they were, and the size
    field read back from the header's own bytes is 44, not 300. *)
Theorem UndoMarkClosed_straddling_size_misplaced :
  exists st wh w,
    header_written = Done (st, wh) /\
    (fun p => page_read (image p) 8191 1) <$> page_of wh 1 0 = Some [1] /\
    (fun p => page_read (image p) 24 23) <$> page_of wh 1 1
      = Some (map Z.of_nat (seq 1 23)) /\
    close_straddling = Done (tt, w) /\
    (meta_insert <$> slots w !! 0%nat) = Some (8191 + 300) /\
    (fun p => page_read (image p) 8191 1) <$> page_of w 1 0 = Some [300 mod 256] /\
    (fun p => page_read (image p) 0 7) <$> page_of w 1 1 = Some [1; 0; 0; 0; 0; 0; 0] /\
    (fun p => page_read (image p) 24 7) <$> page_of w 1 1 = Some [0; 0; 0; 0; 0; 0; 0] /\
    le_value <$> chunk_size_bytes w 1 8191 = Some 44.
Proof.
  unfold header_written, close_straddling.
  eexists _, _, _. vm_compute. repeat split; reflexivity.
Qed.

(** C2 (the code departs from the claim): the calls [UndoMarkClosed]
    makes for the straddling chunk, after the two reads of
    [UndoPrepareToMarkClosed].  The first page (index 0, buffer 1) is
    registered under block id 0 with the opcode of its range (8191, 1) and
    the byte written.  The second page (index 1, buffer 2) is registered
    under block id 2, its buffer handle; the opcode attached under block
    id 1 repeats the first page's range (8191, 1), and the literal byte is
    the one at byte 8191 of the second page, while the bytes written to
    that page are the seven at its byte 0. *)
Theorem UndoMarkClosed_second_page_registration :
  exists w,
    close_straddling = Done (tt, w) /\
    (buffers <$> default None (heap w !! 0%nat)) = Some [Some 1; Some 2] /\
    write_update_ops_header 8191 1 = Done [159; 255; 0; 1] /\
    rev (trace w) =
      [ EvReadBuffer 1 0 false 1; EvLockBuffer 1;
        EvReadBuffer 1 1 false 2; EvLockBuffer 2;
        EvMarkBufferDirty 1;
        EvXLogRegisterBuffer 0 1 0;
        EvXLogRegisterBufData 0 [159; 255; 0; 1];
        EvXLogRegisterBufData 0 [300 mod 256];
        EvMarkBufferDirty 2;
        EvXLogRegisterBuffer 2 2 0;
        EvXLogRegisterBufData 1 [159; 255; 0; 1];
        EvXLogRegisterBufData 1 [0] ] /\
    (fun p => page_read (image p) 0 7) <$> page_of w 1 1
      = Some (drop 1 (le_bytes 8 300)).
Proof.
  unfold close_straddling.
  eexists. vm_compute. repeat split; reflexivity.
Qed.

(** C3 (the code departs from the claim): an update entry encoded at the
    valid offset 24 with length 0 does not survive the round trip: the
    update scanner raises an error on its encoding, whatever the page,
    where the claim has it applied as a change of no byte. *)
Theorem update_round_trip_fails_at_length_zero :
  forall page : list Z,
    encode_update 24 [] = Done [128; 24; 0; 0] /\
    (let? ops := encode_update 24 [] in apply_updates ops page)
      = Fail (ElogError "corrupted undo update instruction").
Proof. intros page. split; reflexivity. Qed.

(** C4 (the code departs from the claim): the update scanner at the end of
    the stream.  An update whose literal byte is the last byte of the
    stream is accepted, and so is an update of length 0 that is followed
    by another entry; an update of length 0 whose four header bytes are the
    last four bytes of the stream is an error, alone or after another
    entry, although it reaches no byte past the end. *)
Theorem update_of_length_zero_at_stream_end_is_rejected :
  forall page : list Z,
    apply_updates [128; 24; 0; 1; 5] (replicate 32 0)
      = Done (replicate 24 0 ++ [5] ++ replicate 7 0) /\
    apply_updates [128; 24; 0; 0; 1; 7] (replicate 32 0) = Done (replicate 32 0) /\
    apply_updates [128; 24; 0; 0] page
      = Fail (ElogError "corrupted undo update instruction") /\
    apply_updates [1; 7; 128; 24; 0; 0] page
      = Fail (ElogError "corrupted undo update instruction").
Proof.
  intros page. repeat split; reflexivity.
Qed.

(** C7 (the code departs from the claim): insert replay of a record whose
    undo block is reported not found.  With a two-byte header entry
    attached to the block, the scanner passes the header bytes to
    [append_bytes] on the cursor that [begin_append] never set, because it
    was skipped: the call does not skip the header write, and has no
    defined result.  With no data attached to the block, nothing is
    written and the insert position moves by the payload length, as the
    claim says; with the block present, the same record returns the
    position after the two header bytes and moves the insert position by
    five. *)
Theorem UndoInsertInRecovery_not_found_appends_headers :
  UndoInsertInRecovery
    (mkRecord 7777 [undo_block BLK_NOTFOUND (Some [2; 170; 187])]) [1; 2; 3]
    recovery_world
    = Fail (Undefined "state is used uninitialised") /\
  UndoInsertInRecovery
    (mkRecord 7777 [undo_block BLK_NOTFOUND None]) [1; 2; 3] recovery_world
    = Done (MakeUndoRecPtr 1 100,
            with_slots (fun _ => [mkSlot 1 103 8192 112 false]) recovery_world) /\
  (exists w,
     UndoInsertInRecovery
       (mkRecord 7777 [undo_block BLK_NEEDS_REDO (Some [2; 170; 187])]) [1; 2; 3]
       recovery_world
       = Done (MakeUndoRecPtr 1 102, w) /\
     slots w = [mkSlot 1 105 8192 112 false] /\
     (fun p => page_read (image p) 100 5) <$> page_of w 1 0
       = Some [170; 187; 1; 2; 3]).
Proof.
  split; [ reflexivity | split; [ reflexivity | ] ].
  eexists. vm_compute. repeat split; reflexivity.
Qed.



Lemma UndoRelease_spec_witness :
  tpost (UndoRelease 0) closed_world (fun _ w' =>
    rev (trace w')
      = [ EvUnlockBuffer 1; EvReleaseBuffer 1; EvUnlockBuffer 2; EvReleaseBuffer 2;
          EvUndoLogPut 0; EvPfree 0 ] /\
    heap w' = [None] /\ UndoRecordSetList w' = [] /\ free_logs w' = [0%nat]) /\
  tpost (UndoRelease 0) open_world (fun _ w' =>
    rev (trace w')
      = [ EvUnlockBuffer 1; EvReleaseBuffer 1; EvUnlockBuffer 2; EvReleaseBuffer 2 ] /\
    heap w' = [Some (set_nbuffers 0 (set_closed false closed_set))] /\
    UndoRecordSetList w' = [0%nat] /\ free_logs w' = []).
Proof.
  split.
  - eapply tpost_mono.
    + apply (UndoRelease_spec closed_world 0 closed_set [1; 2]); reflexivity.
    + cbv beta. intros _ w' (Ht & _ & _ & Hh & Hl & Hf).
      rewrite Ht, Hh, Hl, Hf. repeat split; reflexivity.
  - eapply tpost_mono.
    + apply (UndoRelease_spec open_world 0 (set_closed false closed_set) [1; 2]);
        reflexivity.
    + cbv beta. intros _ w' (Ht & _ & _ & Hh & Hl & Hf).
      rewrite Ht, Hh, Hl, Hf. repeat split; reflexivity.
Defined.

Lemma exit_is_fatal_iff_a_record_set_is_left_witness :
  (exists w, run 5 clean_calls fresh_world = Done (tt, w) /\
             shmem_exit w = Done (tt, w)) /\
  (exists w, run 5 leaky_calls fresh_world = Done (tt, w) /\
             shmem_exit w
             = Fail (ElogPanic "undo record set not closed before backend exit")).
Proof.
  split.
  - eexists. split; [vm_compute; reflexivity|].
    match goal with |- shmem_exit ?w = _ =>
      pose proof (exit_is_fatal_iff_a_record_set_is_left 5 clean_calls
                    fresh_world w eq_refl eq_refl eq_refl) as H
    end.
    specialize (H ltac:(vm_compute; reflexivity)).
    destruct H as (_ & _ & H). exact H.
  - eexists. split; [vm_compute; reflexivity|].
    match goal with |- shmem_exit ?w = _ =>
      pose proof (exit_is_fatal_iff_a_record_set_is_left 5 leaky_calls
                    fresh_world w eq_refl eq_refl eq_refl) as H
    end.
    specialize (H ltac:(vm_compute; reflexivity)).
    destruct H as (_ & _ & H). exact H.
Defined.

(** C5 (the code departs from the claim): a record set whose first
    allocation finds log 1 a hundred bytes short of the largest size of a
    log.  [reserve_physical_undo] has made the first chunk of the record
    set on log 1; it marks that log full and makes a second chunk on log
    2.  [UndoInsert] then writes the chunk header of the second chunk
    and, after it, the type header, at bytes 24 to 55 of block 0 of log
    2, and attaches both to that block; the data follow.  For the first
    chunk nothing is written or attached, and no block of log 1 is read:
    the type header is emitted once, in the second chunk of the record
    set and not in its first. *)
Theorem type_header_goes_to_the_second_chunk :
  exists w r,
    run 5 spill_calls spill_world = Done (tt, w) /\
    heap w !! 0%nat = Some (Some r) /\
    map (fun c => (chunk_slot c, chunk_header_offset c)) (chunks r)
      = [(0%nat, 2 ^ 40 - 100); (1%nat, 24)] /\
    slots w = [ mkSlot 1 (2 ^ 40 - 100) (2 ^ 40) 112 true;
                mkSlot 2 (24 + 24 + 8 + 200) 8192 112 false ] /\
    map (fun d => (tag_relNode d, tag_block d)) (pool w) = [(2, 0)] /\
    rev (trace w)
      = [ EvLWLockAcquire 0 false; EvLWLockRelease 0; EvUndoLogMarkFull 0;
          EvLWLockAcquire 1 false; EvLWLockRelease 1;
          EvReadBuffer 2 0 true 1; EvPageInit 1; EvLockBuffer 1;
          EvMarkBufferDirty 1; EvXLogRegisterBuffer 0 1 REGBUF_WILL_INIT;
          EvXLogRegisterBufData 0 [UndoRecordSetChunkHeaderSize];
          EvXLogRegisterBufData 0 (chunk_header_bytes (mkChunkHeader 0 0 URST_FOO));
          EvXLogRegisterBufData 0 [8];
          EvXLogRegisterBufData 0 (replicate 8 0);
          EvLWLockAcquire 1 true; EvLWLockRelease 1 ] /\
    (fun p => page_read (image p) 24 34) <$> page_of w 2 0
      = Some (chunk_header_bytes (mkChunkHeader 0 0 URST_FOO) ++ replicate 8 0
              ++ [7; 7]).
Proof.
  eexists _, _. split; [vm_compute; reflexivity|].
  split; [reflexivity|]. repeat split; vm_compute; reflexivity.
Qed.

Lemma reserve_physical_undo_spec_witness :
  try_active_log 0 10 straddling_world
    = Done (Some (MakeUndoRecPtr 1 8491),
            refreshed 0 straddling_set 0 (mkSlot 1 8491 16384 112 false)
              straddling_world).
Proof.
  destruct (reserve_physical_undo_spec straddling_world 0 straddling_set 10
              eq_refl) as (Hactive & _).
  exact (Hactive 0%nat (mkSlot 1 8491 16384 112 false) 0 eq_refl eq_refl
           ltac:(vm_compute; discriminate) eq_refl).
Defined.



Lemma update_round_trip_witness :
  exists ops,
    encode_update 8000 ten_bytes = Done ops /\
    apply_updates ops (image zero_page)
      = Done (take (Z.to_nat 8000) (image zero_page) ++ ten_bytes
              ++ drop (Z.to_nat 8000 + length ten_bytes) (image zero_page)).
Proof.
  apply (update_round_trip 8000 ten_bytes (image zero_page));
    [vm_compute; discriminate | vm_compute; discriminate | discriminate
    | reflexivity].
Defined.

Lemma insert_round_trip_witness :
  insert_ops_loop 2 (encode_insert ten_bytes) (Some cursor_at_100) 0 one_block_world
    = (let* state := append_bytes_local (Some cursor_at_100) ten_bytes in
       ret (state, uint64 (0 + Z.of_nat (length ten_bytes)))) one_block_world.
Proof.
  apply (insert_round_trip 0 ten_bytes (Some cursor_at_100) 0 one_block_world).
  vm_compute. discriminate.
Defined.

Lemma update_scanner_skips_insertions_witness :
  apply_updates_loop 3 (encode_insert ten_bytes ++ [128; 24; 0; 1; 5]) (replicate 32 0)
    = (if (length ten_bytes =? 0)%nat then Fail (AssertFailed "*ops != 0")
       else apply_updates_loop 2 [128; 24; 0; 1; 5] (replicate 32 0)) /\
  apply_updates_loop 3 (encode_insert [] ++ [128; 24; 0; 1; 5]) (replicate 32 0)
    = (if (length (@nil Z) =? 0)%nat then Fail (AssertFailed "*ops != 0")
       else apply_updates_loop 2 [128; 24; 0; 1; 5] (replicate 32 0)).
Proof.
  split.
  - apply (update_scanner_skips_insertions 2 ten_bytes [128; 24; 0; 1; 5]
             (replicate 32 0)).
    vm_compute. discriminate.
  - apply (update_scanner_skips_insertions 2 [] [128; 24; 0; 1; 5]
             (replicate 32 0)).
    vm_compute. discriminate.
Defined.

Lemma UndoPageSetLSN_spec_witness :
  UndoPageSetLSN 0 7777 closed_world
    = Done (tt, with_pool (stamped [1; 2] 7777) closed_world).
Proof.
  apply (UndoPageSetLSN_spec closed_world 0 closed_set [1; 2] 7777);
    [reflexivity | reflexivity | reflexivity |].
  repeat constructor; cbn; lia.
Defined.

Lemma find_or_read_buffer_spec_witness :
  exists (i : nat) w' r' bs' b,
    find_or_read_buffer 0 1 5 closed_world = Done (Z.of_nat i, w') /\
    heap w' !! 0%nat = Some (Some r') /\ pinned r' bs' /\
    valid_buffers (pool w') bs' /\
    (bs' = [1; 2] /\ w' = closed_world \/
     bs' = [1; 2] ++ [b] /\ i = length [1; 2] /\
     trace w' = EvLockBuffer b :: EvReadBuffer 1 5 false b :: trace closed_world) /\
    bs' !! i = Some b /\
    buffer_tag (pool w') b = Some (1, 5) /\
    (forall j x, (j < i)%nat -> bs' !! j = Some x ->
       buffer_tag (pool w') x <> Some (1, 5)) /\
    find_or_read_buffer 0 1 5 w' = Done (Z.of_nat i, w').
Proof.
  apply (find_or_read_buffer_spec closed_world 0 closed_set [1; 2] 1 5);
    [reflexivity | split; reflexivity | repeat constructor; cbn; lia].
Defined.

Lemma UndoInsertInRecovery_without_undo_block_witness :
  UndoInsertInRecovery
    (mkRecord 7777 [mkBlock true 5 1 0 0 (Some [2; 170; 187]) BLK_NEEDS_REDO zero_page;
                    mkBlock false UndoDbOid 1 0 0 None BLK_NEEDS_REDO zero_page])
    [1; 2; 3] recovery_world
    = Fail (Undefined "slot is used uninitialised").
Proof.
  apply UndoInsertInRecovery_without_undo_block;
    [reflexivity | repeat constructor].
Defined.

Lemma apply_updates_entries_witness :
  exists ops,
    encode_entries [InsertEntry ten_bytes; UpdateEntry 24 [5; 6];
                    UpdateEntry 100 []; InsertEntry [1]] = Done ops /\
    apply_updates ops (image zero_page)
      = if ends_in_empty_update [InsertEntry ten_bytes; UpdateEntry 24 [5; 6];
                                 UpdateEntry 100 []; InsertEntry [1]]
        then Fail (ElogError "corrupted undo update instruction")
        else Done (updated [InsertEntry ten_bytes; UpdateEntry 24 [5; 6];
                            UpdateEntry 100 []; InsertEntry [1]] (image zero_page)).
Proof.
  apply apply_updates_entries; [|reflexivity].
  repeat constructor; cbn; lia.
Defined.

Lemma insert_ops_loop_entries_witness :
  insert_ops_loop 5 (flat_map encode_insert [ten_bytes; [1; 2]] ++ [128; 24; 0; 1; 5])
    (Some cursor_at_100) 0 one_block_world
    = (let* state := append_all (Some cursor_at_100) [ten_bytes; [1; 2]] in
       ret (state, uint64 (0 + Z.of_nat (length (concat [ten_bytes; [1; 2]])))))
        one_block_world.
Proof.
  apply (insert_ops_loop_entries [ten_bytes; [1; 2]] [128; 24; 0; 1; 5]);
    [repeat constructor; cbn; lia | cbn; lia | cbn; lia | lia].
Defined.

Lemma UndoMarkClosed_one_page_witness :
  exists ops0 w',
    write_update_ops_header 100 8 = Done ops0 /\
    UndoMarkClosed 0 one_page_world = Done (tt, w') /\
    (closed <$> default None (heap w' !! 0%nat)) = Some true /\
    apply_updates (ops0 ++ le_bytes 8 300) (image zero_page)
      = Done (take 100 (image zero_page) ++ le_bytes 8 300
              ++ drop 108 (image zero_page)).
Proof.
  destruct (UndoMarkClosed_one_page one_page_world 0 one_page_set
              (mkChunk 0 100 (0, -1) ([], [])) (mkSlot 1 400 8192 112 false) 1
              (mkBuf 1 0 zero_page))
    as (ops0 & H1 & H2 & H3);
    [reflexivity | reflexivity | reflexivity | vm_compute; split; discriminate
    | vm_compute; discriminate | reflexivity | lia | reflexivity | reflexivity |].
  exists ops0. eexists. split; [exact H1|]. split; [exact H2|].
  split; [reflexivity | exact H3].
Defined.

Lemma UndoUpdateInRecovery_blocks_witness :
  UndoUpdateInRecovery
    (mkRecord 7777 [undo_block BLK_NEEDS_REDO (Some [128; 24; 0; 1; 5])])
    one_block_world
  = Done (tt,
      with_trace (fun t => [ EvReleaseBuffer 1; EvUnlockBuffer 1; EvLockBuffer 1;
                             EvReadBuffer 1 0 false 1 ] ++ t)
        (put_page 1 (mkBuf 1 0 zero_page)
           (store_pd_lsn 7777
              (mkPage (take 24 (image zero_page) ++ [5]
                       ++ drop 25 (image zero_page))))
           one_block_world)) /\
  exists w',
    UndoUpdateInRecovery
      (mkRecord 7777 [undo_block BLK_NEEDS_REDO (Some [128; 12; 0; 2; 100; 0])])
      one_block_world = Done (tt, w') /\
    (fun p => (pd_lsn p, pd_lower p)) <$> page_of w' 1 0 = Some (7777, 100).
Proof.
  destruct (UndoUpdateInRecovery_blocks 7777 one_block_world) as (_ & _ & H).
  split.
  - pose proof (H (undo_block BLK_NEEDS_REDO (Some [128; 24; 0; 1; 5])) 0%nat
               (mkBuf 1 0 zero_page) eq_refl eq_refl) as H1.
    etransitivity; [exact H1|].
    vm_compute. reflexivity.
  - pose proof (H (undo_block BLK_NEEDS_REDO (Some [128; 12; 0; 2; 100; 0])) 0%nat
               (mkBuf 1 0 zero_page) eq_refl eq_refl) as H2.
    eexists. split; [etransitivity; [exact H2 | vm_compute; reflexivity]|].
    vm_compute. reflexivity.
Defined.


Lemma reserve_physical_undo_backed_witness :
  exists p w',
    reserve_physical_undo 5 0 10 created_world = Done (p, w') /\
    ends_known 0 w' /\
    exists r s sl ths,
      heap w' !! 0%nat = Some (Some r) /\ slot r = Some s /\ slots w' !! s = Some sl /\
      p = MakeUndoRecPtr (logno sl) (meta_insert sl) /\
      (if need_type_header r then urst_header_size (urs_type r) else Done 0) = Done ths /\
      UndoLogOffsetPlusUsableBytes (meta_insert sl)
        (uint64 (10 + (if need_chunk_header r then UndoRecordSetChunkHeaderSize else 0)
                 + ths)) <= slot_end sl.
Proof.
  eexists _, _. split; [vm_compute; reflexivity|].
  apply (reserve_physical_undo_backed 5 0 10 created_world);
    [|vm_compute; reflexivity].
  split; [repeat constructor; vm_compute; discriminate|].
  intros r s Hr Hs. vm_compute in Hr. injection Hr as <-. discriminate Hs.
Defined.
Lemma UndoAllocate_reads_one_block_witness :
  exists p w',
    UndoAllocate 5 0 9000 created_world = Done (p, w') /\
    exists begin w1 r1 ths new r',
      reserve_physical_undo 5 0 9000 created_world = Done (begin, w1) /\
      heap w1 !! 0%nat = Some (Some r1) /\
      (if need_type_header r1 then urst_header_size (urs_type r1) else Done 0)
        = Done ths /\
      p = UndoRecPtrPlusUsableBytes begin
            (uint64 ((if need_chunk_header r1 then UndoRecordSetChunkHeaderSize else 0)
                     + ths)) /\
      trace w' = new ++ trace created_world /\
      Forall (reads_only (UndoRecPtrGetLogNo begin) (UndoRecPtrGetBlockNum begin)
                (UndoRecPtrGetPageOffset begin =? UndoLogBlockHeaderSize)) new /\
      heap w' !! 0%nat = Some (Some r') /\
      nbuffers r' = count_reads new.
Proof.
  eexists _, _. split; [vm_compute; reflexivity|].
  apply (UndoAllocate_reads_one_block 5 0 9000 created_world).
  vm_compute; reflexivity.
Defined.
Lemma UndoPrepareToMarkClosed_prepares_witness :
  exists w' r' extra,
    UndoPrepareToMarkClosed 0 straddling_world = Done (tt, w') /\
    heap w' = <[0%nat := Some r']> (heap straddling_world) /\
    pinned r' ([] ++ extra) /\ valid_buffers (pool w') ([] ++ extra) /\
    slots w' = slots straddling_world /\
    length (chunks r') = length (chunks straddling_set) /\
    forall i c, chunks straddling_set !! i = Some c ->
      exists sl idx,
        slots straddling_world !! chunk_slot c = Some sl /\
        chunks r' !! i = Some (mkChunk (chunk_slot c) (chunk_header_offset c) idx
                                 (chunk_header_ops c)) /\
        prepared (pool w') ([] ++ extra) (logno sl)
          (mkChunk (chunk_slot c) (chunk_header_offset c) idx (chunk_header_ops c)).
Proof.
  apply (UndoPrepareToMarkClosed_prepares straddling_world 0 straddling_set []).
  - reflexivity.
  - split; reflexivity.
  - constructor.
  - intros [|[|i]] c Hc; try discriminate Hc. injection Hc as <-. eexists. reflexivity.
Defined.
Lemma append_bytes_advances_witness :
  exists st' w',
    append_bytes cursor_at_8190 ten_bytes closed_world = Done (st', w') /\
    st_insert st' = UndoLogOffsetPlusUsableBytes 8190 10 /\
    UndoLogBlockHeaderSize <= st_insert st' mod BLCKSZ /\
    st_buffers st' = st_buffers cursor_at_8190 /\
    st_first_block_id st' = st_first_block_id cursor_at_8190 /\
    pages_only closed_world w'.
Proof.
  eexists _, _. split; [vm_compute; reflexivity|].
  apply (append_bytes_advances cursor_at_8190 ten_bytes closed_world);
    vm_compute; try reflexivity; discriminate.
Defined.

Lemma UndoInsert_advances_insert_witness :
  exists w',
    UndoInsert 0 0 ten_bytes allocated_world = Done (tt, w') /\
    InRecovery allocated_world = false /\
    slots w'
    = <[0%nat := mkSlot (logno allocated_slot)
                   (UndoLogOffsetPlusUsableBytes (meta_insert allocated_slot)
                      ((if need_chunk_header allocated_set
                        then UndoRecordSetChunkHeaderSize else 0)
                       + (if need_type_header allocated_set
                          then type_header_size allocated_set else 0)
                       + Z.of_nat (length ten_bytes)))
                   (slot_end allocated_slot) (slot_persistence allocated_slot)
                   (slot_full allocated_slot)]> (slots allocated_world) /\
    heap w'
    = <[0%nat := Some (set_need_type_header false (set_need_chunk_header false
         (if need_type_header allocated_set
          then set_type_header
                 (replicate (Z.to_nat (type_header_size allocated_set)) 0
                  ++ drop (Z.to_nat (type_header_size allocated_set))
                       (type_header allocated_set))
                 (if need_chunk_header allocated_set
                  then set_chunk_header
                         (mkChunkHeader 0 (previous_chunk allocated_set)
                            (urs_type allocated_set)) allocated_set
                  else allocated_set)
          else if need_chunk_header allocated_set
               then set_chunk_header
                      (mkChunkHeader 0 (previous_chunk allocated_set)
                         (urs_type allocated_set)) allocated_set
               else allocated_set)))]> (heap allocated_world) /\
    exists new,
      trace w' = new ++ trace allocated_world /\
      block_data (uint8 0) new
      = (if need_chunk_header allocated_set
         then uint8 UndoRecordSetChunkHeaderSize
              :: chunk_header_bytes
                   (mkChunkHeader 0 (previous_chunk allocated_set)
                      (urs_type allocated_set))
         else [])
        ++ (if need_type_header allocated_set
            then type_header_size allocated_set
                 :: replicate (Z.to_nat (type_header_size allocated_set)) 0
            else []).
Proof.
  eexists. split; [vm_compute; reflexivity|].
  apply (UndoInsert_advances_insert 0 0 ten_bytes allocated_world _ allocated_set
           0%nat allocated_slot);
    vm_compute; try reflexivity; discriminate.
Defined.
Lemma UndoAllocate_reserves_witness :
  exists p w',
    UndoAllocate 5 0 10 created_world = Done (p, w') /\
    ends_known 0 w' /\
    exists r s sl ths,
      heap w' !! 0%nat = Some (Some r) /\ slot r = Some s /\ slots w' !! s = Some sl /\
      (if need_type_header r then urst_header_size (urs_type r) else Done 0) = Done ths /\
      p = UndoRecPtrPlusUsableBytes (MakeUndoRecPtr (logno sl) (meta_insert sl))
            (uint64 ((if need_chunk_header r then UndoRecordSetChunkHeaderSize else 0)
                     + ths)) /\
      UndoLogOffsetPlusUsableBytes (meta_insert sl)
        (uint64 (10 + (if need_chunk_header r then UndoRecordSetChunkHeaderSize else 0)
                 + ths)) <= slot_end sl.
Proof.
  eexists _, _. split; [vm_compute; reflexivity|].
  apply (UndoAllocate_reserves 5 0 10 created_world);
    [|vm_compute; reflexivity].
  split; [repeat constructor; vm_compute; discriminate|].
  intros r s Hr Hs. vm_compute in Hr. injection Hr as <-. discriminate Hs.
Defined.
Lemma UndoInsertInRecovery_position_witness :
  exists l w1 p w',
    read_blocks (blocks replay_record)
      (mkLocals None None (replicate (length (blocks replay_record)) None) 0 false)
      recovery_world = Done (l, w1) /\
    UndoInsertInRecovery replay_record ten_bytes recovery_world = Done (p, w') /\
    p = UndoRecPtrPlusUsableBytes (MakeUndoRecPtr 1 100) (uint64 3) /\
    slots w' = <[0%nat := mkSlot 1 (UndoLogOffsetPlusUsableBytes 100
                                     (uint64 (uint64 3 + 10))) 8192 112 false]>
                 (slots w1) /\
    heap w' = heap w1.
Proof.
  eexists _, _, _, _. split; [vm_compute; reflexivity|].
  split; [vm_compute; reflexivity|].
  eapply (UndoInsertInRecovery_position replay_record ten_bytes recovery_world _ _
           0%nat (mkSlot 1 100 8192 112 false) (Some (encode_insert [1; 2; 3]))
           [[1; 2; 3]] []);
    try (vm_compute; reflexivity).
  repeat constructor. vm_compute. discriminate.
Defined.
Lemma UndoInsertInRecovery_covers_blocks_witness :
  exists l w',
    read_blocks two_undo_blocks (mkLocals None None [None; None] 0 false) recovery_world
    = Done (l, w') /\
    loc_nbuffers l
    = Z.of_nat (length (filter (fun b => is_undo_block b = true) two_undo_blocks)) /\
    (loc_nbuffers l = 0 \/
     exists s sl, loc_slot l = Some s /\ slots w' !! s = Some sl /\
       Forall (fun b => is_undo_block b = true ->
                 rnode_relNode b = logno sl /\
                 uint32 ((blkno b + 1) * BLCKSZ) <= slot_end sl) two_undo_blocks).
Proof.
  eexists _, _. split; [vm_compute; reflexivity|].
  apply (UndoInsertInRecovery_covers_blocks two_undo_blocks [None; None] recovery_world).
  vm_compute. reflexivity.
Defined.
End Examples.
